(** * Rent-roll MCP server: artifact resolution, pattern matching and safe
      extraction

    A shallow embedding of the helpers of [MCP/agent-mcp/server.py] and of
    the control flow of [process_rent_roll_workflow], with the properties
    the design document states about them.

    - Python [str] values are Rocq [string]s read as sequences of code
      points below 256 (the Latin-1 range); [str.strip], [str.lower] and
      friends are written out for that range.
    - JSON-like values are [JVal]; a [dict] is an association list in
      insertion order, read with [PyDict.get].
    - An exception that leaves a function is a value of [Result] (pure
      code) or of [Outcome] (code that talks to the outside world).
    - The outside world (clock, status endpoint, archive storage, file
      system) is a record of oracles, [Host]; a computation threads a
      [World] that counts the calls made so far and keeps their trace.
    - Readings of [time.monotonic()] are integers (clock ticks): the code
      only adds the timeout once and compares readings with the deadline.
    - The [while True] polling loop takes fuel; [OutOfFuel] stands for a
      loop that is still running.
    - Library behaviour is that of CPython 3.11: there
      [PurePosixPath.match] refuses an empty pattern and
      [ZipInfo.is_dir] reads the last character of the member's name.
    - An exception of the HTTP client that the code does not catch
      ([httpx.InvalidURL]) is a reply of its own; it leaves the function
      that made the request.
    - The upload tool and the preview builder, which the workflow reaches
      through the host, are also given on their own, each over a record
      of what it sees of the file system and of the network; the upload
      tool hands back the request it sent next to its result. *)

From Stdlib Require Import String Ascii List Bool Arith ZArith Lia DecimalString.
Import ListNotations.
Open Scope string_scope.
Open Scope list_scope.

(** ** Exceptions *)

Inductive Exn : Type :=
| ValueError (msg : string)
| OSError
| IndexError
| AttributeError
| InvalidURL.

Inductive Result (A : Type) : Type :=
| Ok (a : A)
| Raise (e : Exn).
Arguments Ok {A} a.
Arguments Raise {A} e.

Definition rbind {A B : Type} (r : Result A) (k : A -> Result B) : Result B :=
  match r with
  | Ok a => k a
  | Raise e => Raise e
  end.

Notation "'let!' x ':=' r 'in' k" := (rbind r (fun x => k))
  (at level 10, x name, r at level 100, k at level 200).

(** ** Python string primitives *)

Module PyStr.

(** [s.replace(a, b)] for one-character [a] and [b]. *)
Fixpoint replace_char (a b : ascii) (s : string) : string :=
  match s with
  | EmptyString => EmptyString
  | String c s' => String (if Ascii.eqb c a then b else c) (replace_char a b s')
  end.

(** [s.lstrip(c)] for a one-character strip set. *)
Fixpoint lstrip_char (a : ascii) (s : string) : string :=
  match s with
  | EmptyString => EmptyString
  | String c s' => if Ascii.eqb c a then lstrip_char a s' else s
  end.

(** [s.startswith(p)]. *)
Definition startswith (s p : string) : bool := String.prefix p s.

(** [s.endswith(p)]. *)
Definition endswith (s p : string) : bool :=
  (String.length p <=? String.length s)%nat
  && String.eqb (substring (String.length s - String.length p) (String.length p) s) p.

(** [sub in s]. *)
Fixpoint contains (sub s : string) : bool :=
  String.prefix sub s
  || match s with
     | EmptyString => false
     | String _ s' => contains sub s'
     end.

(** [c in s] for a single character. *)
Fixpoint has_char (a : ascii) (s : string) : bool :=
  match s with
  | EmptyString => false
  | String c s' => Ascii.eqb c a || has_char a s'
  end.

(** [s.split(sep)] for a one-character separator: never the empty list. *)
Fixpoint split (sep : ascii) (s : string) : list string :=
  match s with
  | EmptyString => [EmptyString]
  | String c s' =>
      if Ascii.eqb c sep then EmptyString :: split sep s'
      else match split sep s' with
           | [] => [String c EmptyString]
           | h :: t => String c h :: t
           end
  end.

(** [sep.join(parts)]. *)
Definition join (sep : string) (parts : list string) : string :=
  String.concat sep parts.

(** [c.isspace()] on code points below 256. *)
Definition isspace (c : ascii) : bool :=
  let n := nat_of_ascii c in
  ((9 <=? n) && (n <=? 13) || (28 <=? n) && (n <=? 32)
   || (n =? 133) || (n =? 160))%nat.

Fixpoint lstrip (s : string) : string :=
  match s with
  | EmptyString => EmptyString
  | String c s' => if isspace c then lstrip s' else s
  end.

(** [s.rstrip()]: a character is kept when it, or something after it, is
    not white space. *)
Fixpoint rstrip (s : string) : string :=
  match s with
  | EmptyString => EmptyString
  | String c s' =>
      match rstrip s' with
      | EmptyString => if isspace c then EmptyString else String c EmptyString
      | r => String c r
      end
  end.

(** [s.strip()]. *)
Definition strip (s : string) : string := rstrip (lstrip s).

(** [c.lower()] on code points below 256: A-Z and the Latin-1 capitals
    0xC0-0xDE (the multiplication sign 0xD7 apart) move up by 32. *)
Definition lower_char (c : ascii) : ascii :=
  let n := nat_of_ascii c in
  if ((65 <=? n) && (n <=? 90)
      || (192 <=? n) && (n <=? 222) && negb (n =? 215))%nat
  then ascii_of_nat (n + 32) else c.

Fixpoint lower (s : string) : string :=
  match s with
  | EmptyString => EmptyString
  | String c s' => String (lower_char c) (lower s')
  end.

(** Truth value of a string: [bool(s)]. *)
Definition truthy (s : string) : bool :=
  match s with
  | EmptyString => false
  | _ => true
  end.

(** [s[:-n]] for [n > 0]. *)
Definition drop_last (n : nat) (s : string) : string :=
  substring 0 (String.length s - n) s.

End PyStr.

(** ** [fnmatch.fnmatchcase] on one path segment *)

Module Fnmatch.

(** The pieces [fnmatch.translate] turns a pattern into. *)
Inductive Tok : Type :=
| TStar
| TAny
| TClass (stuff : string)
| TLit (c : ascii).

(** Text up to the first [']'], and what follows it. *)
Fixpoint find_close (s : string) : option (string * string) :=
  match s with
  | EmptyString => None
  | String c s' =>
      if Ascii.eqb c "]" then Some (EmptyString, s')
      else match find_close s' with
           | Some (body, rest) => Some (String c body, rest)
           | None => None
           end
  end.

(** The scan after a ['[']: an optional ['!'], an optional [']'] taken
    literally, then everything up to the closing [']']. *)
Definition scan_class (s : string) : option (string * string) :=
  let '(neg, s1) :=
    match s with
    | String "!" t => ("!", t)
    | _ => ("", s)
    end in
  let '(first, s2) :=
    match s1 with
    | String "]" t => ("]", t)
    | _ => ("", s1)
    end in
  match find_close s2 with
  | Some (body, rest) => Some ((neg ++ first ++ body)%string, rest)
  | None => None
  end.

(** [translate]: [prev_star] is true when the last piece added is a
    star, so that runs of ['*'] collapse into one.  The fuel is the
    pattern's length. *)
Fixpoint tokens (fuel : nat) (prev_star : bool) (pat : string) : list Tok :=
  match fuel with
  | O => []
  | S fuel' =>
      match pat with
      | EmptyString => []
      | String c rest =>
          if Ascii.eqb c "*" then
            if prev_star then tokens fuel' true rest
            else TStar :: tokens fuel' true rest
          else if Ascii.eqb c "?" then TAny :: tokens fuel' false rest
          else if Ascii.eqb c "[" then
            match scan_class rest with
            | Some (stuff, rest') => TClass stuff :: tokens fuel' false rest'
            | None => TLit "[" :: tokens fuel' false rest
            end
          else TLit c :: tokens fuel' false rest
      end
  end.

Definition translate (pat : string) : list Tok :=
  tokens (String.length pat) false pat.

Section Match.

(** Which characters a bracket expression admits: the range, negation
    and escaping rules of [fnmatch.translate] and [re], taken as given. *)
Variable class_matches : string -> ascii -> bool.

Fixpoint run (toks : list Tok) (s : string) : bool :=
  match toks with
  | [] => match s with EmptyString => true | _ => false end
  | TStar :: ts =>
      (fix star (s : string) : bool :=
         run ts s
         || match s with
            | EmptyString => false
            | String _ s' => star s'
            end) s
  | TAny :: ts =>
      match s with
      | EmptyString => false
      | String _ s' => run ts s'
      end
  | TClass stuff :: ts =>
      match s with
      | EmptyString => false
      | String c s' => class_matches stuff c && run ts s'
      end
  | TLit a :: ts =>
      match s with
      | EmptyString => false
      | String c s' => Ascii.eqb c a && run ts s'
      end
  end.

Definition fnmatchcase (name pat : string) : bool :=
  run (translate pat) name.

End Match.

End Fnmatch.

(** ** [PurePosixPath]

    [parts] and [match] as CPython 3.8 to 3.11 compute them; 3.12 and 3.13
    compile the pattern to one regular expression with the same meaning:
    segments are compared one by one from the right, and ["**"] stands for
    one segment. *)

Module PurePosixPath.

(** The root of a path string: ["//"] for exactly two leading slashes,
    ["/"] for any other number, nothing for a relative path. *)
Definition root (s : string) : string :=
  if PyStr.startswith s "//" && negb (PyStr.startswith s "///") then "//"
  else if PyStr.startswith s "/" then "/"
  else "".

Definition keep_segment (x : string) : bool :=
  PyStr.truthy x && negb (String.eqb x ".").

(** Segments after parsing: empty and ["."] segments are dropped, [".."]
    is kept. *)
Definition tail (s : string) : list string :=
  filter keep_segment (PyStr.split "/" s).

(** [PurePosixPath(s).parts]. *)
Definition parts (s : string) : list string :=
  match root s with
  | EmptyString => tail s
  | r => r :: tail s
  end.

Section Match.

Variable class_matches : string -> ascii -> bool.

(** Segments compared from the right, as [zip(reversed(parts),
    reversed(pat_parts))] does: the shorter list decides the length. *)
Fixpoint zip_all (ps qs : list string) : bool :=
  match ps, qs with
  | p :: ps', q :: qs' =>
      Fnmatch.fnmatchcase class_matches p q && zip_all ps' qs'
  | _, _ => true
  end.

(** [PurePosixPath(path).match(pattern)]. *)
Definition pmatch (path pattern : string) : Result bool :=
  let pat_root := root pattern in
  let pat_parts := parts pattern in
  let path_parts := parts path in
  match pat_parts with
  | [] => Raise (ValueError "empty pattern")
  | _ :: pat_tail =>
      if PyStr.truthy pat_root && negb (String.eqb pat_root (root path))
      then Ok false
      else if PyStr.truthy pat_root then
        if negb (List.length pat_parts =? List.length path_parts)%nat
        then Ok false
        else Ok (zip_all (rev path_parts) (rev pat_tail))
      else if (List.length path_parts <? List.length pat_parts)%nat
      then Ok false
      else Ok (zip_all (rev path_parts) (rev pat_parts))
  end.

End Match.

End PurePosixPath.

(** ** Pattern matcher *)

Section Matcher.

Variable class_matches : string -> ascii -> bool.

(** [(s or "").replace("\\", "/").lstrip("/")]. *)
Definition norm_entry (s : string) : string :=
  PyStr.lstrip_char "/" (PyStr.replace_char "\" "/" s).

(** One turn of the loop of [_match_zip_patterns] on a pattern that is
    not the empty string: [Ok true] is [return True], [Ok false] goes on
    to the next pattern. *)
Definition match_one (name pattern : string) : Result bool :=
  let pat := norm_entry pattern in
  if String.eqb pat "**" || String.eqb pat "**/*" then Ok true
  else if PyStr.endswith pat "/**"
          && (let prefix := PyStr.drop_last 3 pat in
              String.eqb name prefix || PyStr.startswith name (prefix ++ "/")%string)
  then Ok true
  else PurePosixPath.pmatch class_matches name pat.

Fixpoint match_loop (name : string) (patterns : list string) : Result bool :=
  match patterns with
  | [] => Ok false
  | pattern :: rest =>
      if negb (PyStr.truthy pattern) then match_loop name rest
      else
        let! hit := match_one name pattern in
        if hit then Ok true else match_loop name rest
  end.

Definition _match_zip_patterns (entry_name : string) (patterns : list string)
  : Result bool :=
  match patterns with
  | [] => Ok false
  | _ => match_loop (norm_entry entry_name) patterns
  end.

End Matcher.

(** A bracket-expression reading for concrete runs: plain membership in the
    text between the brackets, negated after a leading ['!']. *)
Definition plain_class (stuff : string) (c : ascii) : bool :=
  match stuff with
  | String "!" body => negb (PyStr.has_char c body)
  | _ => PyStr.has_char c stuff
  end.

(** ** Zip-slip name check *)

(** [_safe_zip_member_name]: the normalised name, or [None] when unsafe. *)
Definition _safe_zip_member_name (name : string) : option string :=
  let n := PyStr.replace_char "\" "/" name in
  if negb (PyStr.truthy n) || PyStr.startswith n "/" || PyStr.startswith n "\"
  then None
  else if PyStr.has_char ":" (hd "" (PyStr.split "/" n)) then None
  else
    let parts := PurePosixPath.parts n in
    if existsb (String.eqb "..") parts then None
    else Some (PyStr.join "/" parts).

(** ** Archive members and host paths *)

(** What the code reads of a [zipfile.ZipInfo]: [is_dir] is the result of
    the method of that name on a member that has a name. *)
Record ZipInfo : Type := mkZipInfo {
  filename : string;
  file_size : N;
  compress_size : N;
  is_dir : bool
}.

(** The [entry] dictionaries of the manifest. *)
Record Entry : Type := mkEntry {
  e_name : string;
  e_size : N;
  e_compressed_size : N;
  e_is_dir : bool
}.

(** The warning dictionaries: [type], [entry], [reason]. *)
Record Warning : Type := mkWarning {
  w_type : string;
  w_entry : string;
  w_reason : string
}.

(** A [pathlib.Path] of the host, as its [parts]; an absolute path starts
    with its anchor. *)
Definition LocalPath : Type := list string.

Definition path_eqb (p q : LocalPath) : bool :=
  if list_eq_dec string_dec p q then true else false.

(** [Path(s)] on a POSIX host. *)
Definition Path (s : string) : LocalPath := PurePosixPath.parts s.

(** [root.joinpath( *parts)] for segments that carry no separator. *)
Definition joinpath (root : LocalPath) (parts : list string) : LocalPath :=
  root ++ parts.

(** [p.parents]: the proper prefixes of [p], the longest first, down to
    the anchor of an absolute path or to the empty path of a relative one. *)
Definition is_anchored (p : LocalPath) : bool :=
  match p with
  | a :: _ => PyStr.startswith a "/"
  | [] => false
  end.

Definition parents (p : LocalPath) : list LocalPath :=
  let lo := if is_anchored p then 1 else 0 in
  map (fun n => firstn n p) (rev (seq lo (List.length p - lo))).

(** ** Manifest and extraction *)

Definition zip_slip_warning (entry reason : string) : Warning :=
  mkWarning "zip_slip_skipped" entry reason.

(** [(info.filename or "").replace("\\", "/")]. *)
Definition raw_name (info : ZipInfo) : string :=
  PyStr.replace_char "\" "/" (filename info).

Section Archive.

Variable class_matches : string -> ascii -> bool.

(** The call [info.is_dir()], which is [filename[-1] == "/"]: on a member
    without a name it raises [IndexError].  The extraction calls it only
    after the name check, which an empty name does not pass. *)
Definition is_dir_call (info : ZipInfo) : Result bool :=
  if PyStr.truthy (filename info) then Ok (is_dir info) else Raise IndexError.

(** The [entry] dictionary of a member whose [is_dir()] returns. *)
Definition entry_of (info : ZipInfo) : Entry :=
  mkEntry (raw_name info) (file_size info) (compress_size info) (is_dir info).

(** The loop of [_build_zip_manifest]: every member is listed, the
    matched ones twice. *)
Fixpoint manifest_loop (patterns : list string) (infos : list ZipInfo)
  : Result (list Entry * list Entry) :=
  match infos with
  | [] => Ok ([], [])
  | info :: rest =>
      let! dir := is_dir_call info in
      let entry :=
        mkEntry (raw_name info) (file_size info) (compress_size info) dir in
      let! hit := _match_zip_patterns class_matches (e_name entry) patterns in
      let! r := manifest_loop patterns rest in
      Ok (entry :: fst r, if hit then entry :: snd r else snd r)
  end.

(** [_build_zip_manifest]: [(entries, matched_entries)]. *)
Definition _build_zip_manifest (infos : list ZipInfo) (patterns : list string)
  : Result (list Entry * list Entry) :=
  manifest_loop patterns infos.

(** Operations on the host's file system, each tagged with the position
    of the archive member it is done for. *)
Inductive FsOp : Type :=
| FsResolve (dest : LocalPath)
| FsWrite (dest : LocalPath).

Record ExtractState : Type := mkExtractState {
  warnings : list Warning;
  extracted_files : list LocalPath;
  fs_ops : list (nat * FsOp)
}.

Definition add_warning (st : ExtractState) (w : Warning) : ExtractState :=
  mkExtractState (warnings st ++ [w]) (extracted_files st) (fs_ops st).

Definition add_extracted (st : ExtractState) (p : LocalPath) : ExtractState :=
  mkExtractState (warnings st) (extracted_files st ++ [p]) (fs_ops st).

Definition log_op (st : ExtractState) (i : nat) (op : FsOp) : ExtractState :=
  mkExtractState (warnings st) (extracted_files st) (fs_ops st ++ [(i, op)]).

(** The host: how a path resolves (symbolic links), whether the output
    directory can be created, and whether member [i] can be copied to its
    destination (parent directories, opening both ends, the copy).  A
    copy that fails is taken to fail with an [OSError]; archives are
    lists of member headers, so that a member whose stored data is
    corrupt ([BadZipFile] while it is read) has no counterpart here. *)
Variable resolve : LocalPath -> LocalPath.
Variable mkdir_ok : LocalPath -> bool.
Variable copy_ok : nat -> LocalPath -> bool.

Section Loop.

Variable patterns : list string.
Variable root root_resolved : LocalPath.

(** The body of the loop of [_extract_zip_members] for member [i]: the
    new state, and the exception that left the loop, if any. *)
Definition extract_member (i : nat) (info : ZipInfo) (st : ExtractState)
  : ExtractState * option Exn :=
  let raw := raw_name info in
  match _safe_zip_member_name raw with
  | None => (add_warning st (zip_slip_warning raw "unsafe_member_name"), None)
  | Some safe_name =>
      if is_dir info then (st, None)
      else
        match _match_zip_patterns class_matches safe_name patterns with
        | Raise e => (st, Some e)
        | Ok false => (st, None)
        | Ok true =>
            let parts := PurePosixPath.parts safe_name in
            let dest := joinpath root parts in
            let dest_resolved := resolve dest in
            let st1 := log_op st i (FsResolve dest) in
            if negb (path_eqb dest_resolved root_resolved)
               && negb (existsb (path_eqb root_resolved) (parents dest_resolved))
            then
              (add_warning st1 (zip_slip_warning raw "path_escapes_output_dir"),
               None)
            else
              let st2 := log_op st1 i (FsWrite dest) in
              if copy_ok i dest then (add_extracted st2 dest_resolved, None)
              else (st2, Some OSError)
        end
  end.

Fixpoint extract_loop (i : nat) (infos : list ZipInfo) (st : ExtractState)
  : ExtractState * option Exn :=
  match infos with
  | [] => (st, None)
  | info :: rest =>
      match extract_member i info st with
      | (st', None) => extract_loop (S i) rest st'
      | (st', Some e) => (st', Some e)
      end
  end.

End Loop.

Definition empty_state : ExtractState := mkExtractState [] [] [].

(** A run of [_extract_zip_members] on an opened archive: the state when
    it ends, and the exception it ends with, if any. *)
Definition extract_run (infos : list ZipInfo) (patterns : list string)
    (output_dir : string) : ExtractState * option Exn :=
  let root := Path output_dir in
  if mkdir_ok root then
    extract_loop patterns root (resolve root) 0 infos empty_state
  else (empty_state, Some OSError).

(** [_extract_zip_members]: [(extracted_files, warnings)]. *)
Definition _extract_zip_members (infos : list ZipInfo) (patterns : list string)
    (output_dir : string) : Result (list LocalPath * list Warning) :=
  match extract_run infos patterns output_dir with
  | (st, None) => Ok (extracted_files st, warnings st)
  | (_, Some e) => Raise e
  end.

(** The members the loop lets through its pattern filter, by position:
    those a destination was resolved for. *)
Definition selected (st : ExtractState) (i : nat) : bool :=
  existsb (fun o => match o with
                    | (j, FsResolve _) => (i =? j)%nat
                    | _ => false
                    end) (fs_ops st).

(** The names of the selected members, in archive order. *)
Definition selected_names (st : ExtractState) (infos : list ZipInfo)
  : list string :=
  map (fun p => raw_name (snd p))
      (filter (fun p => selected st (fst p))
              (combine (seq 0 (List.length infos)) infos)).

End Archive.

(** ** JSON-like Python values *)

#[local] Set Warnings "-register-all".

(** What [json] parsing and the code's own dictionaries hold.  A finite
    float is [mantissa * 2 ^ exponent]. *)
Inductive JVal : Type :=
| JNull
| JBool (b : bool)
| JInt (z : Z)
| JFloat (mantissa exponent : Z)
| JStr (s : string)
| JList (items : list JVal)
| JDict (fields : list (string * JVal)).

(** A [dict] with string keys, in insertion order. *)
Definition Dict : Type := list (string * JVal).

Module PyDict.

Fixpoint lookup (d : Dict) (k : string) : option JVal :=
  match d with
  | [] => None
  | (k', v) :: rest => if String.eqb k' k then Some v else lookup rest k
  end.

(** [d.get(k, default)]. *)
Definition get_default (d : Dict) (k : string) (default : JVal) : JVal :=
  match lookup d k with
  | Some v => v
  | None => default
  end.

(** [d.get(k)]. *)
Definition get (d : Dict) (k : string) : JVal := get_default d k JNull.

(** [d[k] = v]: an existing key keeps its place. *)
Fixpoint set (d : Dict) (k : string) (v : JVal) : Dict :=
  match d with
  | [] => [(k, v)]
  | (k', v') :: rest =>
      if String.eqb k' k then (k, v) :: rest else (k', v') :: set rest k v
  end.

End PyDict.

(** Truth value of a Python value. *)
Definition truthy (v : JVal) : bool :=
  match v with
  | JNull => false
  | JBool b => b
  | JInt z => negb (z =? 0)%Z
  | JFloat m _ => negb (m =? 0)%Z
  | JStr s => PyStr.truthy s
  | JList l => match l with [] => false | _ => true end
  | JDict d => match d with [] => false | _ => true end
  end.

(** [x or y]. *)
Definition py_or (x y : JVal) : JVal := if truthy x then x else y.

(** [isinstance(v, str) and v.strip()], as the string when it holds. *)
Definition nonblank_str (v : JVal) : option string :=
  match v with
  | JStr s => if PyStr.truthy (PyStr.strip s) then Some s else None
  | _ => None
  end.

Definition of_opt_str (o : option string) : JVal :=
  match o with
  | Some s => JStr s
  | None => JNull
  end.

(** ** Status normalisation and the pointer resolver *)

(** The keys [zip_download_url] and [zip_presigned_expires_at] of the
    resolver's result; [None] is Python's [None]. *)
Record Pointer : Type := mkPointer {
  zip_download_url : option string;
  zip_presigned_expires_at : option string
}.

Section Resolver.

(** [repr] of a value that is not a string (numbers, [None], booleans,
    lists, dictionaries), as the interpreter prints it. *)
Variable py_repr : JVal -> string.

(** [str(v)]. *)
Definition py_str (v : JVal) : string :=
  match v with
  | JStr s => s
  | _ => py_repr v
  end.

Definition _normalize_status (value : JVal) : string :=
  match value with
  | JNull => ""
  | _ => PyStr.lower (PyStr.strip (py_str value))
  end.

Definition terminal_statuses : list string :=
  ["complete"; "completed"; "failed"; "partially complete";
   "partially completed"].

(** [_is_terminal_status]: membership in the fixed set. *)
Definition _is_terminal_status (status : JVal) : bool :=
  existsb (String.eqb (_normalize_status status)) terminal_statuses.

(** The test of the first scan of [batchDownloads]. *)
Definition zip_typed (bd : JVal) : bool :=
  match bd with
  | JDict d =>
      String.eqb (PyStr.lower (py_str (PyDict.get_default d "type" (JStr ""))))
                 "zip"
  | _ => false
  end.

(** The test of the second scan. *)
Definition zip_suffixed (bd : JVal) : bool :=
  match bd with
  | JDict d =>
      match PyDict.get d "downloadUrl" with
      | JStr dl => PyStr.endswith (PyStr.lower dl) ".zip"
      | _ => false
      end
  | _ => false
  end.

(** The canonical branch: [None] when the code falls through to the
    legacy scan. *)
Definition canonical_pointer (payload : Dict) : option Pointer :=
  match PyDict.get payload "outputs" with
  | JDict outputs =>
      match nonblank_str (PyDict.get outputs "download_url") with
      | Some dl =>
          Some (mkPointer (Some dl)
                         (nonblank_str (PyDict.get payload "presigned_url_expiry")))
      | None => None
      end
  | _ => None
  end.

(** The record the two scans settle on: [zip_entry], [JNull] for [None]. *)
Definition legacy_entry (batch_downloads : list JVal) : JVal :=
  let zip_entry :=
    match find zip_typed batch_downloads with
    | Some bd => bd
    | None => JNull
    end in
  if negb (truthy zip_entry) then
    match find zip_suffixed batch_downloads with
    | Some bd => bd
    | None => zip_entry
    end
  else zip_entry.

Definition legacy_pointer (payload : Dict) : Pointer :=
  match PyDict.get payload "batchDownloads" with
  | JList batch_downloads =>
      let zip_entry := legacy_entry batch_downloads in
      if truthy zip_entry then
        match zip_entry with
        | JDict e =>
            mkPointer (nonblank_str (PyDict.get e "downloadUrl"))
                      (nonblank_str (PyDict.get e "expiresAt"))
        | _ => mkPointer None None
        end
      else mkPointer None None
  | _ => mkPointer None None
  end.

Definition _extract_zip_pointer (payload : Dict) : Pointer :=
  match canonical_pointer payload with
  | Some p => p
  | None => legacy_pointer payload
  end.

End Resolver.

(** [repr] for concrete runs: exact on [None], booleans and integers,
    a placeholder for floats and containers. *)
Definition scalar_repr (v : JVal) : string :=
  match v with
  | JNull => "None"
  | JBool true => "True"
  | JBool false => "False"
  | JInt z => NilZero.string_of_int (Z.to_int z)
  | JFloat _ _ => "<float>"
  | JStr s => s
  | JList _ => "[...]"
  | JDict _ => "{...}"
  end.

(** ** Pre-signed URL detection and request headers *)

Definition _is_presigned_s3_url (url : string) : bool :=
  PyStr.contains "X-Amz-" url || PyStr.contains "amazonaws.com" url.

(** ** The outside world: clock, status endpoint, archive storage *)

Record Request : Type := mkRequest {
  req_url : string;
  req_headers : list (string * string)
}.

Definition has_authorization (r : Request) : bool :=
  existsb (fun h => String.eqb (fst h) "Authorization") (req_headers r).

(** What a GET on the download channel comes back with: a response (status
    code, text of the body, and the archive the body holds when it is a
    ZIP file), one of the exceptions the callers catch
    ([httpx.TimeoutException], [httpx.RequestError], and an [OSError]
    while the body is written), or [httpx.InvalidURL], which they do not
    catch. *)
Inductive Reply : Type :=
| Response (status_code : Z) (text : string) (archive : option (list ZipInfo))
| TimeoutException
| RequestError (msg : string)
| SaveError (msg : string)
| ClientInvalidURL.

(** What the status endpoint comes back with: the two exceptions
    [check_batch_status] catches, [httpx.InvalidURL], which it does not,
    or a response, with the value [resp.json()] returns ([None] when it
    raises). *)
Inductive StatusHttp : Type :=
| StTimeout
| StRequestError (msg : string)
| StInvalidURL
| StResponse (status_code : Z) (text : string) (json : option JVal).

Inductive Event : Type :=
| EvClock (t : Z)
| EvSleep
| EvStatusCall
| EvResolve
| EvFetch (url : string)
| EvGet (req : Request).

Record World : Type := mkWorld {
  n_status : nat;
  n_clock : nat;
  n_get : nat;
  trace : list Event
}.

Definition world0 : World := mkWorld 0 0 0 [].

(** How a computation ends: with a value, with an exception nobody caught,
    or still inside the polling loop when the fuel ran out. *)
Inductive Outcome (A : Type) : Type :=
| Done (a : A)
| Raised (e : Exn)
| OutOfFuel.
Arguments Done {A} a.
Arguments Raised {A} e.
Arguments OutOfFuel {A}.

Definition M (A : Type) : Type := World -> Outcome A * World.

Definition ret {A : Type} (a : A) : M A := fun w => (Done a, w).

Definition bind {A B : Type} (c : M A) (k : A -> M B) : M B :=
  fun w =>
    match c w with
    | (Done a, w') => k a w'
    | (Raised e, w') => (Raised e, w')
    | (OutOfFuel, w') => (OutOfFuel, w')
    end.

Notation "x <- c ;; k" := (bind c (fun x => k))
  (at level 61, c at next level, right associativity).
Notation "c ;;; k" := (bind c (fun _ => k))
  (at level 61, right associativity).

Definition emit (e : Event) : M unit :=
  fun w => (Done tt, mkWorld (n_status w) (n_clock w) (n_get w) (trace w ++ [e])).

Definition lift {A : Type} (r : Result A) : M A :=
  fun w => match r with
           | Ok a => (Done a, w)
           | Raise e => (Raised e, w)
           end.

Definition raise {A : Type} (e : Exn) : M A := fun w => (Raised e, w).

Definition out_of_fuel {A : Type} : M A := fun w => (OutOfFuel, w).

Definition decimal (z : Z) : string := NilZero.string_of_int (Z.to_int z).

Inductive ResultMode : Type := ModeUrls | ModeManifest | ModeExtract.
Inductive DirStrategy : Type := StrategyTemp | StrategyUseOutputDir.

(** What [_download_zip_to_temp_file] hands back: its failure dictionary,
    or the temporary file, seen as the archive it holds ([None] when the
    bytes are not a ZIP file). *)
Inductive Download : Type :=
| DlFail (d : Dict)
| DlOk (archive : option (list ZipInfo)).

(** [str(path)] on a POSIX host. *)
Definition path_str (p : LocalPath) : string :=
  match p with
  | [] => "."
  | a :: rest =>
      if PyStr.startswith a "/" then (a ++ PyStr.join "/" rest)%string
      else PyStr.join "/" p
  end.

Definition entry_dict (e : Entry) : JVal :=
  JDict [("name", JStr (e_name e)); ("size", JInt (Z.of_N (e_size e)));
         ("compressed_size", JInt (Z.of_N (e_compressed_size e)));
         ("is_dir", JBool (e_is_dir e))].

Definition warning_dict (w : Warning) : JVal :=
  JDict [("type", JStr (w_type w)); ("entry", JStr (w_entry w));
         ("reason", JStr (w_reason w))].

Definition is_int (v : JVal) (n : Z) : bool :=
  match v with
  | JInt z => (z =? n)%Z
  | _ => false
  end.

Definition is_str (v : JVal) (s : string) : bool :=
  match v with
  | JStr t => String.eqb t s
  | _ => false
  end.

Definition failure (error : string) (more : Dict) : Dict :=
  [("success", JBool false); ("error", JStr error)] ++ more.

Definition bearer (key : string) : list (string * string) :=
  [("Authorization", ("Bearer " ++ key)%string)].

(** Library and host behaviour the code relies on, the process
    environment, and the remote side. *)
Record Host : Type := mkHost {
  (** Bracket expressions of [fnmatch], [repr] of values that are not
      strings, [Path.resolve], [mkdir], the copy of a member, [mkdtemp],
      the text of an [OSError], [platform.system()], [_read_csv_previews],
      and the saving of a downloaded file (from [_extract_filename] to
      [file_path.resolve()]: the path written, or the exception raised). *)
  h_class_matches : string -> ascii -> bool;
  h_py_repr : JVal -> string;
  h_resolve : LocalPath -> LocalPath;
  h_mkdir_ok : LocalPath -> bool;
  h_copy_ok : nat -> LocalPath -> bool;
  h_mkdtemp : Result string;
  h_os_error_text : string;
  h_host_os : string;
  h_read_csv_previews : JVal -> Z -> Z -> JVal;
  h_save_download : nat -> string -> Reply -> Result string;
  (** Whether [tempfile.mkstemp] can make a file in the directory ([None]:
      the default one), and the first 1000 bytes of the body of a response
      with the given text, decoded with replacement characters ([""] when
      the body cannot be read). *)
  h_mkstemp_ok : option string -> bool;
  h_body_head : string -> string;
  (** [RADIX_API_KEY], [RADIX_API_URL] after defaulting,
      [RADIX_NOTIFICATION_EMAIL] ([""] when unset). *)
  h_env_api_key : option string;
  h_base_url : string;
  h_env_email : string;
  (** The result of [upload_rent_rolls] when it returns, the reply to the
      n-th status query, the n-th reading of [time.monotonic()] in clock
      ticks, the reply to the n-th download request. *)
  h_upload_rent_rolls : string -> Dict;
  h_status_http : nat -> StatusHttp;
  h_clock : nat -> Z;
  h_transport : nat -> Request -> Reply
}.

Section Server.

Variable h : Host.

Local Abbreviation class_matches := (h_class_matches h).
Local Abbreviation py_repr := (h_py_repr h).
Local Abbreviation resolve := (h_resolve h).
Local Abbreviation mkdir_ok := (h_mkdir_ok h).
Local Abbreviation copy_ok := (h_copy_ok h).
Local Abbreviation mkdtemp := (h_mkdtemp h).
Local Abbreviation os_error_text := (h_os_error_text h).
Local Abbreviation host_os := (h_host_os h).
Local Abbreviation _read_csv_previews := (h_read_csv_previews h).
Local Abbreviation save_download := (h_save_download h).
Local Abbreviation mkstemp_ok := (h_mkstemp_ok h).
Local Abbreviation body_head := (h_body_head h).
Local Abbreviation env_api_key := (h_env_api_key h).
Local Abbreviation base_url := (h_base_url h).
Local Abbreviation env_email := (h_env_email h).
Local Abbreviation upload_rent_rolls := (h_upload_rent_rolls h).
Local Abbreviation status_http := (h_status_http h).
Local Abbreviation clock := (h_clock h).
Local Abbreviation transport := (h_transport h).

Definition monotonic : M Z :=
  fun w =>
    let t := clock (n_clock w) in
    (Done t, mkWorld (n_status w) (S (n_clock w)) (n_get w)
                     (trace w ++ [EvClock t])).

Definition status_get : M StatusHttp :=
  fun w =>
    (Done (status_http (n_status w)),
     mkWorld (S (n_status w)) (n_clock w) (n_get w) (trace w)).

Definition http_get (req : Request) : M Reply :=
  fun w =>
    (Done (transport (n_get w) req),
     mkWorld (n_status w) (n_clock w) (S (n_get w)) (trace w ++ [EvGet req])).

(** [api_key_override or os.environ.get("RADIX_API_KEY")]. *)
Definition _get_api_key_optional (api_key_override : option string)
  : option string :=
  match api_key_override with
  | Some k => if PyStr.truthy k then Some k else env_api_key
  | None => env_api_key
  end.

(** [_get_api_key]: the key, or the error dictionary. *)
Definition _get_api_key (api_key_override : option string) : Dict + string :=
  match _get_api_key_optional api_key_override with
  | Some k =>
      if PyStr.truthy k then inr k
      else inl (failure "Missing API key"
                  [("details", JStr "Provide api_key_override or set the RADIX_API_KEY environment variable.")])
  | None =>
      inl (failure "Missing API key"
             [("details", JStr "Provide api_key_override or set the RADIX_API_KEY environment variable.")])
  end.

(** [_unwrap_api_payload]: [body.get] raises [AttributeError] on a JSON
    value that is not an object. *)
Definition _unwrap_api_payload (body : JVal) : Result Dict :=
  match body with
  | JDict fields =>
      match PyDict.get fields "data" with
      | JDict data => Ok data
      | _ => Ok fields
      end
  | _ => Raise AttributeError
  end.

Definition optional_key (d : Dict) (k : string) : Dict :=
  if truthy (PyDict.get d k) then [(k, PyDict.get d k)] else [].

Definition present_key (d : Dict) (k : string) : Dict :=
  match PyDict.get d k with
  | JNull => []
  | v => [(k, v)]
  end.

Definition file_summary (f : JVal) : list JVal :=
  match f with
  | JDict d =>
      [JDict ([("fileId", PyDict.get d "fileId");
               ("fileName", PyDict.get d "fileName");
               ("status", PyDict.get d "status")]
              ++ optional_key d "downloadUrl" ++ optional_key d "errorMessage")]
  | _ => []
  end.

Definition download_summary (bd : JVal) : list JVal :=
  match bd with
  | JDict d =>
      [JDict [("type", PyDict.get d "type");
              ("downloadUrl", PyDict.get d "downloadUrl");
              ("expiresAt", PyDict.get d "expiresAt")]]
  | _ => []
  end.

Definition summaries (f : JVal -> list JVal) (v : JVal) : list JVal :=
  match v with
  | JList items => flat_map f items
  | _ => []
  end.

(** The result dictionary [check_batch_status] builds from a payload. *)
Definition status_result (batch_id : JVal) (payload : Dict) (zip_ptr : Pointer)
  : Dict :=
  let batch_downloads := summaries download_summary (PyDict.get payload "batchDownloads") in
  let url := of_opt_str (zip_download_url zip_ptr) in
  let expiry := of_opt_str (zip_presigned_expires_at zip_ptr) in
  [("success", JBool true);
   ("batchId", py_or (PyDict.get payload "batchId")
                 (py_or (PyDict.get payload "batch_id") batch_id));
   ("status", PyDict.get payload "status");
   ("fileCount", PyDict.get_default payload "fileCount" (JInt 0));
   ("filesCompleted", PyDict.get_default payload "filesCompleted" (JInt 0));
   ("filesInProgress", PyDict.get_default payload "filesInProgress" (JInt 0));
   ("filesFailed", PyDict.get_default payload "filesFailed" (JInt 0));
   ("percentComplete", PyDict.get_default payload "percentComplete" (JInt 0));
   ("files", JList (summaries file_summary (PyDict.get payload "files")));
   ("createdAt", py_or (PyDict.get payload "createdAt") (PyDict.get payload "created_at"));
   ("updatedAt", py_or (PyDict.get payload "updatedAt")
                   (py_or (PyDict.get payload "completed_at")
                          (PyDict.get payload "updated_at")));
   ("zip_download_url", url);
   ("zip_presigned_expires_at", expiry);
   ("zipDownloadUrl", url);
   ("zipPresignedExpiresAt", expiry)]
  ++ match batch_downloads with
     | [] => []
     | _ => [("batchDownloads", JList batch_downloads)]
     end
  ++ optional_key payload "errorMessage"
  ++ present_key payload "actualTotalUnits"
  ++ present_key payload "estimatedTotalUnits"
  ++ match PyDict.get payload "summary" with
     | JDict s => [("summary", JDict s)]
     | _ => []
     end.

Definition check_batch_status (batch_id : JVal) (api_key_override : option string)
  : M Dict :=
  emit EvStatusCall ;;;
  match _get_api_key api_key_override with
  | inl err => ret err
  | inr _ =>
      reply <- status_get ;;
      match reply with
      | StTimeout =>
          ret (failure "Request timed out"
                 [("details", JStr "The status check request timed out. Try again shortly.")])
      | StRequestError msg =>
          ret (failure "Network error"
                 [("details", JStr ("Could not connect to " ++ base_url ++ ": " ++ msg)%string)])
      | StInvalidURL => raise InvalidURL
      | StResponse code text json =>
          if (code =? 404)%Z then
            ret (failure "Batch not found"
                   [("details", JStr ("No batch found with ID: " ++ py_str py_repr batch_id)%string)])
          else if negb ((code =? 200)%Z || (code =? 201)%Z) then
            ret (failure ("API error (HTTP " ++ decimal code ++ ")")%string
                   [("details", JStr (substring 0 1000 text))])
          else
            match json with
            | None =>
                ret (failure "Invalid API response"
                       [("details", JStr "Could not parse JSON from API response.")])
            | Some body =>
                payload <- lift (_unwrap_api_payload body) ;;
                emit EvResolve ;;;
                ret (status_result batch_id payload
                       (_extract_zip_pointer py_repr payload))
            end
      end
  end.

(** The [headers] of the one request [_download_zip_to_temp_file] makes. *)
Definition zip_fetch_headers (zip_download_url : string)
    (api_key_override : option string) : list (string * string) :=
  if negb (_is_presigned_s3_url zip_download_url) then
    match _get_api_key_optional api_key_override with
    | Some key => if PyStr.truthy key then bearer key else []
    | None => []
    end
  else [].

Definition py_opt (o : option string) : string :=
  match o with
  | Some s => s
  | None => "None"
  end.

(** The [dir] handed to [tempfile.mkstemp]: [temp_dir] when it is not
    empty. *)
Definition target_dir (temp_dir : option string) : option string :=
  match temp_dir with
  | Some td => if PyStr.truthy td then Some td else None
  | None => None
  end.

Definition _download_zip_to_temp_file (zip_download_url : string)
    (api_key_override : option string) (temp_dir : option string) : M Download :=
  emit (EvFetch zip_download_url) ;;;
  if negb (PyStr.truthy zip_download_url) then
    ret (DlFail (failure "Missing zip_download_url" []))
  else
    let temp_dir_failed :=
      match temp_dir with
      | Some td => PyStr.truthy td && negb (mkdir_ok (Path td))
      | None => false
      end in
    if temp_dir_failed then
      ret (DlFail (failure "Cannot create temp directory"
                     [("details",
                       JStr ("Failed to create '" ++ py_opt temp_dir ++ "': "
                             ++ os_error_text)%string)]))
    else if negb (mkstemp_ok (target_dir temp_dir)) then raise OSError
    else
      let headers := zip_fetch_headers zip_download_url api_key_override in
      reply <- http_get (mkRequest zip_download_url headers) ;;
      match reply with
      | Response code text archive =>
          if negb (code =? 200)%Z then
            ret (DlFail (failure "ZIP download failed"
                           [("http_status", JInt code);
                            ("details", JStr (body_head text))]))
          else ret (DlOk archive)
      | TimeoutException => ret (DlFail (failure "ZIP download timed out" []))
      | RequestError msg =>
          ret (DlFail (failure "Network error" [("details", JStr msg)]))
      | SaveError msg =>
          ret (DlFail (failure "File error" [("details", JStr msg)]))
      | ClientInvalidURL => raise InvalidURL
      end.

(** The dictionary both ZIP tools return when the download failed. *)
Definition download_failed (zip_download_url : string) (dl : Dict) : Dict :=
  [("success", JBool false);
   ("zip_download_url", JStr zip_download_url);
   ("error", PyDict.get dl "error");
   ("http_status", PyDict.get dl "http_status");
   ("details", PyDict.get dl "details")].

Definition invalid_zip (zip_download_url : string) : Dict :=
  [("success", JBool false);
   ("zip_download_url", JStr zip_download_url);
   ("error", JStr "Invalid ZIP file")].

Definition manifest_dict (m : list Entry * list Entry) : Dict :=
  [("entries", JList (map entry_dict (fst m)));
   ("matched_entries", JList (map entry_dict (snd m)))].

Definition get_batch_zip_manifest (zip_download_url : string)
    (extract_patterns : list string) (api_key_override : option string)
  : M Dict :=
  dl <- _download_zip_to_temp_file zip_download_url api_key_override None ;;
  match dl with
  | DlFail d => ret (download_failed zip_download_url d)
  | DlOk None => ret (invalid_zip zip_download_url)
  | DlOk (Some infos) =>
      manifest <- lift (_build_zip_manifest class_matches infos extract_patterns) ;;
      ret ([("success", JBool true);
            ("zip_download_url", JStr zip_download_url)]
           ++ manifest_dict manifest)
  end.

Definition download_and_extract_batch_zip (zip_download_url : string)
    (patterns : list string) (output_dir : option string)
    (api_key_override : option string) : M Dict :=
  let temp_dir :=
    match output_dir with
    | Some d => if PyStr.truthy d then Some d else None
    | None => None
    end in
  dl <- _download_zip_to_temp_file zip_download_url api_key_override temp_dir ;;
  match dl with
  | DlFail d => ret (download_failed zip_download_url d)
  | DlOk None => ret (invalid_zip zip_download_url)
  | DlOk (Some infos) =>
      manifest <- lift (_build_zip_manifest class_matches infos patterns) ;;
      match temp_dir with
      | None =>
          ret [("success", JBool true);
               ("zip_download_url", JStr zip_download_url);
               ("manifest", JDict (manifest_dict manifest));
               ("extracted_files", JList []);
               ("extracted_count", JInt 0);
               ("warnings", JList [])]
      | Some dir =>
          extracted <- lift (_extract_zip_members class_matches resolve mkdir_ok
                               copy_ok infos patterns dir) ;;
          let files := map (fun p => JStr (path_str p)) (fst extracted) in
          ret [("success", JBool true);
               ("zip_download_url", JStr zip_download_url);
               ("output_dir", JStr (path_str (resolve (Path dir))));
               ("manifest", JDict (manifest_dict manifest));
               ("extracted_files", JList files);
               ("extracted_count", JInt (Z.of_nat (List.length files)));
               ("warnings", JList (map warning_dict (snd extracted)))]
      end
  end.

(** The requests of [_download_processed_files_impl] for the [i]-th URL,
    and what its [try] block ends with: the saved file's path, the text
    appended to [errors], or an exception that is none of the three the
    block catches. *)
Definition download_one (key : string) (i : nat) (url : string)
  : M (string + string) :=
  let is_presigned := _is_presigned_s3_url url in
  let headers := if is_presigned then [] else bearer key in
  resp <- http_get (mkRequest url headers) ;;
  resp <- (match resp with
           | Response code _ _ =>
               if (code =? 401)%Z && is_presigned
               then http_get (mkRequest url (bearer key))
               else ret resp
           | _ => ret resp
           end) ;;
  let label := ("URL " ++ decimal (Z.of_nat (i + 1)))%string in
  match resp with
  | Response code text _ =>
      if negb (code =? 200)%Z then
        ret (inr (label ++ ": HTTP " ++ decimal code ++ " - "
                  ++ substring 0 200 text)%string)
      else
        match save_download i url resp with
        | Ok path => ret (inl path)
        | Raise OSError =>
            ret (inr (label ++ ": File save error - " ++ os_error_text)%string)
        | Raise e => raise e
        end
  | TimeoutException => ret (inr (label ++ ": Download timed out")%string)
  | RequestError msg => ret (inr (label ++ ": Network error - " ++ msg)%string)
  | SaveError msg => ret (inr (label ++ ": File save error - " ++ msg)%string)
  | ClientInvalidURL => raise InvalidURL
  end.

Fixpoint download_loop (key : string) (i : nat) (urls : list string)
  : M (list string * list string) :=
  match urls with
  | [] => ret ([], [])
  | url :: rest =>
      r <- download_one key i url ;;
      rs <- download_loop key (S i) rest ;;
      match r with
      | inl path => ret (path :: fst rs, snd rs)
      | inr err => ret (fst rs, err :: snd rs)
      end
  end.

Definition _download_processed_files_impl (download_urls : list string)
    (output_directory : string) (api_key_override : option string) : M Dict :=
  match _get_api_key api_key_override with
  | inl err => ret err
  | inr key =>
      match download_urls with
      | [] =>
          ret (failure "No download URLs provided"
                 [("details", JStr "Provide at least one download URL.")])
      | _ =>
          if negb (mkdir_ok (Path output_directory)) then
            ret (failure "Cannot create output directory"
                   [("details",
                     JStr ("Failed to create '" ++ output_directory ++ "': "
                           ++ os_error_text)%string)])
          else
            let warnings :=
              if (1 <? List.length download_urls)%nat
              then [JStr "Multiple download_urls were provided. Prefer process_rent_roll_workflow to deterministically use the canonical batch ZIP (zip_download_url)."]
              else [] in
            r <- download_loop key 0 download_urls ;;
            let downloaded := map JStr (fst r) in
            let errors := map JStr (snd r) in
            ret ([("success", JBool (0 <? List.length downloaded)%nat);
                  ("downloadedFiles", JList downloaded);
                  ("downloadedCount", JInt (Z.of_nat (List.length downloaded)))]
                 ++ match errors with
                    | [] => []
                    | _ => [("errors", JList errors)]
                    end
                 ++ match warnings with
                    | [] => []
                    | _ => [("warnings", JList warnings)]
                    end)
      end
  end.

(** [_resolve_output_dir]: [(output_dir_used, warnings)]. *)
Definition _resolve_output_dir (output_dir : option string)
    (strategy : DirStrategy) : Result (string * list JVal) :=
  let fallback (ws : list JVal) : Result (string * list JVal) :=
    let! tmp := mkdtemp in Ok (tmp, ws) in
  match strategy, output_dir with
  | StrategyUseOutputDir, Some d =>
      if PyStr.truthy d then
        let p := Path d in
        if negb (is_anchored p) then
          fallback [JDict [("type", JStr "output_dir_not_absolute");
                           ("requested", JStr d);
                           ("action", JStr "falling_back_to_temp")]]
        else if mkdir_ok p then Ok (path_str p, [])
        else
          fallback [JDict [("type", JStr "output_dir_create_failed");
                           ("requested", JStr d);
                           ("error", JStr os_error_text);
                           ("action", JStr "falling_back_to_temp")]]
      else fallback []
  | _, _ => fallback []
  end.

Record WorkflowArgs : Type := mkWorkflowArgs {
  notification_email : string;
  poll_interval_seconds : Z;
  timeout_seconds : Z;
  result_mode : ResultMode;
  output_dir : option string;
  output_dir_strategy : DirStrategy;
  extract_patterns : list string;
  include_summary : bool;
  preview_rows : Z;
  inline_max_bytes : Z;
  api_key_override : option string
}.

(** How the [while True] loop is left: by [return status_resp], or by one
    of its two [break]s with [last_status]. *)
Inductive PollExit : Type :=
| PollReturn (status_resp : Dict)
| PollBreak (last_status : Dict).

Section Workflow.

Variable a : WorkflowArgs.

Fixpoint poll (fuel : nat) (batch_id : JVal) (deadline : Z) : M PollExit :=
  match fuel with
  | O => out_of_fuel
  | S fuel' =>
      status_resp <- check_batch_status batch_id (api_key_override a) ;;
      if negb (truthy (PyDict.get status_resp "success")) then
        ret (PollReturn status_resp)
      else if _is_terminal_status py_repr
                (PyDict.get_default status_resp "status" (JStr ""))
      then ret (PollBreak status_resp)
      else
        now <- monotonic ;;
        if (deadline <=? now)%Z then ret (PollBreak status_resp)
        else emit EvSleep ;;; poll fuel' batch_id deadline
  end.

Definition failed_file_warning (f : JVal) : list JVal :=
  match f with
  | JDict d =>
      if is_str (PyDict.get d "status") "failed" then
        [JDict [("type", JStr "file_failed");
                ("file_name", PyDict.get d "fileName");
                ("error_message", PyDict.get d "errorMessage")]]
      else []
  | _ => []
  end.

Definition batch_warnings (last_status : Dict) : list JVal :=
  if truthy (PyDict.get_default last_status "filesFailed" (JInt 0)) then
    summaries failed_file_warning
      (PyDict.get_default last_status "files" (JList []))
    ++ [JDict [("type", JStr "batch_failed_files");
               ("files_failed", PyDict.get last_status "filesFailed")]]
  else [].

(** [result["warnings"].append(w)] and [.extend(ws)]. *)
Definition extend_warnings (result : Dict) (ws : list JVal) : Dict :=
  match PyDict.get result "warnings" with
  | JList old => PyDict.set result "warnings" (JList (old ++ ws))
  | _ => result
  end.

Definition _zip_op_with_one_refresh (op : ResultMode) (current_url : JVal)
    (effective_output_dir : option string) : M Dict :=
  match op with
  | ModeManifest =>
      get_batch_zip_manifest (py_str py_repr current_url)
        (extract_patterns a) (api_key_override a)
  | _ =>
      download_and_extract_batch_zip (py_str py_repr current_url)
        (extract_patterns a) effective_output_dir (api_key_override a)
  end.

(** The ZIP operation and its single pointer refresh: the result
    dictionary (its URL fields updated when the retry is made) and the
    last [zip_result]. *)
Definition zip_stage (batch_id zip_url : JVal) (output_dir_used : string)
    (result : Dict) : M (Dict * Dict) :=
  zip_result <- _zip_op_with_one_refresh (result_mode a) zip_url
                  (Some output_dir_used) ;;
  if negb (truthy (PyDict.get zip_result "success"))
     && is_int (PyDict.get zip_result "http_status") 403
  then
    refreshed <- check_batch_status batch_id (api_key_override a) ;;
    if truthy (PyDict.get refreshed "success") then
      let new_url := py_or (PyDict.get refreshed "zip_download_url") zip_url in
      if truthy new_url then
        let result := PyDict.set result "zip_download_url" new_url in
        let result := PyDict.set result "zipDownloadUrl" new_url in
        zip_result <- _zip_op_with_one_refresh (result_mode a) new_url
                        (Some output_dir_used) ;;
        ret (result, zip_result)
      else ret (result, zip_result)
    else ret (result, zip_result)
  else ret (result, zip_result).

Definition zip_failure_warning (type : string) (zip_result : Dict) : JVal :=
  JDict [("type", JStr type);
         ("error", PyDict.get zip_result "error");
         ("details", PyDict.get zip_result "details");
         ("http_status", PyDict.get zip_result "http_status")].

(** Everything after the polling loop. *)
Definition after_poll (batch_id : JVal) (deadline : Z) (last_status : Dict)
  : M Dict :=
  let url0 := PyDict.get last_status "zip_download_url" in
  let expiry0 := PyDict.get last_status "zip_presigned_expires_at" in
  ptr <- (if negb (truthy url0) then
            emit EvResolve ;;;
            let zip_ptr := _extract_zip_pointer py_repr last_status in
            ret (of_opt_str (zip_download_url zip_ptr),
                 py_or (of_opt_str (zip_presigned_expires_at zip_ptr)) expiry0)
          else ret (url0, expiry0)) ;;
  let zip_url := fst ptr in
  let zip_expiry := snd ptr in
  let warnings := batch_warnings last_status in
  dir <- lift (_resolve_output_dir (output_dir a) (output_dir_strategy a)) ;;
  let output_dir_used := fst dir in
  let warnings := warnings ++ snd dir in
  let result : Dict :=
    [("success", JBool true);
     ("batch_id", batch_id);
     ("status", PyDict.get last_status "status");
     ("zip_download_url", zip_url);
     ("zip_presigned_expires_at", zip_expiry);
     ("output_dir_used", JStr output_dir_used);
     ("host_os", JStr host_os);
     ("warnings", JList warnings);
     ("batchId", batch_id);
     ("zipDownloadUrl", zip_url);
     ("zipPresignedExpiresAt", zip_expiry)] in
  let result :=
    match include_summary a, PyDict.get last_status "summary" with
    | true, JNull => result
    | true, s => PyDict.set result "summary" s
    | false, _ => result
    end in
  now <- monotonic ;;
  if (deadline <=? now)%Z
     && negb (_is_terminal_status py_repr
                (PyDict.get_default last_status "status" (JStr "")))
  then
    let result := PyDict.set result "success" (JBool false) in
    let result := PyDict.set result "error" (JStr "Workflow timed out") in
    ret (PyDict.set result "details"
           (JStr "Batch did not reach a terminal state within timeout_seconds."))
  else
    match result_mode a with
    | ModeUrls => ret result
    | mode =>
        if negb (truthy zip_url) then
          let result := PyDict.set result "success" (JBool false) in
          let result := PyDict.set result "error" (JStr "Missing zip_download_url") in
          ret (PyDict.set result "details"
                 (JStr "Batch completed but no canonical ZIP URL was available."))
        else
          staged <- zip_stage batch_id zip_url output_dir_used result ;;
          let result := fst staged in
          let zip_result := snd staged in
          let ok := truthy (PyDict.get zip_result "success") in
          match mode with
          | ModeManifest =>
              let result :=
                PyDict.set result "zip_manifest"
                  (JDict [("entries",
                           PyDict.get_default zip_result "entries" (JList []));
                          ("matched_entries",
                           PyDict.get_default zip_result "matched_entries" (JList []))]) in
              ret (if ok then result
                   else extend_warnings result
                          [zip_failure_warning "zip_manifest_failed" zip_result])
          | _ =>
              let extracted := PyDict.get_default zip_result "extracted_files" (JList []) in
              let result := PyDict.set result "extracted_files" extracted in
              let result :=
                PyDict.set result "extracted_count"
                  (PyDict.get_default zip_result "extracted_count" (JInt 0)) in
              let result :=
                match PyDict.get zip_result "warnings" with
                | JList (w :: ws) => extend_warnings result (w :: ws)
                | _ => result
                end in
              let result :=
                if ok then result
                else extend_warnings result
                       [zip_failure_warning "zip_extract_failed" zip_result] in
              ret (PyDict.set result "processed_csv"
                     (if truthy extracted
                      then _read_csv_previews extracted (preview_rows a)
                             (inline_max_bytes a)
                      else JList []))
          end
    end.

(** [(notification_email or "").strip() or os.environ.get(...).strip()]. *)
Definition effective_email : string :=
  if PyStr.truthy (PyStr.strip (notification_email a))
  then PyStr.strip (notification_email a)
  else PyStr.strip env_email.

Definition process_rent_roll_workflow (fuel : nat) : M Dict :=
  let email := effective_email in
  if negb (PyStr.truthy email) then
    ret (failure "Missing notification_email"
           [("details", JStr "Provide notification_email or set RADIX_NOTIFICATION_EMAIL.")])
  else
    let upload := upload_rent_rolls email in
    if negb (truthy (PyDict.get upload "success")) then ret upload
    else
      let batch_id := PyDict.get upload "batchId" in
      if negb (truthy batch_id) then
        ret (failure "Upload did not return batchId" [])
      else
        start <- monotonic ;;
        let deadline := (start + timeout_seconds a)%Z in
        exit <- poll fuel batch_id deadline ;;
        match exit with
        | PollReturn status_resp => ret status_resp
        | PollBreak last_status => after_poll batch_id deadline last_status
        end.

End Workflow.

End Server.

(** ** Configuration, base URL and content types *)

Definition DEFAULT_BASE_URL : string := "https://connect.rediq.io".

Definition SUPPORTED_EXTENSIONS : list string :=
  [".xlsx"; ".xls"; ".xlsm"; ".csv"; ".ods"].

Definition MAX_FILES_PER_BATCH : nat := 20.

Definition MAX_FILE_SIZE_BYTES : N := 2 * 1024 * 1024.

Definition MIME_TYPES : list (string * string) :=
  [(".xlsx", "application/vnd.openxmlformats-officedocument.spreadsheetml.sheet");
   (".xls", "application/vnd.ms-excel");
   (".xlsm", "application/vnd.ms-excel.sheet.macroEnabled.12");
   (".csv", "text/csv");
   (".ods", "application/vnd.oasis.opendocument.spreadsheet")].

(** [s.rstrip(c)] for a one-character strip set. *)
Fixpoint rstrip_char (a : ascii) (s : string) : string :=
  match s with
  | EmptyString => EmptyString
  | String c s' =>
      match rstrip_char a s' with
      | EmptyString => if Ascii.eqb c a then EmptyString else String c EmptyString
      | r => String c r
      end
  end.

(** [_get_base_url], from the value of [RADIX_API_URL]. *)
Definition _get_base_url (env_api_url : option string) : string :=
  rstrip_char "/" match env_api_url with
                  | Some v => v
                  | None => DEFAULT_BASE_URL
                  end.

(** [table.get(k)] on a table with string values. *)
Fixpoint table_get (table : list (string * string)) (k : string) : option string :=
  match table with
  | [] => None
  | (k', v) :: rest => if String.eqb k' k then Some v else table_get rest k
  end.

Definition _get_content_type (extension : string) : string :=
  match table_get MIME_TYPES (PyStr.lower extension) with
  | Some mime => mime
  | None => "application/octet-stream"
  end.

(** ** File names of host paths *)

(** [p.name]: the last part, unless the path is only its anchor. *)
Definition path_name (p : LocalPath) : string :=
  match rev p with
  | [] => ""
  | last :: [] => if is_anchored p then "" else last
  | last :: _ => last
  end.

(** [s.rfind(c)]. *)
Fixpoint rfind (a : ascii) (s : string) : option nat :=
  match s with
  | EmptyString => None
  | String c s' =>
      match rfind a s' with
      | Some i => Some (S i)
      | None => if Ascii.eqb c a then Some 0 else None
      end
  end.

(** [p.suffix]: the name from its last dot on, when that dot is neither
    the first nor the last character. *)
Definition path_suffix (p : LocalPath) : string :=
  let name := path_name p in
  match rfind "." name with
  | Some i =>
      if (0 <? i)%nat && (i <? String.length name - 1)%nat
      then substring i (String.length name - i) name
      else ""
  | None => ""
  end.

(** ** [upload_rent_rolls] *)

(** One part of the multipart form: [(p.name, fh, mime)]. *)
Record FilePart : Type := mkFilePart {
  part_name : string;
  part_path : LocalPath;
  part_mime : string
}.

(** The POST request: the form field [notificationMethod] holds
    [json.dumps] of the list of [(type, entry)] records. *)
Record UploadRequest : Type := mkUploadRequest {
  up_url : string;
  up_headers : list (string * string);
  up_files : list FilePart;
  up_notification : list (string * string)
}.

Inductive UploadReply : Type :=
| UpTimeout
| UpRequestError (msg : string)
| UpResponse (status_code : Z) (text : string) (json : option JVal).

(** The file system as the upload tool sees it, the text of
    [f"{size / (1024 * 1024):.1f}"], [RADIX_API_URL] and the upload
    endpoint. *)
Record UploadHost : Type := mkUploadHost {
  up_exists : LocalPath -> bool;
  up_is_file : LocalPath -> bool;
  up_size : LocalPath -> N;
  up_open_ok : LocalPath -> bool;
  up_size_mb : N -> string;
  up_env_api_url : option string;
  up_post : UploadRequest -> UploadReply
}.

(** How a call ends: with its result, or with an exception nothing
    catches ([open] failing, [.get] on a JSON value that is no object). *)
Inductive UploadEnd : Type :=
| UpReturn (result : Dict)
| UpOSError
| UpAttributeError.

(** The loop over [file_paths]: the error of the first file that fails a
    check, [None] when all pass. *)
Fixpoint validate_files (u : UploadHost) (file_paths : list string)
  : option Dict :=
  match file_paths with
  | [] => None
  | fp :: rest =>
      let p := Path fp in
      if negb (up_exists u p) then
        Some (failure "File not found"
                [("details", JStr ("File does not exist: " ++ fp)%string)])
      else if negb (up_is_file u p) then
        Some (failure "Not a file"
                [("details", JStr ("Path is not a file: " ++ fp)%string)])
      else
        let ext := PyStr.lower (path_suffix p) in
        if negb (existsb (String.eqb ext) SUPPORTED_EXTENSIONS) then
          Some (failure "Unsupported file type"
                  [("details",
                    JStr ("File '" ++ path_name p
                          ++ "' has unsupported extension '" ++ ext
                          ++ "'. Supported: "
                          ++ PyStr.join ", " [".csv"; ".ods"; ".xls"; ".xlsm"; ".xlsx"])%string)])
        else if (MAX_FILE_SIZE_BYTES <? up_size u p)%N then
          Some (failure "File too large"
                  [("details",
                    JStr ("File '" ++ path_name p ++ "' is "
                          ++ up_size_mb u (up_size u p)
                          ++ " MB. Maximum is 2 MB per file.")%string)])
        else validate_files u rest
  end.

Definition file_part (fp : string) : FilePart :=
  let p := Path fp in
  mkFilePart (path_name p) p (_get_content_type (path_suffix p)).

(** What the tool makes of the reply to its request. *)
Definition upload_result (base_url : string) (n_files : nat) (reply : UploadReply)
  : UploadEnd :=
  match reply with
  | UpTimeout =>
      UpReturn (failure "Request timed out"
                  [("details", JStr "The upload request timed out. Try again or upload fewer files.")])
  | UpRequestError msg =>
      UpReturn (failure "Network error"
                  [("details", JStr ("Could not connect to " ++ base_url ++ ": " ++ msg)%string)])
  | UpResponse code text json =>
      if negb ((code =? 200)%Z || (code =? 201)%Z || (code =? 202)%Z) then
        UpReturn (failure ("API error (HTTP " ++ decimal code ++ ")")%string
                    [("details", JStr (substring 0 1000 text))])
      else
        match json with
        | None =>
            UpReturn (failure "Invalid API response"
                        [("details", JStr "Could not parse JSON from API response.")])
        | Some (JDict body) =>
            match PyDict.get_default body "data" (JDict []) with
            | JDict data =>
                let n := JInt (Z.of_nat n_files) in
                UpReturn
                  [("success", JBool true);
                   ("batchId", PyDict.get data "batchId");
                   ("status", PyDict.get_default data "status" (JStr "queued"));
                   ("filesUploaded", PyDict.get_default data "filesUploaded" n);
                   ("filesQueued", PyDict.get_default data "filesQueued" n);
                   ("estimatedCompletionMinutes",
                    PyDict.get data "estimatedCompletionMinutes");
                   ("trackingUrl", PyDict.get data "trackingUrl");
                   ("message",
                    PyDict.get_default data "message"
                      (JStr ("Successfully uploaded "
                             ++ decimal (Z.of_nat n_files)
                             ++ " file(s) for processing.")%string))]
            | _ => UpAttributeError
            end
        | Some _ => UpAttributeError
        end
  end.

(** [upload_rent_rolls]: how the call ends, and the request it sent, if
    it sent one. *)
Definition upload_rent_rolls (h : Host) (u : UploadHost)
    (file_paths : list string) (notification_email : string)
    (webhook_url api_key_override : option string)
  : UploadEnd * option UploadRequest :=
  match _get_api_key h api_key_override with
  | inl err => (UpReturn err, None)
  | inr key =>
      let base_url := _get_base_url (up_env_api_url u) in
      match file_paths with
      | [] =>
          (UpReturn (failure "No files provided"
                       [("details", JStr "Provide at least one file path to upload.")]),
           None)
      | _ =>
          if (MAX_FILES_PER_BATCH <? List.length file_paths)%nat then
            (UpReturn (failure ("Too many files ("
                                ++ decimal (Z.of_nat (List.length file_paths))
                                ++ ")")%string
                         [("details",
                           JStr ("Maximum "
                                 ++ decimal (Z.of_nat MAX_FILES_PER_BATCH)
                                 ++ " files per batch.")%string)]),
             None)
          else
            match validate_files u file_paths with
            | Some err => (UpReturn err, None)
            | None =>
                let notifications :=
                  ("email", notification_email)
                  :: match webhook_url with
                     | Some url => if PyStr.truthy url then [("webhook", url)] else []
                     | None => []
                     end in
                if negb (forallb (fun fp => up_open_ok u (Path fp)) file_paths)
                then (UpOSError, None)
                else
                  let req :=
                    mkUploadRequest (base_url ++ "/api/external/v1/upload")%string
                                    (bearer key) (map file_part file_paths)
                                    notifications in
                  (upload_result base_url (List.length file_paths) (up_post u req),
                   Some req)
            end
      end
  end.

(** A sample upload host: every path is a small file that can be opened,
    and the endpoint answers 202 with a batch identifier. *)
Definition sample_upload_host : UploadHost :=
  mkUploadHost (fun _ => true) (fun _ => true) (fun _ => 1024%N) (fun _ => true)
               (fun _ => "0.0") (Some "https://connect.rediq.io/")
               (fun _ => UpResponse 202 ""
                           (Some (JDict [("data", JDict [("batchId", JStr "b-1")])]))).

(** ** [_read_csv_previews] *)

(** The file system as the preview builder sees it: [stat] ([None] for
    [OSError]); the file as [csv.DictReader] reads it ([None] when opening
    it or reading the header raises; else [reader.fieldnames or []] and
    the rows in order, [None] for a row whose reading raises); and
    [read_text] ([None] when it raises). *)
Record CsvHost : Type := mkCsvHost {
  csv_stat : LocalPath -> option N;
  csv_reader : LocalPath -> option (list string * list (option Dict));
  csv_read_text : LocalPath -> option string
}.

(** The loop over [enumerate(reader)]: row [i] is read first, and then
    compared with [preview_row_count]. *)
Fixpoint take_rows (preview_row_count i : Z) (rows : list (option Dict))
  : option (list Dict) :=
  match rows with
  | [] => Some []
  | None :: _ => None
  | Some row :: rest =>
      if (preview_row_count <=? i)%Z then Some []
      else match take_rows preview_row_count (i + 1) rest with
           | Some rs => Some (row :: rs)
           | None => None
           end
  end.

Definition preview_entry (c : CsvHost) (fp : LocalPath) (size : N)
    (preview_row_count max_inline_bytes : Z) : Dict :=
  [("entry_name", JStr (path_name fp));
   ("local_path", JStr (path_str fp));
   ("size_bytes", JInt (Z.of_N size))]
  ++ match csv_reader c fp with
     | Some (header, rows) =>
         match take_rows preview_row_count 0 rows with
         | Some rs => [("header", JList (map JStr header));
                       ("preview_rows", JList (map JDict rs))]
         | None => [("header", JList []); ("preview_rows", JList [])]
         end
     | None => [("header", JList []); ("preview_rows", JList [])]
     end
  ++ (if (Z.of_N size <=? max_inline_bytes)%Z then
        match csv_read_text c fp with
        | Some text => [("inline_csv", JStr text)]
        | None => []
        end
      else []).

Definition preview_of (c : CsvHost) (preview_row_count max_inline_bytes : Z)
    (fpath : string) : list Dict :=
  if negb (String.eqb (PyStr.lower (path_suffix (Path fpath))) ".csv") then []
  else if negb (PyStr.contains "processed-csv" (PyStr.replace_char "\" "/" fpath))
  then []
  else match csv_stat c (Path fpath) with
       | None => []
       | Some size =>
           [preview_entry c (Path fpath) size preview_row_count max_inline_bytes]
       end.

Definition _read_csv_previews (c : CsvHost) (extracted_files : list string)
    (preview_row_count max_inline_bytes : Z) : list Dict :=
  flat_map (preview_of c preview_row_count max_inline_bytes) extracted_files.

(** A sample: one small CSV file of three rows under [processed-csv]. *)
Definition sample_csv_host : CsvHost :=
  mkCsvHost (fun _ => Some 40%N)
            (fun _ => Some (["unit"; "rent"],
                            [Some [("unit", JStr "1A"); ("rent", JStr "900")];
                             Some [("unit", JStr "1B"); ("rent", JStr "950")];
                             Some [("unit", JStr "2A"); ("rent", JStr "990")]]))
            (fun _ => Some "unit,rent").

(** ** The document's wording of the name check *)

(** The four rejections the design document lists for a member name, on
    the name with forward slashes: empty, leading separator, colon in the
    first segment, a [".."] segment.  To be compared with
    [_safe_zip_member_name]. *)
Definition spec_unsafe_name (n : string) : bool :=
  String.eqb n ""
  || PyStr.startswith n "/"
  || PyStr.has_char ":" (hd "" (PyStr.split "/" n))
  || existsb (String.eqb "..") (PyStr.split "/" n).

(** ** A sample host and archive for concrete runs *)

(** A host without symbolic links on which every directory can be made and
    every copy succeeds. *)
Definition plain_resolve (p : LocalPath) : LocalPath := p.
Definition always_mkdir (_ : LocalPath) : bool := true.
Definition always_copy (_ : nat) (_ : LocalPath) : bool := true.

(** A directory entry, a member that climbs out, a member written with a
    leading ["./"], a plain member, and a member outside the subtree. *)
Definition sample_archive : list ZipInfo :=
  [mkZipInfo "processed-csv/" 0 0 true;
   mkZipInfo "processed-csv/../x.csv" 12 12 false;
   mkZipInfo "./processed-csv/n/b.csv" 34 30 false;
   mkZipInfo "processed-csv/a.csv" 56 40 false;
   mkZipInfo "notes/readme.txt" 7 7 false].

Definition sample_patterns : list string := ["processed-csv/**"].

(** Sample payloads: a canonical pointer next to a legacy list, and legacy
    lists of the shapes the second tier tells apart. *)
Definition legacy_zip_record : JVal :=
  JDict [("type", JStr "ZIP");
         ("downloadUrl", JStr "https://files.example/legacy.zip");
         ("expiresAt", JStr "2030-01-01T00:00:00Z")].

Definition canonical_payload : Dict :=
  [("status", JStr "complete");
   ("outputs", JDict [("download_url", JStr "https://files.example/batch.zip")]);
   ("batchDownloads", JList [legacy_zip_record])].

Definition blank_canonical_payload : Dict :=
  [("outputs", JDict [("download_url", JStr " ")]);
   ("batchDownloads", JList [legacy_zip_record])].

Definition legacy_payload : Dict :=
  [("status", JStr "complete");
   ("batchDownloads",
    JList [JDict [("type", JStr "csv");
                  ("downloadUrl", JStr "https://files.example/a.csv")];
           legacy_zip_record])].

(** A sample host: no symbolic links, no key in the environment, a status
    endpoint that keeps giving the same status, a clock that advances by
    ten ticks per reading, and an archive storage that answers a request
    without credentials with 401 and one with credentials with 403. *)
Definition sample_status_body (status : string) : Dict :=
  [("batchId", JStr "b-1"); ("status", JStr status);
   ("batchDownloads", JList [legacy_zip_record])].

Definition host_with_status (status : string) : Host :=
  mkHost plain_class scalar_repr plain_resolve always_mkdir always_copy
         (Ok "/tmp/radix-rent-roll-x") "OSError" "Linux"
         (fun _ _ _ => JList []) (fun _ _ _ => Ok "/tmp/dl/file.zip")
         (fun _ => true) (fun text => substring 0 1000 text)
         None "https://connect.rediq.io" ""
         (fun _ => [("success", JBool true); ("batchId", JStr "b-1")])
         (fun _ => StResponse 200 "" (Some (JDict (sample_status_body status))))
         (fun n => (10 * Z.of_nat n)%Z)
         (fun _ req => if has_authorization req
                       then Response 403 "denied" None
                       else Response 401 "expired" None).

Definition sample_host : Host := host_with_status "processing".

(** A host with another status endpoint and another archive storage. *)
Definition with_remote (h : Host) (status_http : nat -> StatusHttp)
    (transport : nat -> Request -> Reply) : Host :=
  mkHost (h_class_matches h) (h_py_repr h) (h_resolve h) (h_mkdir_ok h)
         (h_copy_ok h) (h_mkdtemp h) (h_os_error_text h) (h_host_os h)
         (h_read_csv_previews h) (h_save_download h) (h_mkstemp_ok h)
         (h_body_head h) (h_env_api_key h) (h_base_url h) (h_env_email h)
         (h_upload_rent_rolls h) status_http (h_clock h) transport.

(** The sample host with a storage that answers every request with
    status 200 and the sample archive. *)
Definition archive_host : Host :=
  with_remote (host_with_status "Complete")
    (h_status_http (host_with_status "Complete"))
    (fun _ _ => Response 200 "" (Some sample_archive)).

(** Hosts for the pointer refresh.  The status endpoint gives the sample
    status, with its legacy ZIP record, to the first query; the storage
    answers 403 to a request for that record's URL. *)
Definition legacy_zip_url : string := "https://files.example/legacy.zip".

Definition fresh_zip_url : string := "https://files.example/fresh.zip".

Definition first_then (later : StatusHttp) (n : nat) : StatusHttp :=
  match n with
  | O => StResponse 200 "" (Some (JDict (sample_status_body "Complete")))
  | _ => later
  end.

Definition refusing_storage (_ : nat) (_ : Request) : Reply :=
  Response 403 "denied" None.

(** A later status query gives a canonical pointer to a fresh URL, which
    the storage serves. *)
Definition refreshed_body : Dict :=
  [("batchId", JStr "b-1"); ("status", JStr "Complete");
   ("outputs", JDict [("download_url", JStr fresh_zip_url)])].

Definition refreshing_host : Host :=
  with_remote (host_with_status "Complete")
    (first_then (StResponse 200 "" (Some (JDict refreshed_body))))
    (fun _ req => if String.eqb (req_url req) fresh_zip_url
                  then Response 200 "" (Some sample_archive)
                  else Response 403 "denied" None).

(** A later status query gives a status without any pointer. *)
Definition pointerless_body : Dict :=
  [("batchId", JStr "b-1"); ("status", JStr "Complete")].

Definition stale_pointer_host : Host :=
  with_remote (host_with_status "Complete")
    (first_then (StResponse 200 "" (Some (JDict pointerless_body))))
    refusing_storage.

(** A later status query times out. *)
Definition failed_requery_host : Host :=
  with_remote (host_with_status "Complete") (first_then StTimeout)
    refusing_storage.

Definition sample_args (mode : ResultMode) : WorkflowArgs :=
  mkWorkflowArgs "ops@example.com" 7 25 mode None StrategyTemp
                 ["processed-csv/**"] true 200 250000 (Some "secret").

Definition presigned_url : string :=
  "https://bucket.s3.amazonaws.com/batch.zip?X-Amz-Signature=abc".

Definition proxied_url : string := "https://connect.rediq.io/files/batch.zip".

(** ** Vocabulary of the properties *)

Section ExtractVocabulary.

Variable cm : string -> ascii -> bool.
Variable patterns : list string.
Variable root_resolved : LocalPath.

(** The member gets through the name check, the directory test and the
    pattern filter. *)
Definition passes (info : ZipInfo) : Prop :=
  exists s, _safe_zip_member_name (raw_name info) = Some s
            /\ is_dir info = false
            /\ _match_zip_patterns cm s patterns = Ok true.

Definition within_root (p : LocalPath) : Prop :=
  p = root_resolved \/ In root_resolved (parents p).

Record Grows (i : nat) (info : ZipInfo) (st st' : ExtractState) : Prop := {
  g_ops : forall j op, In (j, op) (fs_ops st') ->
                       In (j, op) (fs_ops st) \/ (j = i /\ passes info);
  g_warn : forall w, In w (warnings st') ->
                     In w (warnings st)
                     \/ (w_entry w = raw_name info
                         /\ (_safe_zip_member_name (raw_name info) = None
                             \/ passes info));
  g_files : forall p, In p (extracted_files st') ->
                      In p (extracted_files st) \/ within_root p;
  g_warn_kept : incl (warnings st) (warnings st');
  g_ops_kept : incl (fs_ops st) (fs_ops st');
  g_unsafe : _safe_zip_member_name (raw_name info) = None ->
             In (zip_slip_warning (raw_name info) "unsafe_member_name")
                (warnings st')
}.

Record LoopGrows (i : nat) (infos : list ZipInfo) (st st' : ExtractState)
  : Prop := {
  l_ops : forall j op, In (j, op) (fs_ops st') ->
                       In (j, op) (fs_ops st)
                       \/ (i <= j
                           /\ exists info, nth_error infos (j - i) = Some info
                                           /\ passes info);
  l_warn : forall w, In w (warnings st') ->
                     In w (warnings st)
                     \/ exists info,
                         In info infos
                         /\ w_entry w = raw_name info
                         /\ (_safe_zip_member_name (raw_name info) = None
                             \/ passes info);
  l_files : forall p, In p (extracted_files st') ->
                      In p (extracted_files st) \/ within_root p;
  l_warn_kept : incl (warnings st) (warnings st');
  l_ops_kept : incl (fs_ops st) (fs_ops st')
}.

End ExtractVocabulary.

Definition pointer_of (e : Dict) : Pointer :=
  mkPointer (nonblank_str (PyDict.get e "downloadUrl"))
            (nonblank_str (PyDict.get e "expiresAt")).

(** Every run of [c] adds to the trace a list of events that satisfies [Q]. *)
Definition produces {A : Type} (Q : list Event -> Prop) (c : M A) : Prop :=
  forall w, exists evs, trace (snd (c w)) = trace w ++ evs /\ Q evs.

(** The common case: every new event satisfies [P]. *)
Definition emits {A : Type} (P : Event -> Prop) (c : M A) : Prop :=
  produces (Forall P) c.

(** ** The workflow: fetches and refresh *)

Definition is_fetch (ev : Event) : bool :=
  match ev with EvFetch _ => true | _ => false end.

Definition is_status_call (ev : Event) : bool :=
  match ev with EvStatusCall => true | _ => false end.

Definition is_resolve (ev : Event) : bool :=
  match ev with EvResolve => true | _ => false end.

Definition count (f : Event -> bool) (evs : list Event) : nat :=
  List.length (filter f evs).

(** The events of one ZIP operation: one call of the fetcher, no status
    query, no pointer resolution; the fetcher's call comes first. *)
Definition one_fetch (url : string) (evs : list Event) : Prop :=
  hd_error evs = Some (EvFetch url)
  /\ count is_fetch evs = 1
  /\ count is_status_call evs = 0
  /\ count is_resolve evs = 0.

(** The events of one status query: no fetch, one call, and the resolver
    run at most once (on the payload, when there is one). *)
Definition one_status (evs : list Event) : Prop :=
  count is_fetch evs = 0
  /\ count is_status_call evs = 1
  /\ count is_resolve evs <= 1.

(** The first ZIP operation failed with HTTP status 403. *)
Definition refresh_needed (first : Outcome Dict) : bool :=
  match first with
  | Done zip_result =>
      negb (truthy (PyDict.get zip_result "success"))
      && is_int (PyDict.get zip_result "http_status") 403
  | _ => false
  end.

(** Every run of [c] calls the fetcher at most [n] times. *)
Definition fetches_at_most {A : Type} (n : nat) (c : M A) : Prop :=
  produces (fun evs => count is_fetch evs <= n) c.

Section ServerVocabulary.

Variable h : Host.

(** A key is configured: [_get_api_key_optional] gives a non-empty string. *)
Definition key_available (api_key_override : option string) : bool :=
  match _get_api_key_optional h api_key_override with
  | Some k => PyStr.truthy k
  | None => false
  end.

(** The first request of [download_one] for a URL. *)
Definition first_request (key url : string) : Request :=
  mkRequest url (if _is_presigned_s3_url url then [] else bearer key).

(** What the requests of the file-download tool have in common: the URL
    is one of the list, and a URL that is not detected as pre-signed gets
    the bearer header. *)
Definition tool_request_ok (urls : list string) (ev : Event) : Prop :=
  match ev with
  | EvGet req =>
      In (req_url req) urls
      /\ (_is_presigned_s3_url (req_url req) = false ->
          has_authorization req = true)
  | _ => False
  end.

(** The reply the fetcher gets, when it gets as far as asking. *)
Definition fetch_reply (url : string) (o td : option string) (w : World)
  : option Reply :=
  if negb (PyStr.truthy url) then None
  else if match td with
          | Some d => PyStr.truthy d && negb (h_mkdir_ok h (Path d))
          | None => false
          end
  then None
  else if negb (h_mkstemp_ok h (target_dir td)) then None
  else Some (h_transport h (n_get w) (mkRequest url (zip_fetch_headers h url o))).

(** The temporary directory each ZIP operation hands to the fetcher. *)
Definition op_temp_dir (mode : ResultMode) (dir : option string) : option string :=
  match mode with
  | ModeManifest => None
  | _ => match dir with
         | Some d => if PyStr.truthy d then Some d else None
         | None => None
         end
  end.

Definition answered_403 (r : option Reply) : bool :=
  match r with
  | Some (Response code _ _) => (code =? 403)%Z
  | _ => false
  end.

(** The status query gets a payload: a key is configured and the endpoint
    answers 200 or 201 with a JSON object. *)
Definition payload_available (o : option string) (w : World) : bool :=
  match _get_api_key h o with
  | inl _ => false
  | inr _ =>
      match h_status_http h (n_status w) with
      | StResponse code _ (Some (JDict _)) =>
          negb (code =? 404)%Z && ((code =? 200)%Z || (code =? 201)%Z)
      | _ => false
      end
  end.

(** The exception a status query ends with on this reply, if any: the
    client refuses the URL, or the endpoint answers 200 or 201 with JSON
    that is not an object. *)
Definition reply_raises (reply : StatusHttp) : option Exn :=
  match reply with
  | StInvalidURL => Some InvalidURL
  | StResponse code _ (Some body) =>
      if negb (code =? 404)%Z && ((code =? 200)%Z || (code =? 201)%Z) then
        match body with
        | JDict _ => None
        | _ => Some AttributeError
        end
      else None
  | _ => None
  end.

Definition status_raises (o : option string) (w : World) : option Exn :=
  match _get_api_key h o with
  | inl _ => None
  | inr _ => reply_raises (h_status_http h (n_status w))
  end.

(** The events of one call of [check_batch_status]: the resolver runs
    exactly when there is a payload. *)
Definition status_events (o : option string) (w : World) : list Event :=
  EvStatusCall :: if payload_available o w then [EvResolve] else [].

Definition nonterminal (status : Dict) : Prop :=
  _is_terminal_status (h_py_repr h)
    (PyDict.get_default status "status" (JStr "")) = false.

End ServerVocabulary.

(** ** Vocabulary of the further properties *)

(** A string of white space only. *)
Fixpoint blank (s : string) : bool :=
  match s with
  | EmptyString => true
  | String c s' => PyStr.isspace c && blank s'
  end.

(** A string that does not start with white space. *)
Definition no_lead (s : string) : Prop :=
  match s with
  | EmptyString => True
  | String c _ => PyStr.isspace c = false
  end.

(** The member's name does not pass the name check. *)
Definition is_unsafe (info : ZipInfo) : bool :=
  match _safe_zip_member_name (raw_name info) with
  | None => true
  | Some _ => false
  end.

(** The entry's name matches the pattern list. *)
Definition matched_by (cm : string -> ascii -> bool) (patterns : list string)
    (e : Entry) : bool :=
  match _match_zip_patterns cm (e_name e) patterns with
  | Ok true => true
  | _ => false
  end.

(** Two runs of the extraction loop added the same warnings and files to
    their states and ended the same way. *)
Definition same_additions (st1 st2 : ExtractState)
    (r1 r2 : ExtractState * option Exn) : Prop :=
  snd r1 = snd r2
  /\ exists ws fs,
      warnings (fst r1) = warnings st1 ++ ws
      /\ warnings (fst r2) = warnings st2 ++ ws
      /\ extracted_files (fst r1) = extracted_files st1 ++ fs
      /\ extracted_files (fst r2) = extracted_files st2 ++ fs.

(** What a write of member [i] to [dest] comes with: the member passed
    the three filters, [dest] is its destination, and [dest] resolves
    inside the root. *)
Definition write_ok (cm : string -> ascii -> bool)
    (resolve : LocalPath -> LocalPath) (patterns : list string)
    (root root_resolved : LocalPath) (infos : list ZipInfo) (i : nat)
    (dest : LocalPath) : Prop :=
  within_root root_resolved (resolve dest)
  /\ exists info s,
      nth_error infos i = Some info
      /\ _safe_zip_member_name (raw_name info) = Some s
      /\ is_dir info = false
      /\ _match_zip_patterns cm s patterns = Ok true
      /\ dest = joinpath root (PurePosixPath.parts s).

(** The record [check_batch_status] keeps of a [batchDownloads] entry. *)
Definition summary_of (d : Dict) : Dict :=
  [("type", PyDict.get d "type");
   ("downloadUrl", PyDict.get d "downloadUrl");
   ("expiresAt", PyDict.get d "expiresAt")].

Definition is_sleep (ev : Event) : bool :=
  match ev with EvSleep => true | _ => false end.

(** An event that is neither a call of the ZIP fetcher nor a request on
    the download channel. *)
Definition no_download (ev : Event) : Prop :=
  match ev with
  | EvFetch _ | EvGet _ => False
  | _ => True
  end.

Section WorkflowVocabulary.

Variable h : Host.

(** The URL and the expiry the workflow goes on with after polling. *)
Definition workflow_zip_url (last_status : Dict) : JVal :=
  if truthy (PyDict.get last_status "zip_download_url")
  then PyDict.get last_status "zip_download_url"
  else of_opt_str (zip_download_url
                     (_extract_zip_pointer (h_py_repr h) last_status)).

Definition workflow_zip_expiry (last_status : Dict) : JVal :=
  if truthy (PyDict.get last_status "zip_download_url")
  then PyDict.get last_status "zip_presigned_expires_at"
  else py_or (of_opt_str (zip_presigned_expires_at
                            (_extract_zip_pointer (h_py_repr h) last_status)))
             (PyDict.get last_status "zip_presigned_expires_at").

(** The test after the loop: the deadline has passed and the last status
    is not terminal. *)
Definition timed_out (deadline : Z) (last_status : Dict) (w : World) : bool :=
  (deadline <=? h_clock h (n_clock w))%Z
  && negb (_is_terminal_status (h_py_repr h)
             (PyDict.get_default last_status "status" (JStr ""))).

End WorkflowVocabulary.

Section StageVocabulary.

Variable h : Host.
Variable a : WorkflowArgs.

(** The world in which the ZIP stage of the workflow starts, [w] being
    the world the polling loop was left in: the pointer fallback has run
    when the last status carried no URL, and the clock has been read for
    the time-out test. *)
Definition stage_start (last_status : Dict) (w : World) : World :=
  snd (monotonic h
         (if truthy (PyDict.get last_status "zip_download_url") then w
          else snd (emit EvResolve w))).

(** The first ZIP operation of the stage. *)
Definition first_zip_op (last_status : Dict) (dir : string) (w : World)
  : Outcome Dict * World :=
  _zip_op_with_one_refresh h a (result_mode a) (workflow_zip_url h last_status)
    (Some dir) (stage_start last_status w).

End StageVocabulary.

(** What the steps after the first result dictionary of the workflow
    leave alone. *)
Record Kept (batch_id expiry : JVal) (r : Dict) : Prop := {
  k_success : PyDict.get r "success" = JBool true;
  k_error : PyDict.get r "error" = JNull;
  k_url : PyDict.get r "zipDownloadUrl" = PyDict.get r "zip_download_url";
  k_batch : PyDict.get r "batch_id" = batch_id /\ PyDict.get r "batchId" = batch_id;
  k_expiry : PyDict.get r "zip_presigned_expires_at" = expiry
             /\ PyDict.get r "zipPresignedExpiresAt" = expiry
}.

(** The keys those steps set. *)
Definition settable (k : string) : Prop :=
  In k ["summary"; "zip_manifest"; "warnings"; "extracted_files";
        "extracted_count"; "processed_csv"; "details"].

(** What every file of an upload request has passed. *)
Definition file_accepted (u : UploadHost) (fp : string) : Prop :=
  up_exists u (Path fp) = true
  /\ up_is_file u (Path fp) = true
  /\ In (PyStr.lower (path_suffix (Path fp))) SUPPORTED_EXTENSIONS
  /\ (up_size u (Path fp) <= MAX_FILE_SIZE_BYTES)%N.


(** Nothing leaves the file-download tool: the client accepts every
    URL, and the saving of a file, when it fails, fails with an
    [OSError]. *)
Definition tool_catches_all (h : Host) : Prop :=
  (forall n req, h_transport h n req <> ClientInvalidURL)
  /\ (forall i url resp e, h_save_download h i url resp = Raise e -> e = OSError).

(** The two tests a path has to pass to get a preview. *)
Definition is_processed_csv (fpath : string) : bool :=
  String.eqb (PyStr.lower (path_suffix (Path fpath))) ".csv"
  && PyStr.contains "processed-csv" (PyStr.replace_char "\" "/" fpath).

(** None of the characters [fnmatch] gives a meaning to. *)
Fixpoint literal (s : string) : bool :=
  match s with
  | EmptyString => true
  | String c s' =>
      negb (Ascii.eqb c "*") && negb (Ascii.eqb c "?") && negb (Ascii.eqb c "[")
      && literal s'
  end.

(** * Properties *)

(** ** Strings *)

Lemma length_app (s t : string) :
  String.length (s ++ t) = String.length s + String.length t.
Proof. induction s as [|c s IH]; simpl; [reflexivity | now rewrite IH]. Qed.

Lemma prefix_app (s t : string) : String.prefix s (s ++ t) = true.
Proof.
  induction s as [|c s IH]; simpl.
  - now destruct t.
  - destruct (ascii_dec c c) as [_|n]; [exact IH | now elim n].
Qed.

Lemma substring_all (s : string) : substring 0 (String.length s) s = s.
Proof. induction s as [|c s IH]; simpl; [reflexivity | now rewrite IH]. Qed.

Lemma substring_app_l (s t : string) : substring 0 (String.length s) (s ++ t) = s.
Proof.
  induction s as [|c s IH]; simpl.
  - now destruct t.
  - now rewrite IH.
Qed.

Lemma substring_app_r (s t : string) :
  substring (String.length s) (String.length t) (s ++ t) = t.
Proof. induction s as [|c s IH]; simpl; [apply substring_all | exact IH]. Qed.

Lemma endswith_app (s t : string) : PyStr.endswith (s ++ t) t = true.
Proof.
  unfold PyStr.endswith. rewrite length_app.
  replace (String.length s + String.length t - String.length t)
    with (String.length s) by lia.
  rewrite substring_app_r, String.eqb_refl, andb_true_r.
  apply Nat.leb_le. lia.
Qed.

Lemma drop_last_app (s t : string) :
  PyStr.drop_last (String.length t) (s ++ t) = s.
Proof.
  unfold PyStr.drop_last. rewrite length_app.
  replace (String.length s + String.length t - String.length t)
    with (String.length s) by lia.
  apply substring_app_l.
Qed.

Lemma app_assoc_str (s t u : string) : ((s ++ t) ++ u = s ++ (t ++ u))%string.
Proof. induction s as [|c s IH]; simpl; [reflexivity | now rewrite IH]. Qed.

Lemma truthy_false_iff (s : string) : PyStr.truthy s = false <-> s = "".
Proof. destruct s; simpl; split; congruence. Qed.

(** ** The pattern matcher *)

Section MatcherFacts.

Variable cm : string -> ascii -> bool.

Lemma match_zip_patterns_loop (name : string) (ps : list string) :
  _match_zip_patterns cm name ps = match_loop cm (norm_entry name) ps.
Proof. destruct ps; reflexivity. Qed.

(** A single pattern: the empty string never matches, any other pattern
    is one turn of the loop. *)
Lemma match_single (name p : string) :
  _match_zip_patterns cm name [p]
  = if PyStr.truthy p then match_one cm (norm_entry name) p else Ok false.
Proof.
  unfold _match_zip_patterns, match_loop.
  destruct (PyStr.truthy p); simpl; [|reflexivity].
  destruct (match_one cm (norm_entry name) p) as [[|]|]; reflexivity.
Qed.

Lemma match_cons (name p : string) (ps : list string) :
  _match_zip_patterns cm name (p :: ps)
  = match _match_zip_patterns cm name [p] with
    | Ok true => Ok true
    | Ok false => _match_zip_patterns cm name ps
    | Raise e => Raise e
    end.
Proof.
  rewrite match_single, !match_zip_patterns_loop. simpl.
  destruct (PyStr.truthy p); simpl; [|reflexivity].
  destruct (match_one cm (norm_entry name) p) as [[|]|]; reflexivity.
Qed.

(** The list matches exactly when some pattern matches on its own and
    every pattern before it gave an answer. *)
Lemma match_true_iff (name : string) (ps : list string) :
  _match_zip_patterns cm name ps = Ok true <->
  exists before p after,
    ps = before ++ p :: after
    /\ _match_zip_patterns cm name [p] = Ok true
    /\ forall q, In q before -> exists b, _match_zip_patterns cm name [q] = Ok b.
Proof.
  split.
  - induction ps as [|p ps IH]; [discriminate|].
    rewrite match_cons.
    destruct (_match_zip_patterns cm name [p]) as [[|]|] eqn:E; [| |discriminate].
    + intros _. exists [], p, ps. repeat split; [exact E | intros q []].
    + intros H. destruct (IH H) as (before & q & after & -> & Hq & Hb).
      exists (p :: before), q, after. repeat split; [exact Hq|].
      intros r [<-|Hr]; [eauto | auto].
  - intros (before & p & after & -> & Hp & Hb).
    induction before as [|q before IH]; cbn [app].
    + rewrite match_cons, Hp. reflexivity.
    + rewrite match_cons.
      destruct (Hb q (or_introl eq_refl)) as [[|] Hq]; rewrite Hq; [reflexivity|].
      apply IH. intros r Hr. apply Hb. now right.
Qed.

(** When every pattern gives an answer on its own, so does the list. *)
Lemma match_total (name : string) (ps : list string) :
  (forall q, In q ps -> exists b, _match_zip_patterns cm name [q] = Ok b) ->
  exists b, _match_zip_patterns cm name ps = Ok b.
Proof.
  induction ps as [|p ps IH]; intros H; [now exists false|].
  rewrite match_cons.
  destruct (H p (or_introl eq_refl)) as [[|] Hp]; rewrite Hp; [now exists true|].
  apply IH. intros q Hq. apply H. now right.
Qed.

Lemma norm_entry_empty : norm_entry "" = "".
Proof. reflexivity. Qed.

(** A pattern [prefix/**] matches [prefix] and everything under it. *)
Lemma globstar_matches (name p prefix : string) :
  norm_entry p = (prefix ++ "/**")%string ->
  (norm_entry name = prefix
   \/ exists rest, norm_entry name = (prefix ++ "/" ++ rest)%string) ->
  _match_zip_patterns cm name [p] = Ok true.
Proof.
  intros Hp Hname. rewrite match_single.
  destruct (PyStr.truthy p) eqn:Tp.
  - unfold match_one. rewrite Hp.
    destruct (_ || _); [reflexivity|].
    rewrite endswith_app.
    change 3 with (String.length "/**"). rewrite drop_last_app.
    destruct Hname as [-> | [rest ->]].
    + rewrite String.eqb_refl. reflexivity.
    + rewrite <- app_assoc_str. unfold PyStr.startswith.
      rewrite prefix_app, orb_true_r. reflexivity.
  - apply truthy_false_iff in Tp. subst p. rewrite norm_entry_empty in Hp.
    destruct prefix; discriminate.
Qed.

(** Under patterns that all give an answer, the list is the disjunction
    of its patterns. *)
Lemma match_any (name : string) (ps : list string) :
  (forall q, In q ps -> exists b, _match_zip_patterns cm name [q] = Ok b) ->
  exists b,
    _match_zip_patterns cm name ps = Ok b
    /\ (b = true <->
        exists p, In p ps /\ _match_zip_patterns cm name [p] = Ok true).
Proof.
  intros H. destruct (match_total name ps H) as [b Hb]. exists b.
  split; [exact Hb|]. split.
  - intros ->. apply match_true_iff in Hb.
    destruct Hb as (before & p & after & -> & Hp & _).
    exists p. split; [|exact Hp]. apply in_or_app. right. now left.
  - intros (p & Hin & Hp). apply in_split in Hin.
    destruct Hin as (before & after & ->).
    assert (T : _match_zip_patterns cm name (before ++ p :: after) = Ok true).
    { apply match_true_iff. exists before, p, after.
      repeat split; [exact Hp|].
      intros q Hq. apply H. apply in_or_app. now left. }
    congruence.
Qed.

(** The empty string, and any pattern that keeps a path segment once
    normalised, gives an answer. *)
Lemma pattern_answers (name q : string) :
  q = "" \/ PurePosixPath.parts (norm_entry q) <> [] ->
  exists b, _match_zip_patterns cm name [q] = Ok b.
Proof.
  intros H. rewrite match_single.
  destruct (PyStr.truthy q) eqn:T; [|now exists false].
  destruct H as [->|H]; [discriminate|].
  unfold match_one.
  destruct (_ || _); [now exists true|].
  destruct (_ && _); [now exists true|].
  unfold PurePosixPath.pmatch.
  destruct (PurePosixPath.parts (norm_entry q)) as [|x xs]; [contradiction|].
  repeat match goal with
         | |- context [if ?c then _ else _] => destruct c
         end; eauto.
Qed.

End MatcherFacts.

(** C4 does not hold of the code on every pattern list: with the
    patterns ["/"] and ["**"], in that order, the entry ["a"] matches the
    second pattern on its own, yet the matcher does not answer for the
    list: the first pattern is empty once normalised, the test that skips
    an empty pattern comes before the normalisation, and
    [PurePosixPath.match] raises on it. *)
Lemma any_pattern_counterexample :
  ~ (forall name ps,
        _match_zip_patterns plain_class name ps = Ok true <->
        exists p, In p ps /\ _match_zip_patterns plain_class name [p] = Ok true).
Proof.
  intros H.
  assert (E : _match_zip_patterns plain_class "a" ["/"; "**"] = Ok true).
  { apply H. exists "**". split; [simpl; auto | reflexivity]. }
  vm_compute in E. discriminate E.
Qed.

(** C4, on the lists the matcher answers for: a pattern that ends in
    ["/**"] once normalised matches the literal prefix and every path
    nested beneath it at any depth; for a list in which every pattern
    gives an answer on its own (the empty string does, and so does every
    pattern that keeps a path segment once normalised), the matcher
    answers, and an entry matches the list exactly when it matches at
    least one pattern of it; and ["processed-csv/**"]
    matches ["processed-csv/a.csv"] and ["processed-csv/nested/b.csv"] but
    neither ["other/processed-csv-like/c.csv"] nor ["processed-csv.txt"]. *)
Theorem globstar_prefix_and_any_pattern (cm : string -> ascii -> bool) :
  (forall name p prefix,
      norm_entry p = (prefix ++ "/**")%string ->
      (norm_entry name = prefix
       \/ exists rest, norm_entry name = (prefix ++ "/" ++ rest)%string) ->
      _match_zip_patterns cm name [p] = Ok true)
  /\ (forall name ps,
         (forall q, In q ps -> exists b, _match_zip_patterns cm name [q] = Ok b) ->
         exists b,
           _match_zip_patterns cm name ps = Ok b
           /\ (b = true <->
               exists p, In p ps /\ _match_zip_patterns cm name [p] = Ok true))
  /\ (forall name q,
         q = "" \/ PurePosixPath.parts (norm_entry q) <> [] ->
         exists b, _match_zip_patterns cm name [q] = Ok b)
  /\ _match_zip_patterns cm "processed-csv/a.csv" ["processed-csv/**"] = Ok true
  /\ _match_zip_patterns cm "processed-csv/nested/b.csv" ["processed-csv/**"] = Ok true
  /\ _match_zip_patterns cm "other/processed-csv-like/c.csv" ["processed-csv/**"] = Ok false
  /\ _match_zip_patterns cm "processed-csv.txt" ["processed-csv/**"] = Ok false.
Proof.
  split; [exact (globstar_matches cm)|].
  split; [exact (match_any cm)|].
  split; [exact (pattern_answers cm)|].
  repeat split; reflexivity.
Qed.

(** C4, witness: the directory itself, written with back-slashes and a
    leading separator, under the pattern ["processed-csv/**"]. *)
Lemma globstar_prefix_and_any_pattern_witness :
  _match_zip_patterns plain_class "\processed-csv" ["processed-csv/**"] = Ok true.
Proof.
  apply (proj1 (globstar_prefix_and_any_pattern plain_class)
           "\processed-csv" "processed-csv/**" "processed-csv").
  - reflexivity.
  - left. reflexivity.
Defined.



(** ** The name check *)

Lemma replace_char_idem (a b : ascii) (s : string) :
  a <> b ->
  PyStr.replace_char a b (PyStr.replace_char a b s) = PyStr.replace_char a b s.
Proof.
  intros Hab. induction s as [|c s IH]; simpl; [reflexivity|].
  rewrite IH. f_equal.
  destruct (Ascii.eqb c a) eqn:E; [|now rewrite E].
  destruct (Ascii.eqb b a) eqn:E'; [|reflexivity].
  apply Ascii.eqb_eq in E'. congruence.
Qed.

Lemma raw_name_normal (info : ZipInfo) :
  PyStr.replace_char "\" "/" (raw_name info) = raw_name info.
Proof. unfold raw_name. apply replace_char_idem. discriminate. Qed.

Lemma startswith_char (c a : ascii) (s : string) :
  PyStr.startswith (String c s) (String a "") = Ascii.eqb c a.
Proof.
  unfold PyStr.startswith. cbn [String.prefix].
  destruct (ascii_dec a c) as [->|N].
  - rewrite Ascii.eqb_refl. now destruct s.
  - symmetry. apply Ascii.eqb_neq. congruence.
Qed.

Lemma replaced_no_backslash (s : string) :
  PyStr.startswith (PyStr.replace_char "\" "/" s) "\" = false.
Proof.
  destruct s as [|c s]; [reflexivity|].
  cbn [PyStr.replace_char]. rewrite startswith_char.
  destruct (Ascii.eqb c "\") eqn:E; [reflexivity | exact E].
Qed.

Lemma relative_root (n : string) :
  PyStr.startswith n "/" = false -> PurePosixPath.root n = "".
Proof.
  intros H. unfold PurePosixPath.root. rewrite H.
  destruct n as [|c n]; [reflexivity|].
  rewrite startswith_char in H.
  unfold PyStr.startswith. cbn [String.prefix].
  destruct (ascii_dec "/" c) as [<-|_]; [discriminate H | reflexivity].
Qed.

Lemma existsb_filter {A : Type} (f keep : A -> bool) (l : list A) :
  (forall x, f x = true -> keep x = true) ->
  existsb f (filter keep l) = existsb f l.
Proof.
  intros H. induction l as [|x l IH]; simpl; [reflexivity|].
  destruct (keep x) eqn:K; simpl; [now rewrite IH|].
  destruct (f x) eqn:F; [|exact IH].
  rewrite (H x F) in K. discriminate.
Qed.

Lemma dotdot_in_parts (n : string) :
  PyStr.startswith n "/" = false ->
  existsb (String.eqb "..") (PurePosixPath.parts n)
  = existsb (String.eqb "..") (PyStr.split "/" n).
Proof.
  intros H. unfold PurePosixPath.parts. rewrite (relative_root n H).
  unfold PurePosixPath.tail. apply existsb_filter.
  intros x Hx. apply String.eqb_eq in Hx. subst x. reflexivity.
Qed.

(** The check of the code rejects exactly the names the document lists. *)
Lemma safe_name_none_iff (name : string) :
  _safe_zip_member_name name = None
  <-> spec_unsafe_name (PyStr.replace_char "\" "/" name) = true.
Proof.
  unfold _safe_zip_member_name, spec_unsafe_name. cbv zeta.
  set (n := PyStr.replace_char "\" "/" name).
  assert (B : PyStr.startswith n "\" = false) by apply replaced_no_backslash.
  rewrite B, orb_false_r.
  assert (T : negb (PyStr.truthy n) = String.eqb n "").
  { destruct n; reflexivity. }
  rewrite T.
  destruct (String.eqb n ""); cbn [orb]; [tauto|].
  destruct (PyStr.startswith n "/") eqn:S; cbn [orb]; [tauto|].
  destruct (PyStr.has_char ":" (hd "" (PyStr.split "/" n))); cbn [orb]; [tauto|].
  rewrite (dotdot_in_parts n S).
  destruct (existsb (String.eqb "..") (PyStr.split "/" n)); split;
    congruence.
Qed.

Lemma unsafe_member_rejected (info : ZipInfo) :
  spec_unsafe_name (raw_name info) = true ->
  _safe_zip_member_name (raw_name info) = None.
Proof.
  intros H. apply safe_name_none_iff. now rewrite raw_name_normal.
Qed.

(** ** The extraction loop *)

Lemma path_eqb_eq (p q : LocalPath) : path_eqb p q = true <-> p = q.
Proof.
  unfold path_eqb. destruct (list_eq_dec string_dec p q); split; congruence.
Qed.

Section ExtractFacts.

Variable cm : string -> ascii -> bool.
Variable resolve : LocalPath -> LocalPath.
Variable copy_ok : nat -> LocalPath -> bool.
Variable patterns : list string.
Variable root root_resolved : LocalPath.


Lemma guard_passed (p : LocalPath) :
  negb (path_eqb p root_resolved)
  && negb (existsb (path_eqb root_resolved) (parents p)) = false ->
  within_root root_resolved p.
Proof.
  intros H. apply andb_false_iff in H.
  destruct H as [H|H]; apply negb_false_iff in H.
  - left. now apply path_eqb_eq.
  - right. apply existsb_exists in H. destruct H as (q & Hq & E).
    apply path_eqb_eq in E. now subst q.
Qed.


Ltac grows :=
  split; simpl; intros; try (unfold incl; intros);
  rewrite ?in_app_iff in *; simpl in *;
  repeat match goal with
         | H : _ \/ _ |- _ => destruct H
         | H : (_, _) = (_, _) |- _ => inversion H; subst; clear H
         | H : False |- _ => destruct H
         end;
  subst; auto; try congruence.

Lemma member_grows (i : nat) (info : ZipInfo) (st st' : ExtractState)
    (e : option Exn) :
  extract_member cm resolve copy_ok patterns root root_resolved i info st
  = (st', e) ->
  Grows cm patterns root_resolved i info st st'.
Proof.
  unfold extract_member. cbv zeta.
  destruct (_safe_zip_member_name (raw_name info)) as [s|] eqn:Safe.
  2: now intros [= <- <-]; grows.
  destruct (is_dir info) eqn:Dir.
  1: now intros [= <- <-]; grows.
  destruct (_match_zip_patterns cm s patterns) as [[|]|x] eqn:Hit.
  2,3: now intros [= <- <-]; grows.
  assert (P : passes cm patterns info) by (exists s; auto).
  destruct (negb _ && negb _) eqn:G.
  1: now intros [= <- <-]; grows.
  apply guard_passed in G.
  destruct (copy_ok i _); intros [= <- <-]; grows.
Qed.

Lemma member_selected (i : nat) (info : ZipInfo) (st st' : ExtractState)
    (e : option Exn) :
  extract_member cm resolve copy_ok patterns root root_resolved i info st
  = (st', e) ->
  passes cm patterns info ->
  exists dest, In (i, FsResolve dest) (fs_ops st').
Proof.
  intros H (s & Safe & Dir & Hit). revert H.
  unfold extract_member. cbv zeta. rewrite Safe, Dir, Hit.
  destruct (negb _ && negb _); [|destruct (copy_ok i _)];
    intros [= <- <-]; eexists; simpl; rewrite ?in_app_iff; simpl; eauto.
Qed.

Lemma grows_to_loop (i : nat) (info : ZipInfo) (rest : list ZipInfo)
    (st st' : ExtractState) :
  Grows cm patterns root_resolved i info st st' ->
  LoopGrows cm patterns root_resolved i (info :: rest) st st'.
Proof.
  intros [Ho Hw Hf Hwk Hok _]. split; auto.
  - intros j op H. destruct (Ho j op H) as [|[-> P]]; [now left|].
    right. split; [lia|]. exists info. now rewrite Nat.sub_diag.
  - intros w H. destruct (Hw w H) as [|[E P]]; [now left|].
    right. exists info. simpl. auto.
Qed.

Lemma loop_grows (infos : list ZipInfo) :
  forall i st st' e,
    extract_loop cm resolve copy_ok patterns root root_resolved i infos st
    = (st', e) ->
    LoopGrows cm patterns root_resolved i infos st st'.
Proof.
  induction infos as [|info rest IH]; intros i st st' e H.
  - injection H as <- <-. split; auto using incl_refl.
  - cbn [extract_loop] in H.
    destruct (extract_member cm resolve copy_ok patterns root root_resolved
                i info st) as [st1 [x|]] eqn:E;
      apply member_grows in E.
    + injection H as <- <-. now apply grows_to_loop.
    + apply IH in H. destruct E as [Ho Hw Hf Hwk Hok _].
      destruct H as [Lo Lw Lf Lwk Lok]. split.
      * intros j op H. destruct (Lo j op H) as [H1|(Hj & x & Hn & P)].
        -- destruct (Ho j op H1) as [|[-> P]]; [now left|].
           right. split; [lia|]. exists info. now rewrite Nat.sub_diag.
        -- right. split; [lia|]. exists x. split; [|exact P].
           replace (j - i) with (S (j - S i)) by lia. exact Hn.
      * intros w H. destruct (Lw w H) as [H1|(x & Hin & Hx)].
        -- destruct (Hw w H1) as [|[E P]]; [now left|].
           right. exists info. simpl. auto.
        -- right. exists x. simpl. auto.
      * intros p H. destruct (Lf p H) as [H1|]; [|now right]. now apply Hf.
      * eapply incl_tran; eauto.
      * eapply incl_tran; eauto.
Qed.

(** A loop that ends without an exception has dealt with every member:
    the unsafe ones are in the warnings, and a destination was resolved
    for each one that got through the filter. *)
Lemma loop_complete (infos : list ZipInfo) :
  forall i st st',
    extract_loop cm resolve copy_ok patterns root root_resolved i infos st
    = (st', None) ->
    (forall info, In info infos ->
                  _safe_zip_member_name (raw_name info) = None ->
                  In (zip_slip_warning (raw_name info) "unsafe_member_name")
                     (warnings st'))
    /\ (forall k info, nth_error infos k = Some info -> passes cm patterns info ->
                       exists dest, In (i + k, FsResolve dest) (fs_ops st')).
Proof.
  induction infos as [|info rest IH]; intros i st st' H.
  - split; [intros ? [] | intros [|?] ? ?; discriminate].
  - cbn [extract_loop] in H.
    destruct (extract_member cm resolve copy_ok patterns root root_resolved
                i info st) as [st1 [x|]] eqn:E; [discriminate|].
    pose proof (loop_grows _ _ _ _ _ H) as [_ _ _ Lwk Lok].
    destruct (IH _ _ _ H) as [W S]. split.
    + intros x [<-|Hin] U; [|now apply W].
      apply Lwk. apply member_grows in E. now apply (g_unsafe _ _ _ _ _ _ _ E).
    + intros [|k] x Hn P.
      * injection Hn as <-. destruct (member_selected _ _ _ _ _ E P) as [d Hd].
        exists d. apply Lok. now rewrite Nat.add_0_r.
      * destruct (S k x Hn P) as [d Hd]. exists d.
        now replace (i + Datatypes.S k) with (Datatypes.S i + k) by lia.
Qed.

End ExtractFacts.

(** ** Extraction: unsafe names, containment, the order of the filters *)

Section RunFacts.

Variable cm : string -> ascii -> bool.
Variable resolve : LocalPath -> LocalPath.
Variable mkdir_ok : LocalPath -> bool.
Variable copy_ok : nat -> LocalPath -> bool.
Variable infos : list ZipInfo.
Variable patterns : list string.
Variable output_dir : string.


Lemma run_grows :
  LoopGrows cm patterns (resolve (Path output_dir)) 0 infos empty_state
    (fst (extract_run cm resolve mkdir_ok copy_ok infos patterns output_dir)).
Proof.
  unfold extract_run. destruct (mkdir_ok (Path output_dir)).
  - destruct (extract_loop _ _ _ _ _ _ _ _ _) as [st e] eqn:E.
    apply loop_grows in E. exact E.
  - split; simpl; auto using incl_refl.
Qed.

Lemma run_complete :
  snd (extract_run cm resolve mkdir_ok copy_ok infos patterns output_dir) = None ->
  (forall info, In info infos ->
                _safe_zip_member_name (raw_name info) = None ->
                In (zip_slip_warning (raw_name info) "unsafe_member_name")
                   (warnings (fst (extract_run cm resolve mkdir_ok copy_ok infos
                                     patterns output_dir))))
  /\ (forall k info, nth_error infos k = Some info -> passes cm patterns info ->
                     selected (fst (extract_run cm resolve mkdir_ok copy_ok infos
                                      patterns output_dir)) k = true).
Proof.
  unfold extract_run. destruct (mkdir_ok (Path output_dir)); [|discriminate].
  destruct (extract_loop _ _ _ _ _ _ _ _ _) as [st e] eqn:E.
  simpl. intros ->. apply loop_complete in E. destruct E as [W S].
  split; [exact W|]. intros k info Hn P.
  destruct (S k info Hn P) as [d Hd]. unfold selected.
  apply existsb_exists. exists (k, FsResolve d). split; [exact Hd|].
  apply Nat.eqb_refl.
Qed.

(** Operations are logged only for members that got through the filter. *)
Lemma run_ops (i : nat) (op : FsOp) :
  In (i, op)
     (fs_ops (fst (extract_run cm resolve mkdir_ok copy_ok infos patterns
                     output_dir))) ->
  exists info, nth_error infos i = Some info /\ passes cm patterns info.
Proof.
  intros H. destruct (l_ops _ _ _ _ _ _ _ run_grows i op H) as [[]|(_ & x & Hn & P)].
  exists x. now rewrite Nat.sub_0_r in Hn.
Qed.

Lemma selected_passes (i : nat) :
  selected (fst (extract_run cm resolve mkdir_ok copy_ok infos patterns
                   output_dir)) i = true ->
  exists info, nth_error infos i = Some info /\ passes cm patterns info.
Proof.
  unfold selected. intros H. apply existsb_exists in H.
  destruct H as ([j [d|d]] & Hin & E); [|discriminate].
  apply Nat.eqb_eq in E. subst j. exact (run_ops _ _ Hin).
Qed.

End RunFacts.

(** C1: a member whose name, with forward slashes, is empty, starts with a
    separator, has a colon in its first segment or has a [".."] segment has
    no file-system operation done for it in any run, and carries an
    [unsafe_member_name] warning in every result that is returned; and every
    path of the returned [extracted_files] is the resolved output directory
    or has it among its parents. *)
Theorem unsafe_members_skipped_and_files_contained
    (cm : string -> ascii -> bool) (resolve : LocalPath -> LocalPath)
    (mkdir_ok : LocalPath -> bool) (copy_ok : nat -> LocalPath -> bool)
    (infos : list ZipInfo) (patterns : list string) (output_dir : string) :
  (forall i info op,
      nth_error infos i = Some info ->
      spec_unsafe_name (raw_name info) = true ->
      ~ In (i, op)
           (fs_ops (fst (extract_run cm resolve mkdir_ok copy_ok infos patterns
                           output_dir))))
  /\ (forall files ws,
         _extract_zip_members cm resolve mkdir_ok copy_ok infos patterns output_dir
         = Ok (files, ws) ->
         (forall info,
             In info infos -> spec_unsafe_name (raw_name info) = true ->
             In (zip_slip_warning (raw_name info) "unsafe_member_name") ws)
         /\ (forall p,
                In p files ->
                p = resolve (Path output_dir)
                \/ In (resolve (Path output_dir)) (parents p))).
Proof.
  split.
  - intros i info op Hn U Hin.
    destruct (run_ops _ _ _ _ _ _ _ _ _ Hin) as (x & Hx & s & Safe & _).
    rewrite Hn in Hx. injection Hx as <-.
    rewrite (unsafe_member_rejected info U) in Safe. discriminate.
  - intros files ws. unfold _extract_zip_members.
    pose proof (run_grows cm resolve mkdir_ok copy_ok infos patterns output_dir) as G.
    pose proof (run_complete cm resolve mkdir_ok copy_ok infos patterns output_dir) as C.
    destruct (extract_run cm resolve mkdir_ok copy_ok infos patterns output_dir)
      as [st [e|]]; [discriminate|].
    intros [= <- <-]. simpl in G, C. destruct (C eq_refl) as [W _]. split.
    + intros info Hin U. apply W; [exact Hin|]. now apply unsafe_member_rejected.
    + intros p Hp. destruct (l_files _ _ _ _ _ _ _ G p Hp) as [[]|H]. exact H.
Qed.

(** C1, witness: the member that climbs out of the sample archive is in
    the warnings of the sample run. *)
Lemma unsafe_members_skipped_and_files_contained_witness :
  In (zip_slip_warning "processed-csv/../x.csv" "unsafe_member_name")
     (warnings (fst (extract_run plain_class plain_resolve always_mkdir
                       always_copy sample_archive sample_patterns "/tmp/out"))).
Proof.
  refine (proj1 (proj2 (unsafe_members_skipped_and_files_contained
                          plain_class plain_resolve always_mkdir always_copy
                          sample_archive sample_patterns "/tmp/out")
                   _ _ eq_refl)
            (mkZipInfo "processed-csv/../x.csv" 12 12 false) _ _).
  - simpl. auto.
  - reflexivity.
Defined.

(** C7, as stated, fails: a member named ["../evil.txt"] matches no
    pattern of the list, and its name is in the warnings all the same: the
    name check comes before the pattern filter. *)
Lemma pattern_filter_counterexample :
  _match_zip_patterns plain_class "../evil.txt" ["processed-csv/**"] = Ok false
  /\ _extract_zip_members plain_class plain_resolve always_mkdir always_copy
       [mkZipInfo "../evil.txt" 4 4 false] ["processed-csv/**"] "/tmp/out"
     = Ok ([], [zip_slip_warning "../evil.txt" "unsafe_member_name"]).
Proof. split; reflexivity. Qed.

(** C7 (amended): a member whose name passes the name check and whose
    sanitised name matches no pattern is skipped silently: no file-system
    operation is done for it and no warning carries its name; the pattern
    filter comes after the name check and before the containment check of
    the resolved destination.  A member whose name fails the name check
    is in the warnings of every returned result, whatever the patterns. *)
Theorem filtered_safe_members_leave_no_warning
    (cm : string -> ascii -> bool) (resolve : LocalPath -> LocalPath)
    (mkdir_ok : LocalPath -> bool) (copy_ok : nat -> LocalPath -> bool)
    (infos : list ZipInfo) (patterns : list string) (output_dir : string) :
  (forall i info s,
      nth_error infos i = Some info ->
      _safe_zip_member_name (raw_name info) = Some s ->
      _match_zip_patterns cm s patterns = Ok false ->
      (forall op,
          ~ In (i, op)
               (fs_ops (fst (extract_run cm resolve mkdir_ok copy_ok infos
                               patterns output_dir))))
      /\ (forall w,
             In w (warnings (fst (extract_run cm resolve mkdir_ok copy_ok infos
                                    patterns output_dir))) ->
             w_entry w <> raw_name info))
  /\ (forall files ws,
         _extract_zip_members cm resolve mkdir_ok copy_ok infos patterns output_dir
         = Ok (files, ws) ->
         forall info,
           In info infos -> _safe_zip_member_name (raw_name info) = None ->
           In (zip_slip_warning (raw_name info) "unsafe_member_name") ws).
Proof.
  split.
  - intros i info s Hn Safe Miss. split.
    + intros op Hin.
      destruct (run_ops _ _ _ _ _ _ _ _ _ Hin) as (x & Hx & s' & Safe' & _ & Hit).
      rewrite Hn in Hx. injection Hx as <-. congruence.
    + intros w Hin E.
      pose proof (run_grows cm resolve mkdir_ok copy_ok infos patterns output_dir) as G.
      destruct (l_warn _ _ _ _ _ _ _ G w Hin) as [[]|(x & _ & Ex & [U|(s' & Safe' & _ & Hit)])];
        rewrite <- Ex, E in *; congruence.
  - intros files ws. unfold _extract_zip_members.
    pose proof (run_complete cm resolve mkdir_ok copy_ok infos patterns output_dir) as C.
    destruct (extract_run cm resolve mkdir_ok copy_ok infos patterns output_dir)
      as [st [e|]]; [discriminate|].
    intros [= <- <-]. simpl in C. destruct (C eq_refl) as [W _]. exact W.
Qed.

(** C7, witness: the member outside the subtree in the sample archive. *)
Lemma filtered_safe_members_leave_no_warning_witness :
  forallb (fun w => negb (String.eqb (w_entry w) "notes/readme.txt"))
          (warnings (fst (extract_run plain_class plain_resolve always_mkdir
                            always_copy sample_archive sample_patterns "/tmp/out")))
  = true.
Proof.
  apply forallb_forall. intros w Hw. apply negb_true_iff, String.eqb_neq.
  exact (proj2 (proj1 (filtered_safe_members_leave_no_warning
                         plain_class plain_resolve always_mkdir always_copy
                         sample_archive sample_patterns "/tmp/out")
                  4 (mkZipInfo "notes/readme.txt" 7 7 false) "notes/readme.txt"
                  eq_refl eq_refl eq_refl)
           w Hw).
Defined.

(** ** Manifest against extraction *)

Lemma manifest_matched (cm : string -> ascii -> bool) (patterns : list string)
    (infos : list ZipInfo) :
  forall entries matched,
    manifest_loop cm patterns infos = Ok (entries, matched) ->
    entries = map entry_of infos
    /\ forall x, In x matched <->
                 exists info, In info infos /\ x = entry_of info
                              /\ _match_zip_patterns cm (raw_name info) patterns
                                 = Ok true.
Proof.
  induction infos as [|info rest IH]; intros entries matched H.
  - injection H as <- <-. split; [reflexivity|].
    intros x. split; [intros [] | intros (? & [] & _)].
  - cbn [manifest_loop] in H. unfold is_dir_call in H.
    destruct (PyStr.truthy (filename info)); [|discriminate].
    cbn [rbind e_name] in H. fold (entry_of info) in H.
    destruct (_match_zip_patterns cm (raw_name info) patterns) as [hit|] eqn:Hit;
      [|discriminate].
    cbn [rbind] in H.
    destruct (manifest_loop cm patterns rest) as [[es ms]|] eqn:R; [|discriminate].
    cbn [rbind fst snd] in H. injection H as <- <-.
    destruct (IH es ms eq_refl) as [-> Hm]. split; [reflexivity|].
    intros x. destruct hit.
    + split.
      * intros [<-|Hx]; [exists info; simpl; auto|].
        apply Hm in Hx. destruct Hx as (y & Hy & ? & ?). exists y. simpl. auto.
      * intros (y & [<-|Hy] & -> & Hhit); [now left|].
        right. apply Hm. eauto.
    + split.
      * intros Hx. apply Hm in Hx. destruct Hx as (y & Hy & ? & ?).
        exists y. simpl. auto.
      * intros (y & [<-|Hy] & -> & Hhit); [congruence|].
        apply Hm. eauto.
Qed.

(** C8, as stated, fails on the sample archive: the manifest reports the
    directory entry and the member that climbs out as matched, which the
    extraction never selects, and the extraction selects the member written
    with a leading ["./"], which the manifest does not report. *)
Lemma manifest_parity_counterexample :
  (let! m := _build_zip_manifest plain_class sample_archive sample_patterns in
   Ok (map e_name (snd m)))
  = Ok ["processed-csv/"; "processed-csv/../x.csv"; "processed-csv/a.csv"]
  /\ snd (extract_run plain_class plain_resolve always_mkdir always_copy
            sample_archive sample_patterns "/tmp/out") = None
  /\ selected_names
       (fst (extract_run plain_class plain_resolve always_mkdir always_copy
               sample_archive sample_patterns "/tmp/out"))
       sample_archive
     = ["./processed-csv/n/b.csv"; "processed-csv/a.csv"].
Proof. repeat split; reflexivity. Qed.

(** C8 (amended): when the manifest is built and the extraction ends
    without an exception, on the same archive and patterns, a member that
    is not a directory and whose stored name is already its sanitised name
    is among [matched_entries] exactly when the extraction selects it. *)
Theorem manifest_extract_parity
    (cm : string -> ascii -> bool) (resolve : LocalPath -> LocalPath)
    (mkdir_ok : LocalPath -> bool) (copy_ok : nat -> LocalPath -> bool)
    (infos : list ZipInfo) (patterns : list string) (output_dir : string)
    (entries matched : list Entry) (i : nat) (info : ZipInfo) :
  _build_zip_manifest cm infos patterns = Ok (entries, matched) ->
  snd (extract_run cm resolve mkdir_ok copy_ok infos patterns output_dir) = None ->
  nth_error infos i = Some info ->
  is_dir info = false ->
  _safe_zip_member_name (raw_name info) = Some (raw_name info) ->
  (In (entry_of info) matched
   <-> selected (fst (extract_run cm resolve mkdir_ok copy_ok infos patterns
                        output_dir)) i = true).
Proof.
  intros M Done Hn Dir Safe.
  destruct (manifest_matched _ _ _ _ _ M) as [_ Hm].
  destruct (run_complete cm resolve mkdir_ok copy_ok infos patterns output_dir Done)
    as [_ Sel].
  split.
  - intros Hin. apply Hm in Hin. destruct Hin as (x & _ & E & Hit).
    apply (Sel i info Hn). exists (raw_name info). repeat split; auto.
    assert (N : raw_name x = raw_name info).
    { change (e_name (entry_of x) = e_name (entry_of info)). now rewrite E. }
    now rewrite <- N.
  - intros S. apply selected_passes in S.
    destruct S as (x & Hx & s & Safe' & _ & Hit).
    rewrite Hn in Hx. injection Hx as <-.
    rewrite Safe in Safe'. injection Safe' as <-.
    apply Hm. exists info. repeat split; auto.
    eapply nth_error_In; eauto.
Qed.

(** C8, witness: the plain member of the sample archive is reported by the
    manifest and selected by the extraction. *)
Lemma manifest_extract_parity_witness :
  In (entry_of (mkZipInfo "processed-csv/a.csv" 56 40 false))
     [entry_of (mkZipInfo "processed-csv/" 0 0 true);
      entry_of (mkZipInfo "processed-csv/../x.csv" 12 12 false);
      entry_of (mkZipInfo "processed-csv/a.csv" 56 40 false)]
  <-> selected (fst (extract_run plain_class plain_resolve always_mkdir
                       always_copy sample_archive sample_patterns "/tmp/out")) 3
      = true.
Proof.
  exact (manifest_extract_parity plain_class plain_resolve always_mkdir
           always_copy sample_archive sample_patterns "/tmp/out"
           (map entry_of sample_archive) _ 3
           (mkZipInfo "processed-csv/a.csv" 56 40 false)
           eq_refl eq_refl eq_refl eq_refl eq_refl).
Defined.

(** ** The pointer resolver *)

Lemma get_set_other (d : Dict) (k k' : string) (v : JVal) :
  k <> k' -> PyDict.get (PyDict.set d k v) k' = PyDict.get d k'.
Proof.
  intros N. unfold PyDict.get, PyDict.get_default.
  induction d as [|[k0 v0] d IH]; simpl.
  - destruct (String.eqb_spec k k'); [contradiction | reflexivity].
  - destruct (String.eqb_spec k0 k) as [->|N0]; simpl.
    + destruct (String.eqb_spec k k'); [contradiction | reflexivity].
    + destruct (String.eqb_spec k0 k'); [reflexivity | exact IH].
Qed.

Lemma get_set_same (d : Dict) (k : string) (v : JVal) :
  PyDict.get (PyDict.set d k v) k = v.
Proof.
  unfold PyDict.get, PyDict.get_default.
  induction d as [|[k0 v0] d IH]; simpl.
  - now rewrite String.eqb_refl.
  - destruct (String.eqb_spec k0 k) as [->|N]; simpl.
    + now rewrite String.eqb_refl.
    + destruct (String.eqb_spec k0 k); [contradiction | exact IH].
Qed.

Lemma nonblank_str_some (v : JVal) (s : string) :
  nonblank_str v = Some s <-> v = JStr s /\ PyStr.strip s <> "".
Proof.
  destruct v; simpl; try (split; [discriminate | intros [? _]; discriminate]).
  destruct (PyStr.truthy (PyStr.strip s0)) eqn:T.
  - split.
    + intros [= ->]. split; [reflexivity|]. intros E. rewrite E in T. discriminate.
    + intros [[= ->] _]. reflexivity.
  - apply truthy_false_iff in T. split; [discriminate|].
    intros [[= ->] N]. contradiction.
Qed.

Section ResolverFacts.

Variable py_repr : JVal -> string.

Lemma canonical_found (payload outputs : Dict) (dl : string) :
  PyDict.get payload "outputs" = JDict outputs ->
  PyDict.get outputs "download_url" = JStr dl ->
  PyStr.strip dl <> "" ->
  canonical_pointer payload
  = Some (mkPointer (Some dl)
            (nonblank_str (PyDict.get payload "presigned_url_expiry"))).
Proof.
  intros Ho Hd N. unfold canonical_pointer. rewrite Ho.
  assert (E : nonblank_str (PyDict.get outputs "download_url") = Some dl)
    by (apply nonblank_str_some; auto).
  now rewrite E.
Qed.

Lemma canonical_missing (payload : Dict) :
  (forall outputs, PyDict.get payload "outputs" = JDict outputs ->
                   nonblank_str (PyDict.get outputs "download_url") = None) ->
  canonical_pointer payload = None.
Proof.
  intros H. unfold canonical_pointer.
  destruct (PyDict.get payload "outputs") as [| | | | |?|outputs]; try reflexivity.
  now rewrite (H outputs eq_refl).
Qed.

Lemma zip_typed_dict (bd : JVal) :
  zip_typed py_repr bd = true -> exists e, bd = JDict e /\ truthy bd = true.
Proof.
  destruct bd as [| | | | |?|e]; try discriminate.
  intros H. exists e. split; [reflexivity|].
  destruct e; [|reflexivity]. vm_compute in H. discriminate.
Qed.

Lemma zip_suffixed_dict (bd : JVal) :
  zip_suffixed bd = true -> exists e, bd = JDict e /\ truthy bd = true.
Proof.
  destruct bd as [| | | | |?|e]; try discriminate.
  intros H. exists e. split; [reflexivity|].
  destruct e; [|reflexivity]. vm_compute in H. discriminate.
Qed.

Lemma legacy_by_type (payload : Dict) (bds : list JVal) (bd : JVal) :
  PyDict.get payload "batchDownloads" = JList bds ->
  find (zip_typed py_repr) bds = Some bd ->
  exists e, bd = JDict e /\ legacy_pointer py_repr payload = pointer_of e.
Proof.
  intros Hb Hf. destruct (find_some _ _ Hf) as [_ T].
  destruct (zip_typed_dict bd T) as (e & -> & Tr). exists e. split; [reflexivity|].
  unfold legacy_pointer, legacy_entry. rewrite Hb, Hf.
  cbv zeta. rewrite Tr. cbn [negb]. rewrite Tr. reflexivity.
Qed.

Lemma legacy_by_suffix (payload : Dict) (bds : list JVal) (bd : JVal) :
  PyDict.get payload "batchDownloads" = JList bds ->
  find (zip_typed py_repr) bds = None ->
  find zip_suffixed bds = Some bd ->
  exists e, bd = JDict e /\ legacy_pointer py_repr payload = pointer_of e.
Proof.
  intros Hb Hn Hf. destruct (find_some _ _ Hf) as [_ T].
  destruct (zip_suffixed_dict bd T) as (e & -> & Tr). exists e. split; [reflexivity|].
  unfold legacy_pointer, legacy_entry. rewrite Hb, Hn, Hf.
  cbv zeta. change (truthy JNull) with false. cbn [negb]. rewrite Tr. reflexivity.
Qed.

Lemma legacy_none (payload : Dict) :
  (forall bds, PyDict.get payload "batchDownloads" = JList bds ->
               find (zip_typed py_repr) bds = None
               /\ find zip_suffixed bds = None) ->
  legacy_pointer py_repr payload = mkPointer None None.
Proof.
  intros H. unfold legacy_pointer, legacy_entry.
  destruct (PyDict.get payload "batchDownloads") as [| | | | |bds|?]; try reflexivity.
  destruct (H bds eq_refl) as [-> ->]. reflexivity.
Qed.

End ResolverFacts.

(** C2, as stated, fails: a [download_url] of one space is a non-empty
    string, and the resolver answers with the legacy record all the same. *)
Lemma canonical_blank_counterexample :
  ~ (forall payload outputs dl,
        PyDict.get payload "outputs" = JDict outputs ->
        PyDict.get outputs "download_url" = JStr dl ->
        dl <> "" ->
        zip_download_url (_extract_zip_pointer scalar_repr payload) = Some dl).
Proof.
  intros H.
  specialize (H blank_canonical_payload [("download_url", JStr " ")] " "
                eq_refl eq_refl).
  assert (N : " " <> "") by discriminate.
  specialize (H N). vm_compute in H. discriminate H.
Qed.

(** C2 (amended): when the [outputs] mapping of the payload holds a
    [download_url] string that is not blank (something is left after
    [strip()]), the resolver returns that URL; the expiry is the payload's
    top-level [presigned_url_expiry] exactly when that is a string that is
    not blank, and unset otherwise, in particular when the key is absent;
    and whatever [batchDownloads] is set to, the result is the same. *)
Theorem canonical_pointer_wins (py_repr : JVal -> string)
    (payload outputs : Dict) (dl : string) :
  PyDict.get payload "outputs" = JDict outputs ->
  PyDict.get outputs "download_url" = JStr dl ->
  PyStr.strip dl <> "" ->
  zip_download_url (_extract_zip_pointer py_repr payload) = Some dl
  /\ (forall e,
         zip_presigned_expires_at (_extract_zip_pointer py_repr payload) = Some e
         <-> PyDict.get payload "presigned_url_expiry" = JStr e
             /\ PyStr.strip e <> "")
  /\ (PyDict.lookup payload "presigned_url_expiry" = None ->
      zip_presigned_expires_at (_extract_zip_pointer py_repr payload) = None)
  /\ (forall legacy,
         _extract_zip_pointer py_repr (PyDict.set payload "batchDownloads" legacy)
         = _extract_zip_pointer py_repr payload).
Proof.
  intros Ho Hd N.
  assert (E : _extract_zip_pointer py_repr payload
              = mkPointer (Some dl)
                  (nonblank_str (PyDict.get payload "presigned_url_expiry"))).
  { unfold _extract_zip_pointer. now rewrite (canonical_found _ _ _ Ho Hd N). }
  rewrite E. cbn [zip_download_url zip_presigned_expires_at].
  split; [reflexivity|]. split; [intros e; apply nonblank_str_some|].
  split.
  - intros L. unfold PyDict.get, PyDict.get_default. now rewrite L.
  - intros legacy. unfold _extract_zip_pointer.
    assert (Ho' : PyDict.get (PyDict.set payload "batchDownloads" legacy) "outputs"
                  = JDict outputs)
      by (rewrite get_set_other; [exact Ho | discriminate]).
    rewrite (canonical_found _ _ _ Ho' Hd N).
    rewrite get_set_other by discriminate. reflexivity.
Qed.

(** C2, witness: the canonical URL of a payload that also carries a legacy
    record with an expiry. *)
Lemma canonical_pointer_wins_witness :
  _extract_zip_pointer scalar_repr canonical_payload
  = mkPointer (Some "https://files.example/batch.zip") None.
Proof.
  pose proof (canonical_pointer_wins scalar_repr canonical_payload
                [("download_url", JStr "https://files.example/batch.zip")]
                "https://files.example/batch.zip" eq_refl eq_refl) as H.
  assert (N : PyStr.strip "https://files.example/batch.zip" <> "")
    by (vm_compute; discriminate).
  destruct (H N) as (U & _ & X & _).
  destruct (_extract_zip_pointer scalar_repr canonical_payload) as [u x].
  simpl in U, X. rewrite U, (X eq_refl). reflexivity.
Defined.

(** C6, as stated, fails twice: a zip-typed record without a URL yields no
    URL from either source, and the result still carries that record's
    expiry; and among untyped records the one whose URL ends in [".ZIP"] is
    taken before a later one that ends in [".zip"]. *)
Lemma legacy_fallback_counterexample :
  _extract_zip_pointer scalar_repr
    [("batchDownloads",
      JList [JDict [("type", JStr "zip");
                    ("expiresAt", JStr "2030-01-01T00:00:00Z")]])]
  = mkPointer None (Some "2030-01-01T00:00:00Z")
  /\ PyStr.endswith "https://files.example/A.ZIP" ".zip" = false
  /\ _extract_zip_pointer scalar_repr
       [("batchDownloads",
         JList [JDict [("downloadUrl", JStr "https://files.example/A.ZIP")];
                JDict [("downloadUrl", JStr "https://files.example/b.zip")]])]
     = mkPointer (Some "https://files.example/A.ZIP") None.
Proof. repeat split; reflexivity. Qed.

(** C6 (amended): when the payload has no canonical pointer, the resolver
    takes the first record of [batchDownloads] whose [type], lowercased, is
    ["zip"]; when no record is zip-typed, the first record whose
    [downloadUrl] is a string that ends in [".zip"] once lowercased.  When
    the [downloadUrl] of the record taken is a string that is not blank,
    the pointer is that URL with the record's [expiresAt], the latter when
    it is a string that is not blank.  When no record is taken, or
    [batchDownloads] is not a list, both fields are unset. *)
Theorem legacy_pointer_fallback (py_repr : JVal -> string) (payload : Dict) :
  (forall outputs, PyDict.get payload "outputs" = JDict outputs ->
                   nonblank_str (PyDict.get outputs "download_url") = None) ->
  (forall bds bd,
      PyDict.get payload "batchDownloads" = JList bds ->
      find (zip_typed py_repr) bds = Some bd ->
      exists e,
        bd = JDict e
        /\ forall dl,
            nonblank_str (PyDict.get e "downloadUrl") = Some dl ->
            _extract_zip_pointer py_repr payload
            = mkPointer (Some dl) (nonblank_str (PyDict.get e "expiresAt")))
  /\ (forall bds bd,
         PyDict.get payload "batchDownloads" = JList bds ->
         find (zip_typed py_repr) bds = None ->
         find zip_suffixed bds = Some bd ->
         exists e,
           bd = JDict e
           /\ forall dl,
               nonblank_str (PyDict.get e "downloadUrl") = Some dl ->
               _extract_zip_pointer py_repr payload
               = mkPointer (Some dl) (nonblank_str (PyDict.get e "expiresAt")))
  /\ ((forall bds,
          PyDict.get payload "batchDownloads" = JList bds ->
          find (zip_typed py_repr) bds = None /\ find zip_suffixed bds = None) ->
      _extract_zip_pointer py_repr payload = mkPointer None None).
Proof.
  intros C. unfold _extract_zip_pointer. rewrite (canonical_missing payload C).
  split; [|split].
  - intros bds bd Hb Hf.
    destruct (legacy_by_type py_repr payload bds bd Hb Hf) as (e & -> & E).
    exists e. split; [reflexivity|]. intros dl Hd. rewrite E.
    unfold pointer_of. now rewrite Hd.
  - intros bds bd Hb Hn Hf.
    destruct (legacy_by_suffix py_repr payload bds bd Hb Hn Hf) as (e & -> & E).
    exists e. split; [reflexivity|]. intros dl Hd. rewrite E.
    unfold pointer_of. now rewrite Hd.
  - apply legacy_none.
Qed.

(** C6, witness: the zip-typed record of a legacy list, behind a record of
    another type. *)
Lemma legacy_pointer_fallback_witness :
  _extract_zip_pointer scalar_repr legacy_payload
  = mkPointer (Some "https://files.example/legacy.zip")
              (Some "2030-01-01T00:00:00Z").
Proof.
  destruct (proj1 (legacy_pointer_fallback scalar_repr legacy_payload
                     (fun outputs H => False_ind _ (eq_ind JNull
                        (fun v => match v with JNull => True | _ => False end)
                        I _ H)))
              _ legacy_zip_record eq_refl eq_refl) as (e & E & P).
  injection E as <-. exact (P _ eq_refl).
Defined.

(** ** Traces of computations *)

Lemma produces_ret {A : Type} (Q : list Event -> Prop) (a : A) :
  Q [] -> produces Q (ret a).
Proof. intros H w. exists []. now rewrite app_nil_r. Qed.

Lemma produces_lift {A : Type} (Q : list Event -> Prop) (r : Result A) :
  Q [] -> produces Q (lift r).
Proof. intros H w. exists []. unfold lift. destruct r; now rewrite app_nil_r. Qed.

Lemma produces_out_of_fuel {A : Type} (Q : list Event -> Prop) :
  Q [] -> produces Q (@out_of_fuel A).
Proof. intros H w. exists []. now rewrite app_nil_r. Qed.

Lemma produces_raise {A : Type} (Q : list Event -> Prop) (e : Exn) :
  Q [] -> produces Q (@raise A e).
Proof. intros H w. exists []. now rewrite app_nil_r. Qed.

Lemma produces_emit (Q : list Event -> Prop) (e : Event) :
  Q [e] -> produces Q (emit e).
Proof. intros H w. now exists [e]. Qed.

Lemma produces_bind {A B : Type} (Q1 Q2 Q : list Event -> Prop)
    (c : M A) (k : A -> M B) :
  produces Q1 c -> (forall a, produces Q2 (k a)) ->
  (forall e1, Q1 e1 -> Q e1) ->
  (forall e1 e2, Q1 e1 -> Q2 e2 -> Q (e1 ++ e2)) ->
  produces Q (bind c k).
Proof.
  intros Hc Hk Stop Both w. unfold bind.
  destruct (Hc w) as (e1 & E1 & H1).
  destruct (c w) as [[a| |] w1]; simpl in E1.
  - destruct (Hk a w1) as (e2 & E2 & H2). exists (e1 ++ e2).
    rewrite E2, E1, app_assoc. auto.
  - exists e1. auto.
  - exists e1. auto.
Qed.

Lemma produces_weaken {A : Type} (Q Q' : list Event -> Prop) (c : M A) :
  produces Q c -> (forall evs, Q evs -> Q' evs) -> produces Q' c.
Proof.
  intros H W w. destruct (H w) as (evs & E & HQ). exists evs. auto.
Qed.

Lemma produces_status_get (Q : list Event -> Prop) (h : Host) :
  Q [] -> produces Q (status_get h).
Proof. intros H w. exists []. split; [simpl; now rewrite app_nil_r | auto]. Qed.

Lemma produces_monotonic (Q : list Event -> Prop) (h : Host) :
  (forall t, Q [EvClock t]) -> produces Q (monotonic h).
Proof. intros H w. eexists [_]. split; [reflexivity | auto]. Qed.

Lemma emits_bind {A B : Type} (P : Event -> Prop) (c : M A) (k : A -> M B) :
  emits P c -> (forall a, emits P (k a)) -> emits P (bind c k).
Proof.
  intros Hc Hk. eapply produces_bind; eauto.
  intros e1 e2 H1 H2. apply Forall_app. auto.
Qed.

Lemma emits_ret {A : Type} (P : Event -> Prop) (a : A) : emits P (ret a).
Proof. apply produces_ret. constructor. Qed.

(** ** Download requests *)

Section DownloadFacts.

Variable h : Host.


Lemma fetch_headers_authorization (url : string) (o : option string) :
  has_authorization (mkRequest url (zip_fetch_headers h url o))
  = negb (_is_presigned_s3_url url) && key_available h o.
Proof.
  unfold zip_fetch_headers, key_available, has_authorization.
  destruct (_is_presigned_s3_url url); [reflexivity|].
  cbn [negb andb req_headers].
  destruct (_get_api_key_optional h o) as [k|]; [|reflexivity].
  destruct (PyStr.truthy k); reflexivity.
Qed.

Lemma fetch_trace (url : string) (o td : option string) (w : World) :
  exists reqs,
    trace (snd (_download_zip_to_temp_file h url o td w))
    = trace w ++ EvFetch url :: map EvGet reqs
    /\ Forall (fun req => req = mkRequest url (zip_fetch_headers h url o)) reqs
    /\ List.length reqs <= 1.
Proof.
  unfold _download_zip_to_temp_file, bind, emit, ret, raise, http_get.
  cbn [fst snd].
  destruct (negb (PyStr.truthy url)).
  { exists []. simpl. auto. }
  match goal with |- context [if ?c then _ else _] => destruct c end.
  { exists []. simpl. auto. }
  destruct (negb (h_mkstemp_ok h (target_dir td))).
  { exists []. simpl. auto. }
  exists [mkRequest url (zip_fetch_headers h url o)].
  split; [|split; [repeat constructor | simpl; lia]].
  cbn [n_get trace].
  destruct (h_transport h _ _) as [code text ar| | | |]; cbn [trace snd];
    try (now rewrite <- app_assoc).
  destruct (negb (code =? 200)%Z); cbn [trace snd]; now rewrite <- app_assoc.
Qed.

Lemma download_one_trace (key : string) (i : nat) (url : string) (w : World) :
  trace (snd (download_one h key i url w))
  = trace w ++ EvGet (first_request key url)
      :: match h_transport h (n_get w) (first_request key url) with
         | Response code _ _ =>
             if (code =? 401)%Z && _is_presigned_s3_url url
             then [EvGet (mkRequest url (bearer key))]
             else []
         | _ => []
         end.
Proof.
  unfold download_one, bind, ret, raise, http_get, first_request.
  cbn [fst snd n_get trace].
  destruct (h_transport h (n_get w) _) as [code text ar| | | |]; cbn [trace snd];
    try reflexivity.
  - destruct ((code =? 401)%Z && _is_presigned_s3_url url); cbn [n_get trace snd fst].
    + destruct (h_transport h (S (n_get w)) _) as [c2 t2 a2| | | |]; cbn [trace snd];
        rewrite <- ?app_assoc; try reflexivity.
      destruct (negb (c2 =? 200)%Z); [reflexivity|].
      destruct (h_save_download h i url _) as [path|[]]; reflexivity.
    + destruct (negb (code =? 200)%Z); [reflexivity|].
      destruct (h_save_download h i url _) as [path|[]]; reflexivity.
Qed.

Lemma download_one_emits (key : string) (i : nat) (url : string) :
  emits (tool_request_ok [url]) (download_one h key i url).
Proof.
  intros w. eexists. split; [apply download_one_trace|].
  assert (F : tool_request_ok [url] (EvGet (first_request key url))).
  { split; [simpl; auto|]. unfold first_request. simpl. now intros ->. }
  constructor; [exact F|].
  destruct (h_transport h (n_get w) (first_request key url)); try constructor.
  destruct (_ && _); constructor; [|constructor].
  split; [simpl; auto | reflexivity].
Qed.

Lemma tool_request_ok_incl (urls urls' : list string) (ev : Event) :
  incl urls urls' -> tool_request_ok urls ev -> tool_request_ok urls' ev.
Proof. destruct ev; simpl; auto. intros I [H1 H2]. auto. Qed.

Lemma download_loop_emits (key : string) (urls : list string) :
  forall i, emits (tool_request_ok urls) (download_loop h key i urls).
Proof.
  induction urls as [|url rest IH]; intros i; cbn [download_loop].
  - apply emits_ret.
  - apply emits_bind.
    + eapply produces_weaken; [apply download_one_emits|].
      intros evs F. eapply Forall_impl; [|exact F].
      intros ev. apply tool_request_ok_incl. intros x [<-|[]]. now left.
    + intros r. apply emits_bind.
      * eapply produces_weaken; [apply IH|].
        intros evs F. eapply Forall_impl; [|exact F].
        intros ev. apply tool_request_ok_incl. intros x Hx. now right.
      * intros rs. destruct r; apply emits_ret.
Qed.

Lemma tool_emits (urls : list string) (dir : string) (o : option string) :
  emits (tool_request_ok urls) (_download_processed_files_impl h urls dir o).
Proof.
  unfold _download_processed_files_impl.
  destruct (_get_api_key h o) as [err|key]; [apply emits_ret|].
  destruct urls as [|u us]; [apply emits_ret|].
  destruct (negb _); [apply emits_ret|].
  apply emits_bind; [apply download_loop_emits|].
  intros r. apply emits_ret.
Qed.

End DownloadFacts.

(** C9, as stated, fails twice: the file-download tool, answered 401 on a
    URL it detects as pre-signed, repeats the request with the bearer
    header; and the fetcher, with no key configured, sends no header to a
    URL that is not pre-signed. *)
Lemma bearer_header_counterexample :
  _is_presigned_s3_url presigned_url = true
  /\ trace (snd (_download_processed_files_impl sample_host [presigned_url]
                   "/tmp/dl" (Some "secret") world0))
     = [EvGet (mkRequest presigned_url []);
        EvGet (mkRequest presigned_url (bearer "secret"))]
  /\ _is_presigned_s3_url proxied_url = false
  /\ trace (snd (_download_zip_to_temp_file sample_host proxied_url None None
                   world0))
     = [EvFetch proxied_url; EvGet (mkRequest proxied_url [])].
Proof. repeat split; reflexivity. Qed.

(** C9 (amended): the fetcher makes at most one request per call, and that
    request carries the bearer header exactly when the URL is not detected
    as pre-signed and a key is configured; it never sends the header to a
    URL detected as pre-signed.  The file-download tool first requests each
    URL with the header exactly when the URL is not detected as pre-signed,
    and repeats the request with the header only for a URL detected as
    pre-signed whose first request was answered 401; every request it makes
    to a URL that is not detected as pre-signed carries the header. *)
Theorem bearer_header_policy (h : Host) :
  (forall url o td w,
      exists reqs,
        trace (snd (_download_zip_to_temp_file h url o td w))
        = trace w ++ EvFetch url :: map EvGet reqs
        /\ List.length reqs <= 1
        /\ Forall (fun req =>
                     req_url req = url
                     /\ has_authorization req
                        = negb (_is_presigned_s3_url url) && key_available h o)
                  reqs)
  /\ (forall key i url w,
         trace (snd (download_one h key i url w))
         = trace w ++ EvGet (first_request key url)
             :: match h_transport h (n_get w) (first_request key url) with
                | Response code _ _ =>
                    if (code =? 401)%Z && _is_presigned_s3_url url
                    then [EvGet (mkRequest url (bearer key))]
                    else []
                | _ => []
                end)
  /\ (forall key url,
         has_authorization (first_request key url)
         = negb (_is_presigned_s3_url url))
  /\ (forall urls dir o,
         emits (tool_request_ok urls) (_download_processed_files_impl h urls dir o)).
Proof.
  split; [|split; [|split]].
  - intros url o td w.
    destruct (fetch_trace h url o td w) as (reqs & E & F & L).
    exists reqs. split; [exact E|]. split; [exact L|].
    eapply Forall_impl; [|exact F]. intros req ->. split; [reflexivity|].
    apply fetch_headers_authorization.
  - apply download_one_trace.
  - intros key url. unfold first_request, has_authorization.
    destruct (_is_presigned_s3_url url); reflexivity.
  - apply tool_emits.
Qed.

Lemma count_app (f : Event -> bool) (xs ys : list Event) :
  count f (xs ++ ys) = count f xs + count f ys.
Proof. unfold count. now rewrite filter_app, List.length_app. Qed.

Lemma count_gets (f : Event -> bool) (reqs : list Request) :
  (forall r, f (EvGet r) = false) -> count f (map EvGet reqs) = 0.
Proof.
  intros H. unfold count. induction reqs as [|r reqs IH]; simpl; [reflexivity|].
  now rewrite H.
Qed.

Section WorkflowFacts.

Variable h : Host.
Variable a : WorkflowArgs.

Lemma fetch_one (url : string) (o td : option string) :
  produces (one_fetch url) (_download_zip_to_temp_file h url o td).
Proof.
  intros w. destruct (fetch_trace h url o td w) as (reqs & E & _ & _).
  eexists. split; [exact E|].
  repeat split; try reflexivity;
    change (EvFetch url :: map EvGet reqs) with ([EvFetch url] ++ map EvGet reqs);
    rewrite count_app, count_gets by reflexivity; reflexivity.
Qed.

Lemma one_fetch_then_nothing (url : string) (e1 e2 : list Event) :
  one_fetch url e1 -> e2 = [] -> one_fetch url (e1 ++ e2).
Proof. intros H ->. now rewrite app_nil_r. Qed.

Lemma manifest_one (url : string) (ps : list string) (o : option string) :
  produces (one_fetch url) (get_batch_zip_manifest h url ps o).
Proof.
  unfold get_batch_zip_manifest.
  eapply produces_bind with (Q2 := fun evs => evs = []);
    [apply fetch_one | | auto | apply one_fetch_then_nothing].
  intros [d|[infos|]]; try (now apply produces_ret).
  eapply produces_bind with (Q1 := fun evs => evs = []) (Q2 := fun evs => evs = []);
    [now apply produces_lift | intros; now apply produces_ret | auto |].
  now intros e1 e2 -> ->.
Qed.

Lemma extract_one (url : string) (ps : list string) (dir o : option string) :
  produces (one_fetch url) (download_and_extract_batch_zip h url ps dir o).
Proof.
  unfold download_and_extract_batch_zip.
  eapply produces_bind with (Q2 := fun evs => evs = []);
    [apply fetch_one | | auto | apply one_fetch_then_nothing].
  intros [d|[infos|]]; try (now apply produces_ret).
  eapply produces_bind with (Q1 := fun evs => evs = []) (Q2 := fun evs => evs = []);
    [now apply produces_lift | | auto | now intros e1 e2 -> ->].
  intros m. destruct (match dir with Some d => _ | None => _ end);
    [|now apply produces_ret].
  eapply produces_bind with (Q1 := fun evs => evs = []) (Q2 := fun evs => evs = []);
    [now apply produces_lift | intros; now apply produces_ret | auto |].
  now intros e1 e2 -> ->.
Qed.

Lemma zip_op_one (mode : ResultMode) (url : JVal) (dir : option string) :
  produces (one_fetch (py_str (h_py_repr h) url))
           (_zip_op_with_one_refresh h a mode url dir).
Proof.
  unfold _zip_op_with_one_refresh.
  destruct mode; [apply extract_one | apply manifest_one | apply extract_one].
Qed.

Lemma status_one (batch_id : JVal) (o : option string) :
  produces one_status (check_batch_status h batch_id o).
Proof.
  unfold check_batch_status.
  eapply produces_bind with (Q1 := eq [EvStatusCall])
                            (Q2 := fun evs => evs = [] \/ evs = [EvResolve]).
  - now apply produces_emit.
  - intros _. destruct (_get_api_key h o) as [err|key];
      [apply produces_ret; auto|].
    eapply produces_bind with (Q1 := eq [])
                              (Q2 := fun evs => evs = [] \/ evs = [EvResolve]).
    + now apply produces_status_get.
    + intros [|msg| |code text json]; try (apply produces_ret; auto);
        [apply produces_raise; auto|].
      destruct (code =? 404)%Z; [apply produces_ret; auto|].
      destruct (negb _); [apply produces_ret; auto|].
      destruct json as [body|]; [|apply produces_ret; auto].
      eapply produces_bind with (Q1 := eq [])
                                (Q2 := fun evs => evs = [] \/ evs = [EvResolve]).
      * now apply produces_lift.
      * intros payload.
        eapply produces_bind with (Q1 := eq [EvResolve]) (Q2 := eq []).
        -- now apply produces_emit.
        -- intros _. now apply produces_ret.
        -- intros e1 <-. auto.
        -- intros e1 e2 <- <-. auto.
      * intros e1 <-. auto.
      * intros e1 e2 <- H. exact H.
    + intros e1 <-. auto.
    + intros e1 e2 <- H. exact H.
  - intros e1 <-. repeat split; simpl; auto.
  - intros e1 e2 <- [->| ->]; repeat split; simpl; auto.
Qed.

Lemma bind_ret_world {A B : Type} (c : M A) (f : A -> B) (w : World) :
  snd (bind c (fun x => ret (f x)) w) = snd (c w).
Proof. unfold bind, ret. destruct (c w) as [[x| |] w']; reflexivity. Qed.

(** After the first ZIP operation, the stage adds the events of one status
    query and of at most one more ZIP operation when the first one failed
    with status 403, and nothing otherwise. *)
Lemma zip_stage_trace (batch_id url : JVal) (dir : string) (result : Dict)
    (w : World) :
  exists e2 e3,
    trace (snd (zip_stage h a batch_id url dir result w))
    = trace (snd (_zip_op_with_one_refresh h a (result_mode a) url (Some dir) w))
      ++ e2 ++ e3
    /\ (refresh_needed
          (fst (_zip_op_with_one_refresh h a (result_mode a) url (Some dir) w))
        = false -> e2 = [] /\ e3 = [])
    /\ (refresh_needed
          (fst (_zip_op_with_one_refresh h a (result_mode a) url (Some dir) w))
        = true ->
        one_status e2
        /\ (e3 = []
            \/ exists refreshed,
                fst (check_batch_status h batch_id (api_key_override a)
                       (snd (_zip_op_with_one_refresh h a (result_mode a) url
                               (Some dir) w)))
                = Done refreshed
                /\ one_fetch
                     (py_str (h_py_repr h)
                        (py_or (PyDict.get refreshed "zip_download_url") url))
                     e3)).
Proof.
  assert (Stop : forall (pre : list Event) (out : Outcome Dict),
             refresh_needed out = false ->
             exists e2 e3 : list Event,
               pre = pre ++ e2 ++ e3
               /\ (refresh_needed out = false -> e2 = [] /\ e3 = [])
               /\ (refresh_needed out = true ->
                   one_status e2
                   /\ (e3 = []
                       \/ exists refreshed,
                           fst (check_batch_status h batch_id (api_key_override a)
                                  (snd (_zip_op_with_one_refresh h a
                                          (result_mode a) url (Some dir) w)))
                           = Done refreshed
                           /\ one_fetch
                                (py_str (h_py_repr h)
                                   (py_or (PyDict.get refreshed "zip_download_url")
                                          url))
                                e3))).
  { intros pre out R. exists [], []. rewrite !app_nil_r.
    split; [reflexivity|]. split; [auto|]. rewrite R. discriminate. }
  unfold zip_stage. unfold bind at 1.
  destruct (_zip_op_with_one_refresh h a (result_mode a) url (Some dir) w)
    as [[zr| |] w1] eqn:First; cbn [fst snd];
    try (apply Stop; reflexivity).
  destruct (negb (truthy (PyDict.get zr "success"))
            && is_int (PyDict.get zr "http_status") 403) eqn:R.
  2:{ apply Stop. exact R. }
  assert (R' : refresh_needed (Done zr) = true) by exact R.
  unfold bind at 1.
  destruct (status_one batch_id (api_key_override a) w1) as (e2 & E2 & S2).
  assert (Once : forall w2 : World,
             trace w2 = trace w1 ++ e2 ->
             exists e2' e3 : list Event,
               trace w2 = trace w1 ++ e2' ++ e3
               /\ (refresh_needed (Done zr) = false -> e2' = [] /\ e3 = [])
               /\ (refresh_needed (Done zr) = true ->
                   one_status e2'
                   /\ (e3 = []
                       \/ exists refreshed,
                           fst (check_batch_status h batch_id (api_key_override a)
                                  w1)
                           = Done refreshed
                           /\ one_fetch
                                (py_str (h_py_repr h)
                                   (py_or (PyDict.get refreshed "zip_download_url")
                                          url))
                                e3))).
  { intros w2 E. exists e2, []. rewrite app_nil_r. split; [exact E|].
    split; [rewrite R'; discriminate | auto]. }
  destruct (check_batch_status h batch_id (api_key_override a) w1)
    as [[refreshed| |] w2]; cbn [fst snd] in *; try (apply Once; exact E2).
  destruct (truthy (PyDict.get refreshed "success")); [|apply Once; exact E2].
  destruct (truthy (py_or (PyDict.get refreshed "zip_download_url") url));
    [|apply Once; exact E2].
  rewrite bind_ret_world.
  destruct (zip_op_one (result_mode a)
              (py_or (PyDict.get refreshed "zip_download_url") url) (Some dir) w2)
    as (e3 & E3 & F3).
  exists e2, e3. rewrite E3, E2, app_assoc.
  split; [reflexivity|]. split; [rewrite R'; discriminate|].
  intros _. split; [exact S2|]. right. exists refreshed. auto.
Qed.

Lemma fam_bind {A B : Type} (n m : nat) (c : M A) (k : A -> M B) :
  fetches_at_most n c -> (forall x, fetches_at_most m (k x)) ->
  fetches_at_most (n + m) (bind c k).
Proof.
  intros Hc Hk. eapply produces_bind; [exact Hc | exact Hk | |].
  - simpl. intros; lia.
  - intros e1 e2 H1 H2. rewrite count_app. simpl in *. lia.
Qed.

Lemma fam_bind0 {A B : Type} (m : nat) (c : M A) (k : A -> M B) :
  fetches_at_most 0 c -> (forall x, fetches_at_most m (k x)) ->
  fetches_at_most m (bind c k).
Proof. intros Hc Hk. exact (fam_bind 0 m c k Hc Hk). Qed.

Lemma fam_ret {A : Type} (n : nat) (x : A) : fetches_at_most n (ret x).
Proof. apply produces_ret. unfold count. simpl. lia. Qed.

Lemma fam_lift {A : Type} (n : nat) (r : Result A) : fetches_at_most n (lift r).
Proof. apply produces_lift. unfold count. simpl. lia. Qed.

Lemma fam_emit (n : nat) (e : Event) :
  is_fetch e = false -> fetches_at_most n (emit e).
Proof. intros H. apply produces_emit. unfold count. simpl. rewrite H. simpl. lia. Qed.

Lemma fam_monotonic (n : nat) : fetches_at_most n (monotonic h).
Proof. apply produces_monotonic. intros t. unfold count. simpl. lia. Qed.

Lemma fam_status (n : nat) (batch_id : JVal) (o : option string) :
  fetches_at_most n (check_batch_status h batch_id o).
Proof.
  eapply produces_weaken; [apply status_one|].
  intros evs (F & _). simpl. lia.
Qed.

Lemma fam_poll (fuel : nat) (batch_id : JVal) (deadline : Z) :
  fetches_at_most 0 (poll h a fuel batch_id deadline).
Proof.
  induction fuel as [|fuel IH]; cbn [poll].
  - apply produces_out_of_fuel. unfold count. simpl. lia.
  - apply fam_bind0; [apply fam_status|]. intros status_resp.
    destruct (negb _); [apply fam_ret|].
    destruct (_is_terminal_status _ _); [apply fam_ret|].
    apply fam_bind0; [apply fam_monotonic|]. intros now.
    destruct (deadline <=? now)%Z; [apply fam_ret|].
    apply fam_bind0; [now apply fam_emit | intros _; exact IH].
Qed.

Lemma fam_zip_stage (batch_id url : JVal) (dir : string) (result : Dict) :
  fetches_at_most 2 (zip_stage h a batch_id url dir result).
Proof.
  intros w.
  destruct (zip_stage_trace batch_id url dir result w) as (e2 & e3 & E & No & Yes).
  destruct (zip_op_one (result_mode a) url (Some dir) w) as (e1 & E1 & _ & F1 & _).
  exists (e1 ++ e2 ++ e3). split; [now rewrite E, E1, <- app_assoc|].
  rewrite !count_app, F1.
  destruct (refresh_needed _).
  - destruct (Yes eq_refl) as [(F2 & _) [->|(r & _ & _ & F3 & _)]].
    + rewrite F2. unfold count. simpl. lia.
    + rewrite F2, F3. lia.
  - destruct (No eq_refl) as [-> ->]. unfold count. simpl. lia.
Qed.

Lemma fam_after_poll (batch_id : JVal) (deadline : Z) (last_status : Dict) :
  fetches_at_most 2 (after_poll h a batch_id deadline last_status).
Proof.
  unfold after_poll.
  apply fam_bind0.
  { destruct (negb _); [|apply fam_ret].
    apply fam_bind0; [now apply fam_emit | intros _; apply fam_ret]. }
  intros ptr. apply fam_bind0; [apply fam_lift|]. intros dir.
  apply fam_bind0; [apply fam_monotonic|]. intros now. cbv zeta.
  destruct (_ && _); [apply fam_ret|].
  destruct (result_mode a); [apply fam_ret| |];
    (destruct (negb (truthy (fst ptr))); [apply fam_ret|]);
    (apply (fam_bind 2 0); [apply fam_zip_stage | intros staged; apply fam_ret]).
Qed.

Lemma fam_workflow (fuel : nat) :
  fetches_at_most 2 (process_rent_roll_workflow h a fuel).
Proof.
  unfold process_rent_roll_workflow. cbv zeta.
  destruct (negb (PyStr.truthy _)); [apply fam_ret|].
  destruct (negb (truthy (PyDict.get _ "success"))); [apply fam_ret|].
  destruct (negb (truthy (PyDict.get _ "batchId"))); [apply fam_ret|].
  apply fam_bind0; [apply fam_monotonic|]. intros start.
  apply fam_bind0; [apply fam_poll|]. intros [status_resp|last_status];
    [apply fam_ret | apply fam_after_poll].
Qed.

End WorkflowFacts.

(** ** What makes the stage refresh *)

Section RefreshFacts.

Variable h : Host.
Variable a : WorkflowArgs.


Lemma download_outcome (url : string) (o td : option string) (w : World) :
  match fst (_download_zip_to_temp_file h url o td w) with
  | Done (DlFail d) =>
      truthy (PyDict.get d "success") = false
      /\ is_int (PyDict.get d "http_status") 403
         = answered_403 (fetch_reply h url o td w)
  | Done (DlOk _) => answered_403 (fetch_reply h url o td w) = false
  | Raised _ => answered_403 (fetch_reply h url o td w) = false
  | OutOfFuel => False
  end.
Proof.
  unfold _download_zip_to_temp_file, fetch_reply, bind, emit, ret, raise, http_get.
  cbn [fst snd].
  destruct (negb (PyStr.truthy url)); [split; reflexivity|].
  match goal with |- context [if ?c then _ else _] => destruct c end;
    [split; reflexivity|].
  destruct (negb (h_mkstemp_ok h (target_dir td))); [reflexivity|].
  cbv beta iota delta [n_get n_status n_clock trace].
  destruct (h_transport h _ _) as [code text ar| | | |]; cbn [fst];
    try (split; reflexivity); try reflexivity.
  destruct (code =? 200)%Z eqn:C; cbn [negb fst].
  - apply Z.eqb_eq in C. subst code. reflexivity.
  - split; reflexivity.
Qed.

Lemma refresh_iff_403 (mode : ResultMode) (url : JVal) (dir : option string)
    (w : World) :
  refresh_needed (fst (_zip_op_with_one_refresh h a mode url dir w))
  = answered_403 (fetch_reply h (py_str (h_py_repr h) url) (api_key_override a)
                    (op_temp_dir mode dir) w).
Proof.
  unfold _zip_op_with_one_refresh, op_temp_dir.
  set (u := py_str (h_py_repr h) url).
  assert (Ex : forall td,
             refresh_needed
               (fst (download_and_extract_batch_zip h u (extract_patterns a) td
                       (api_key_override a) w))
             = answered_403
                 (fetch_reply h u (api_key_override a)
                    match td with
                    | Some d => if PyStr.truthy d then Some d else None
                    | None => None
                    end w)).
  { intros td. unfold download_and_extract_batch_zip. unfold bind at 1.
    pose proof (download_outcome u (api_key_override a)
                  match td with
                  | Some d => if PyStr.truthy d then Some d else None
                  | None => None
                  end w) as D.
    destruct (_download_zip_to_temp_file h u (api_key_override a) _ w)
      as [[[d|[infos|]]|e|] w1]; cbn [fst] in D; try contradiction.
    - destruct D as [S F]. cbn [ret fst refresh_needed download_failed].
      rewrite <- F. reflexivity.
    - rewrite D. unfold bind, lift.
      destruct (_build_zip_manifest _ _ _) as [m|e]; [|reflexivity].
      destruct (match td with Some _ => _ | None => _ end); [|reflexivity].
      destruct (_extract_zip_members _ _ _ _ _ _ _); reflexivity.
    - rewrite D. reflexivity.
    - rewrite D. reflexivity. }
  destruct mode; [apply Ex| |apply Ex].
  unfold get_batch_zip_manifest. unfold bind at 1.
  pose proof (download_outcome u (api_key_override a) None w) as D.
  destruct (_download_zip_to_temp_file h u (api_key_override a) None w)
    as [[[d|[infos|]]|e|] w1]; cbn [fst] in D; try contradiction.
  - destruct D as [S F]. cbn [ret fst refresh_needed download_failed].
    rewrite <- F. reflexivity.
  - rewrite D. unfold bind, lift.
    destruct (_build_zip_manifest _ _ _) as [m|e]; reflexivity.
  - rewrite D. reflexivity.
  - rewrite D. reflexivity.
Qed.

End RefreshFacts.

(** ** The refresh, event by event *)

Section StageFacts.

Variable h : Host.
Variable a : WorkflowArgs.


Lemma status_exact (batch_id : JVal) (o : option string) (w : World) :
  trace (snd (check_batch_status h batch_id o w)) = trace w ++ status_events h o w
  /\ match status_raises h o w with
     | Some e => fst (check_batch_status h batch_id o w) = Raised e
                 /\ payload_available h o w = false
     | None => exists r, fst (check_batch_status h batch_id o w) = Done r
                         /\ truthy (PyDict.get r "success")
                            = payload_available h o w
     end.
Proof.
  unfold check_batch_status, status_events, payload_available, status_raises,
    reply_raises, bind, emit, ret, raise, lift, status_get.
  destruct (_get_api_key h o) as [err|key] eqn:K.
  { simpl. split; [reflexivity|]. eexists. split; [reflexivity|].
    unfold _get_api_key in K.
    destruct (_get_api_key_optional h o) as [k|]; [destruct (PyStr.truthy k)|];
      try discriminate; injection K as <-; reflexivity. }
  simpl.
  destruct (h_status_http h (n_status w)) as [|msg| |code text json]; simpl.
  1-3: split; [reflexivity | first [split; reflexivity | eexists; split; reflexivity]].
  destruct (code =? 404)%Z; simpl.
  { destruct json as [[]|]; split; try reflexivity; eexists; split; reflexivity. }
  destruct ((code =? 200)%Z || (code =? 201)%Z); simpl.
  2:{ destruct json as [[]|]; split; try reflexivity; eexists; split; reflexivity. }
  destruct json as [body|]; simpl;
    [|split; [reflexivity | eexists; split; reflexivity]].
  destruct body as [| | | | | |fields]; simpl;
    try (split; [reflexivity | split; reflexivity]).
  destruct (PyDict.get fields "data"); simpl; rewrite <- app_assoc;
    (split; [reflexivity|]); eexists; split; reflexivity.
Qed.

Lemma py_or_truthy (x y : JVal) : truthy y = true -> truthy (py_or x y) = true.
Proof. intros H. unfold py_or. destruct (truthy x) eqn:T; auto. Qed.

(** With a URL in hand, the stage is: one ZIP operation; then, exactly when
    it failed with status 403, one status query; then, exactly when that
    query got a payload, one more ZIP operation. *)
Lemma zip_stage_exact (batch_id url : JVal) (dir : string) (result : Dict)
    (w : World) :
  truthy url = true ->
  exists e3,
    trace (snd (zip_stage h a batch_id url dir result w))
    = trace (snd (_zip_op_with_one_refresh h a (result_mode a) url (Some dir) w))
      ++ (if refresh_needed
               (fst (_zip_op_with_one_refresh h a (result_mode a) url (Some dir) w))
          then status_events h (api_key_override a)
                 (snd (_zip_op_with_one_refresh h a (result_mode a) url
                         (Some dir) w))
               ++ e3
          else [])
    /\ if refresh_needed
            (fst (_zip_op_with_one_refresh h a (result_mode a) url (Some dir) w))
          && payload_available h (api_key_override a)
               (snd (_zip_op_with_one_refresh h a (result_mode a) url (Some dir) w))
       then exists refreshed,
           fst (check_batch_status h batch_id (api_key_override a)
                  (snd (_zip_op_with_one_refresh h a (result_mode a) url
                          (Some dir) w)))
           = Done refreshed
           /\ one_fetch
                (py_str (h_py_repr h)
                   (py_or (PyDict.get refreshed "zip_download_url") url))
                e3
       else e3 = [].
Proof.
  intros U. unfold zip_stage. unfold bind at 1.
  destruct (_zip_op_with_one_refresh h a (result_mode a) url (Some dir) w)
    as [[zr| |] w1]; cbn [fst snd refresh_needed andb];
    try (exists []; now rewrite app_nil_r).
  destruct (negb (truthy (PyDict.get zr "success"))
            && is_int (PyDict.get zr "http_status") 403); cbn [andb];
    [|exists []; now rewrite app_nil_r].
  unfold bind at 1.
  destruct (status_exact batch_id (api_key_override a) w1) as (E2 & Out).
  destruct (status_raises h (api_key_override a) w1) as [e|].
  { destruct Out as [Er Pa]. rewrite Pa.
    destruct (check_batch_status h batch_id (api_key_override a) w1) as [out2 w2].
    cbn [fst snd] in *. subst out2. exists []. cbn [snd].
    rewrite E2, app_nil_r. auto. }
  destruct Out as (r & Er & S).
  destruct (check_batch_status h batch_id (api_key_override a) w1) as [out2 w2].
  cbn [fst snd] in *. subst out2. rewrite S.
  destruct (payload_available h (api_key_override a) w1).
  - rewrite (py_or_truthy _ _ U), bind_ret_world.
    destruct (zip_op_one h a (result_mode a)
                (py_or (PyDict.get r "zip_download_url") url) (Some dir) w2)
      as (e3 & E3 & F3).
    exists e3. rewrite E3, E2, app_assoc. split; [reflexivity|].
    exists r. auto.
  - exists []. cbn [ret snd]. rewrite E2, app_nil_r. auto.
Qed.

End StageFacts.

Lemma bind_pure_world {A B : Type} (c : M A) (k : A -> M B) (w : World) :
  (forall x w', snd (k x w') = w') -> snd (bind c k w) = snd (c w).
Proof.
  intros P. unfold bind. destruct (c w) as [[x| |] w']; [apply P | reflexivity ..].
Qed.

Lemma bind_step {A B : Type} (c : M A) (k : A -> M B) (w w' : World) (x : A) :
  c w = (Done x, w') -> bind c k w = k x w'.
Proof. intros E. unfold bind. now rewrite E. Qed.

Section WorkflowStage.

Variable h : Host.
Variable a : WorkflowArgs.

Lemma pointer_step (last_status : Dict) (w : World) :
  (if negb (truthy (PyDict.get last_status "zip_download_url"))
   then emit EvResolve ;;;
        ret (of_opt_str (zip_download_url
                           (_extract_zip_pointer (h_py_repr h) last_status)),
             py_or (of_opt_str (zip_presigned_expires_at
                                  (_extract_zip_pointer (h_py_repr h) last_status)))
                   (PyDict.get last_status "zip_presigned_expires_at"))
   else ret (PyDict.get last_status "zip_download_url",
             PyDict.get last_status "zip_presigned_expires_at")) w
  = (Done (workflow_zip_url h last_status, workflow_zip_expiry h last_status),
     if truthy (PyDict.get last_status "zip_download_url") then w
     else snd (emit EvResolve w)).
Proof.
  unfold workflow_zip_url, workflow_zip_expiry.
  destruct (truthy (PyDict.get last_status "zip_download_url")); reflexivity.
Qed.

(** Not timed out, in the manifest or extract mode and with a URL in
    hand, what follows the polling loop ends in the world the ZIP stage
    ends in. *)
Lemma after_poll_stage (batch_id : JVal) (deadline : Z) (last_status : Dict)
    (w1 : World) (dir : string * list JVal) :
  _resolve_output_dir h (output_dir a) (output_dir_strategy a) = Ok dir ->
  timed_out h deadline last_status w1 = false ->
  result_mode a <> ModeUrls ->
  truthy (workflow_zip_url h last_status) = true ->
  exists result,
    snd (after_poll h a batch_id deadline last_status w1)
    = snd (zip_stage h a batch_id (workflow_zip_url h last_status) (fst dir)
             result (stage_start h last_status w1)).
Proof.
  intros R T Mode U. unfold after_poll. rewrite R.
  rewrite (bind_step _ _ _ _ _ (pointer_step last_status w1)).
  rewrite (bind_step (lift (Ok dir)) _ _ _ dir eq_refl).
  unfold stage_start.
  set (ws := if truthy (PyDict.get last_status "zip_download_url") then w1
             else snd (emit EvResolve w1)).
  assert (Ck : n_clock ws = n_clock w1).
  { subst ws. now destruct (truthy (PyDict.get last_status "zip_download_url")). }
  rewrite (bind_step (monotonic h) _ ws (snd (monotonic h ws))
             (h_clock h (n_clock ws)) eq_refl).
  rewrite Ck. unfold timed_out in T. rewrite T. cbn [fst snd].
  rewrite U. cbn [negb].
  destruct (result_mode a); [now elim Mode | |]; eexists;
    apply bind_pure_world; reflexivity.
Qed.

End WorkflowStage.

Lemma stage_start_trace (h : Host) (last_status : Dict) (w : World) :
  exists evs,
    trace (stage_start h last_status w) = trace w ++ evs
    /\ count is_fetch evs = 0.
Proof.
  unfold stage_start.
  destruct (truthy (PyDict.get last_status "zip_download_url")); cbn [monotonic emit snd trace].
  - eexists. split; reflexivity.
  - rewrite <- app_assoc. eexists. split; reflexivity.
Qed.

Lemma status_events_no_fetch (h : Host) (o : option string) (w : World) :
  count is_fetch (status_events h o w) = 0.
Proof. unfold status_events. destruct (payload_available h o w); reflexivity. Qed.

(** C3, as stated, fails twice.  When the refreshed status carries no
    pointer, the operation is retried all the same, on the URL that was
    just refused; and when the status re-query itself fails, here by
    timing out, no pointer is re-resolved. *)
Lemma stale_pointer_counterexample :
  _extract_zip_pointer scalar_repr pointerless_body = mkPointer None None
  /\ trace (snd (process_rent_roll_workflow stale_pointer_host
                   (sample_args ModeManifest) 5 world0))
     = [EvClock 0; EvStatusCall; EvResolve; EvClock 10;
        EvFetch legacy_zip_url;
        EvGet (mkRequest legacy_zip_url (bearer "secret"));
        EvStatusCall; EvResolve;
        EvFetch legacy_zip_url;
        EvGet (mkRequest legacy_zip_url (bearer "secret"))]
  /\ trace (snd (process_rent_roll_workflow failed_requery_host
                   (sample_args ModeManifest) 5 world0))
     = [EvClock 0; EvStatusCall; EvResolve; EvClock 10;
        EvFetch legacy_zip_url;
        EvGet (mkRequest legacy_zip_url (bearer "secret"));
        EvStatusCall].
Proof. repeat split; vm_compute; reflexivity. Qed.

(** C3 (amended): every run of the workflow calls the ZIP fetcher at most
    twice.  In the manifest and extract modes, when the polling loop was
    left with a status that carries a ZIP URL, the run has not timed out
    and the output directory can be resolved, the run goes on as follows
    and ends there.  No fetcher call has been made so far.  The ZIP
    operation is done once, on that URL.  Exactly when its request is
    answered with HTTP status 403, the status is queried once more, and
    the resolver runs once more exactly when that query yields a payload.
    Exactly when it does, the ZIP operation is done once more, on the URL
    of the refreshed status or, when the refreshed status carries none,
    on the previous URL.  Nothing follows it: a retried operation that
    fails is not retried. *)
Theorem one_refresh_at_most_two_fetches (h : Host) (a : WorkflowArgs) :
  (forall fuel, fetches_at_most 2 (process_rent_roll_workflow h a fuel))
  /\ (forall fuel w0 w1 last_status dir,
         PyStr.truthy (effective_email h a) = true ->
         truthy (PyDict.get (h_upload_rent_rolls h (effective_email h a)) "success")
         = true ->
         truthy (PyDict.get (h_upload_rent_rolls h (effective_email h a)) "batchId")
         = true ->
         poll h a fuel
              (PyDict.get (h_upload_rent_rolls h (effective_email h a)) "batchId")
              (h_clock h (n_clock w0) + timeout_seconds a)
              (snd (monotonic h w0))
         = (Done (PollBreak last_status), w1) ->
         _resolve_output_dir h (output_dir a) (output_dir_strategy a) = Ok dir ->
         timed_out h (h_clock h (n_clock w0) + timeout_seconds a) last_status w1
         = false ->
         result_mode a <> ModeUrls ->
         truthy (workflow_zip_url h last_status) = true ->
         exists pre e1 e3,
           trace (snd (process_rent_roll_workflow h a fuel w0))
           = trace w0 ++ pre ++ e1
             ++ (if refresh_needed (fst (first_zip_op h a last_status (fst dir) w1))
                 then status_events h (api_key_override a)
                        (snd (first_zip_op h a last_status (fst dir) w1))
                      ++ e3
                 else [])
           /\ count is_fetch pre = 0
           /\ one_fetch (py_str (h_py_repr h) (workflow_zip_url h last_status)) e1
           /\ refresh_needed (fst (first_zip_op h a last_status (fst dir) w1))
              = answered_403
                  (fetch_reply h
                     (py_str (h_py_repr h) (workflow_zip_url h last_status))
                     (api_key_override a)
                     (op_temp_dir (result_mode a) (Some (fst dir)))
                     (stage_start h last_status w1))
           /\ if refresh_needed (fst (first_zip_op h a last_status (fst dir) w1))
                 && payload_available h (api_key_override a)
                      (snd (first_zip_op h a last_status (fst dir) w1))
              then exists refreshed,
                  fst (check_batch_status h
                         (PyDict.get (h_upload_rent_rolls h (effective_email h a))
                            "batchId")
                         (api_key_override a)
                         (snd (first_zip_op h a last_status (fst dir) w1)))
                  = Done refreshed
                  /\ one_fetch
                       (py_str (h_py_repr h)
                          (py_or (PyDict.get refreshed "zip_download_url")
                                 (workflow_zip_url h last_status)))
                       e3
              else e3 = []).
Proof.
  split; [apply fam_workflow|].
  intros fuel w0 w1 last_status dir Email Up Id Poll R T Mode U.
  assert (W : process_rent_roll_workflow h a fuel w0
              = after_poll h a
                  (PyDict.get (h_upload_rent_rolls h (effective_email h a)) "batchId")
                  (h_clock h (n_clock w0) + timeout_seconds a) last_status w1).
  { unfold process_rent_roll_workflow. cbv zeta. rewrite Email, Up, Id. cbn [negb].
    rewrite (bind_step (monotonic h) _ w0 (snd (monotonic h w0))
               (h_clock h (n_clock w0)) eq_refl).
    now rewrite (bind_step _ _ _ _ _ Poll). }
  rewrite W.
  destruct (after_poll_stage h a
              (PyDict.get (h_upload_rent_rolls h (effective_email h a)) "batchId")
              _ _ _ _ R T Mode U) as [result ->].
  destruct (zip_stage_exact h a
              (PyDict.get (h_upload_rent_rolls h (effective_email h a)) "batchId")
              (workflow_zip_url h last_status) (fst dir) result
              (stage_start h last_status w1) U) as (e3 & E3 & Retry).
  destruct (zip_op_one h a (result_mode a) (workflow_zip_url h last_status)
              (Some (fst dir)) (stage_start h last_status w1)) as (e1 & E1 & F1).
  destruct (stage_start_trace h last_status w1) as (s & Es & Fs).
  destruct (fam_poll h a fuel
              (PyDict.get (h_upload_rent_rolls h (effective_email h a)) "batchId")
              (h_clock h (n_clock w0) + timeout_seconds a) (snd (monotonic h w0)))
    as (p & Ep & Fp).
  rewrite Poll in Ep. cbn [snd monotonic trace] in Ep.
  exists ([EvClock (h_clock h (n_clock w0))] ++ p ++ s), e1, e3.
  split; [|split; [|split; [exact F1|split; [apply refresh_iff_403 | exact Retry]]]].
  - rewrite E3. unfold first_zip_op. rewrite E1, Es, Ep.
    now rewrite <- !app_assoc.
  - rewrite !count_app, Fs. simpl in Fp. unfold count at 1. simpl. lia.
Qed.

(** C3, witness: a manifest run in which the storage refuses the first
    URL with status 403 and the status re-query gives a fresh one: the
    fetcher is called twice, the second time on the fresh URL. *)
Lemma one_refresh_at_most_two_fetches_witness :
  count is_fetch
    (trace (snd (process_rent_roll_workflow refreshing_host
                   (sample_args ModeManifest) 5 world0)))
  = 2
  /\ In (EvFetch fresh_zip_url)
        (trace (snd (process_rent_roll_workflow refreshing_host
                       (sample_args ModeManifest) 5 world0))).
Proof.
  destruct (proj2 (one_refresh_at_most_two_fetches refreshing_host
                     (sample_args ModeManifest))
              5 world0
              (snd (poll refreshing_host (sample_args ModeManifest) 5 (JStr "b-1") 25
                      (snd (monotonic refreshing_host world0))))
              (status_result (JStr "b-1") (sample_status_body "Complete")
                 (_extract_zip_pointer scalar_repr (sample_status_body "Complete")))
              ("/tmp/radix-rent-roll-x", [])
              eq_refl eq_refl eq_refl eq_refl eq_refl eq_refl
              ltac:(discriminate) eq_refl)
    as (pre & e1 & e3 & E & Fp & F1 & R403 & Retry).
  match type of R403 with _ = ?rhs =>
    assert (A : rhs = true) by (vm_compute; reflexivity); rewrite A in R403
  end.
  rewrite R403 in E, Retry.
  match type of Retry with context [payload_available ?h ?o ?w] =>
    assert (Pa : payload_available h o w = true) by (vm_compute; reflexivity);
    rewrite Pa in Retry
  end.
  cbn [andb] in Retry. destruct Retry as (refreshed & Q & F3).
  vm_compute in Q. injection Q as <-.
  change (one_fetch fresh_zip_url e3) in F3.
  rewrite E. split.
  - rewrite !count_app, Fp, status_events_no_fetch.
    destruct F1 as (_ & -> & _). destruct F3 as (_ & -> & _). reflexivity.
  - repeat (apply in_or_app; right).
    destruct F3 as (Hd & _). destruct e3; [discriminate|]. injection Hd as ->.
    now left.
Defined.

(** ** The polling deadline *)

Section DeadlineFacts.

Variable h : Host.
Variable a : WorkflowArgs.


Lemma status_keeps_clock (batch_id : JVal) (o : option string) (w : World) :
  n_clock (snd (check_batch_status h batch_id o w)) = n_clock w.
Proof.
  unfold check_batch_status, bind, emit, ret, raise, lift, status_get.
  destruct (_get_api_key h o); simpl; [reflexivity|].
  destruct (h_status_http h (n_status w)) as [|msg| |code text json]; simpl;
    try reflexivity.
  destruct (code =? 404)%Z; simpl; [reflexivity|].
  destruct (negb _); simpl; [reflexivity|].
  destruct json as [body|]; [|reflexivity].
  destruct (_unwrap_api_payload body); reflexivity.
Qed.

(** A loop left by [break] with a status that is not terminal was left at
    the deadline test: the last reading of the clock is at or past the
    deadline. *)
Lemma poll_deadline (fuel : nat) (batch_id : JVal) (deadline : Z) :
  forall w w1 last_status,
    poll h a fuel batch_id deadline w = (Done (PollBreak last_status), w1) ->
    nonterminal h last_status ->
    exists k, n_clock w1 = S k /\ (deadline <= h_clock h k)%Z.
Proof.
  induction fuel as [|fuel IH]; intros w w1 last_status H N; [discriminate|].
  cbn [poll] in H. unfold bind at 1 in H.
  pose proof (status_keeps_clock batch_id (api_key_override a) w) as C.
  destruct (check_batch_status h batch_id (api_key_override a) w)
    as [[status_resp| |] w'] eqn:E; try discriminate.
  cbn [snd] in C.
  destruct (negb (truthy (PyDict.get status_resp "success"))); [discriminate|].
  destruct (_is_terminal_status (h_py_repr h)
              (PyDict.get_default status_resp "status" (JStr ""))) eqn:T.
  { injection H as <- <-. unfold nonterminal in N. congruence. }
  unfold bind at 1, monotonic at 1 in H.
  destruct (deadline <=? h_clock h (n_clock w'))%Z eqn:D.
  - injection H as <- <-. exists (n_clock w'). split; [reflexivity|].
    now apply Z.leb_le.
  - unfold bind at 1, emit at 1 in H. exact (IH _ _ _ H N).
Qed.

Lemma get_timed_out (result : Dict) :
  let timed_out :=
    PyDict.set
      (PyDict.set (PyDict.set result "success" (JBool false))
                  "error" (JStr "Workflow timed out"))
      "details"
      (JStr "Batch did not reach a terminal state within timeout_seconds.") in
  PyDict.get timed_out "success" = JBool false
  /\ PyDict.get timed_out "error" = JStr "Workflow timed out".
Proof.
  cbv zeta. split.
  - rewrite !get_set_other by discriminate. apply get_set_same.
  - rewrite get_set_other by discriminate. apply get_set_same.
Qed.

(** Past the deadline with a status that is not terminal, what follows the
    loop returns the timed-out result. *)
Lemma after_poll_timeout (batch_id : JVal) (deadline : Z) (last_status : Dict)
    (w1 : World) (dir : string * list JVal) :
  nonterminal h last_status ->
  (deadline <= h_clock h (n_clock w1))%Z ->
  _resolve_output_dir h (output_dir a) (output_dir_strategy a) = Ok dir ->
  exists result w2,
    after_poll h a batch_id deadline last_status w1 = (Done result, w2)
    /\ PyDict.get result "success" = JBool false
    /\ PyDict.get result "error" = JStr "Workflow timed out".
Proof.
  intros N D R. unfold after_poll. rewrite R. unfold nonterminal in N.
  rewrite N. cbn [negb andb]. apply Z.leb_le in D.
  destruct w1 as [ns nc ng tr]. cbn [n_clock] in D.
  destruct (negb (truthy (PyDict.get last_status "zip_download_url")));
    cbv beta iota zeta delta [bind emit ret lift monotonic fst snd n_clock];
    rewrite D; cbn [andb]; eexists; eexists;
    (split; [reflexivity | apply get_timed_out]).
Qed.

End DeadlineFacts.

(** C5: with a clock that never goes back, when the polling loop of a run
    is left by [break] with a status that is not terminal, that is, at its
    deadline test without a terminal status having been seen, and the
    output directory can be resolved, the workflow returns a result whose
    [success] is false and whose [error] is ["Workflow timed out"], not
    ["Network error"]. *)
Theorem polling_deadline_times_out (h : Host) (a : WorkflowArgs) (fuel : nat)
    (w0 w1 : World) (last_status : Dict) (dir : string * list JVal) :
  (forall i j, i <= j -> (h_clock h i <= h_clock h j)%Z) ->
  PyStr.truthy (effective_email h a) = true ->
  truthy (PyDict.get (h_upload_rent_rolls h (effective_email h a)) "success")
  = true ->
  truthy (PyDict.get (h_upload_rent_rolls h (effective_email h a)) "batchId")
  = true ->
  poll h a fuel
       (PyDict.get (h_upload_rent_rolls h (effective_email h a)) "batchId")
       (h_clock h (n_clock w0) + timeout_seconds a)
       (snd (monotonic h w0))
  = (Done (PollBreak last_status), w1) ->
  nonterminal h last_status ->
  _resolve_output_dir h (output_dir a) (output_dir_strategy a) = Ok dir ->
  exists result w2,
    process_rent_roll_workflow h a fuel w0 = (Done result, w2)
    /\ PyDict.get result "success" = JBool false
    /\ PyDict.get result "error" = JStr "Workflow timed out"
    /\ PyDict.get result "error" <> JStr "Network error".
Proof.
  intros Mono Email Up Id Poll N R.
  destruct (poll_deadline h a fuel _ _ _ _ _ Poll N) as (k & Ek & Dk).
  assert (D : (h_clock h (n_clock w0) + timeout_seconds a
               <= h_clock h (n_clock w1))%Z).
  { rewrite Ek. specialize (Mono k (S k) (Nat.le_succ_diag_r k)). lia. }
  destruct (after_poll_timeout h a
              (PyDict.get (h_upload_rent_rolls h (effective_email h a)) "batchId")
              _ last_status w1 dir N D R) as (result & w2 & E & Ok' & Er).
  exists result, w2. split; [|split; [exact Ok' | split; [exact Er|]]].
  - unfold process_rent_roll_workflow. cbv zeta.
    rewrite Email, Up, Id. cbn [negb].
    unfold bind at 1. unfold monotonic at 1. cbn [fst].
    unfold bind at 1.
    change (mkWorld (n_status w0) (S (n_clock w0)) (n_get w0)
              (trace w0 ++ [EvClock (h_clock h (n_clock w0))]))
      with (snd (monotonic h w0)).
    rewrite Poll. exact E.
  - rewrite Er. discriminate.
Qed.

(** C5, witness: a batch that stays in ["processing"] while the clock
    passes the deadline of 25 ticks. *)
Lemma polling_deadline_times_out_witness :
  exists result w2,
    process_rent_roll_workflow sample_host (sample_args ModeExtract) 10 world0
    = (Done result, w2)
    /\ PyDict.get result "success" = JBool false
    /\ PyDict.get result "error" = JStr "Workflow timed out"
    /\ PyDict.get result "error" <> JStr "Network error".
Proof.
  refine (polling_deadline_times_out sample_host (sample_args ModeExtract) 10
            world0
            (snd (poll sample_host (sample_args ModeExtract) 10 (JStr "b-1") 25
                    (snd (monotonic sample_host world0))))
            (status_result (JStr "b-1") (sample_status_body "processing")
               (_extract_zip_pointer scalar_repr
                  (sample_status_body "processing")))
            ("/tmp/radix-rent-roll-x", []) _ eq_refl eq_refl eq_refl _ _ eq_refl).
  - intros i j L. unfold sample_host, host_with_status. cbn [h_clock]. lia.
  - vm_compute. reflexivity.
  - vm_compute. reflexivity.
Defined.

(** * Further properties *)

(** ** Status normalisation *)

Lemma isspace_lower (c : ascii) :
  PyStr.isspace (PyStr.lower_char c) = PyStr.isspace c.
Proof. destruct c as [[] [] [] [] [] [] [] []]; reflexivity. Qed.

Lemma lower_char_idem (c : ascii) :
  PyStr.lower_char (PyStr.lower_char c) = PyStr.lower_char c.
Proof. destruct c as [[] [] [] [] [] [] [] []]; reflexivity. Qed.

Lemma lower_idem (s : string) : PyStr.lower (PyStr.lower s) = PyStr.lower s.
Proof.
  induction s as [|c s IH]; simpl; [reflexivity|].
  now rewrite lower_char_idem, IH.
Qed.

Lemma lstrip_lower (s : string) :
  PyStr.lstrip (PyStr.lower s) = PyStr.lower (PyStr.lstrip s).
Proof.
  induction s as [|c s IH]; simpl; [reflexivity|].
  rewrite isspace_lower. destruct (PyStr.isspace c); [exact IH | reflexivity].
Qed.

Lemma rstrip_lower (s : string) :
  PyStr.rstrip (PyStr.lower s) = PyStr.lower (PyStr.rstrip s).
Proof.
  induction s as [|c s IH]; simpl; [reflexivity|].
  rewrite IH, isspace_lower.
  destruct (PyStr.rstrip s); simpl; [|reflexivity].
  destruct (PyStr.isspace c); reflexivity.
Qed.

Lemma strip_lower (s : string) :
  PyStr.strip (PyStr.lower s) = PyStr.lower (PyStr.strip s).
Proof. unfold PyStr.strip. now rewrite lstrip_lower, rstrip_lower. Qed.

Lemma rstrip_cons (c : ascii) (s : string) :
  PyStr.rstrip (String c s)
  = match PyStr.rstrip s with
    | EmptyString => if PyStr.isspace c then EmptyString else String c EmptyString
    | r => String c r
    end.
Proof. reflexivity. Qed.

Lemma rstrip_idem (s : string) : PyStr.rstrip (PyStr.rstrip s) = PyStr.rstrip s.
Proof.
  induction s as [|c s IH]; [reflexivity|].
  rewrite rstrip_cons.
  destruct (PyStr.rstrip s) as [|d r] eqn:E.
  - destruct (PyStr.isspace c) eqn:Sp; [reflexivity|].
    rewrite rstrip_cons. simpl. now rewrite Sp.
  - rewrite rstrip_cons, IH. reflexivity.
Qed.

Lemma lstrip_no_lead (s : string) : no_lead (PyStr.lstrip s).
Proof.
  induction s as [|c s IH]; simpl; [exact I|].
  destruct (PyStr.isspace c) eqn:E; [exact IH | exact E].
Qed.

Lemma no_lead_lstrip (s : string) : no_lead s -> PyStr.lstrip s = s.
Proof. destruct s as [|c s]; simpl; [reflexivity|]. now intros ->. Qed.

Lemma rstrip_no_lead (s : string) : no_lead s -> no_lead (PyStr.rstrip s).
Proof.
  destruct s as [|c s]; simpl; [exact id|]. intros H.
  destruct (PyStr.rstrip s); [now rewrite H | exact H].
Qed.

Lemma strip_idem (s : string) : PyStr.strip (PyStr.strip s) = PyStr.strip s.
Proof.
  unfold PyStr.strip.
  rewrite (no_lead_lstrip (PyStr.rstrip (PyStr.lstrip s))).
  - apply rstrip_idem.
  - apply rstrip_no_lead, lstrip_no_lead.
Qed.

Lemma lstrip_blank (pre s : string) :
  blank pre = true -> PyStr.lstrip (pre ++ s) = PyStr.lstrip s.
Proof.
  induction pre as [|c pre IH]; simpl; [reflexivity|].
  intros H. apply andb_prop in H. destruct H as [-> H]. now apply IH.
Qed.

Lemma rstrip_blank (s post : string) :
  blank post = true -> PyStr.rstrip (s ++ post) = PyStr.rstrip s.
Proof.
  intros H. induction s as [|c s IH]; simpl.
  - induction post as [|d post IH]; simpl; [reflexivity|].
    simpl in H. apply andb_prop in H. destruct H as [-> H].
    now rewrite (IH H).
  - now rewrite IH.
Qed.

Lemma strip_blank_r (s post : string) :
  blank post = true -> PyStr.strip (s ++ post) = PyStr.strip s.
Proof.
  intros H. unfold PyStr.strip. induction s as [|c s IH]; simpl.
  - replace (PyStr.lstrip post) with "".
    + reflexivity.
    + clear -H. induction post as [|d post IH]; simpl; [reflexivity|].
      simpl in H. apply andb_prop in H. destruct H as [-> H]. now apply IH.
  - destruct (PyStr.isspace c); [exact IH|].
    change (String c (s ++ post)) with (String c s ++ post)%string.
    now apply rstrip_blank.
Qed.

Lemma strip_padded (pre s post : string) :
  blank pre = true -> blank post = true ->
  PyStr.strip (pre ++ s ++ post) = PyStr.strip s.
Proof.
  intros Hpre Hpost. unfold PyStr.strip. rewrite (lstrip_blank _ _ Hpre).
  now apply strip_blank_r.
Qed.

(** X1: the status comparison ignores white space around the status and
    the case of its letters: a status string padded with white space, or
    put in lower case, normalises to the same text; normalising a
    normalised status changes nothing; and the terminal test gives the
    same answer for the padded lower-case string as for the string. *)
Theorem status_normalisation_stable (py_repr : JVal -> string)
    (pre s post : string) (v : JVal) :
  blank pre = true -> blank post = true ->
  _normalize_status py_repr (JStr (pre ++ s ++ post))
  = _normalize_status py_repr (JStr s)
  /\ _normalize_status py_repr (JStr (PyStr.lower s))
     = _normalize_status py_repr (JStr s)
  /\ _normalize_status py_repr (JStr (_normalize_status py_repr v))
     = _normalize_status py_repr v
  /\ _is_terminal_status py_repr (JStr (pre ++ PyStr.lower s ++ post))
     = _is_terminal_status py_repr (JStr s).
Proof.
  intros Hpre Hpost.
  assert (N : forall t, _normalize_status py_repr (JStr t)
                        = PyStr.lower (PyStr.strip t))
    by reflexivity.
  repeat split.
  - rewrite !N. now rewrite strip_padded.
  - rewrite !N. now rewrite strip_lower, lower_idem.
  - rewrite N. destruct v; try reflexivity;
      unfold _normalize_status; now rewrite strip_lower, strip_idem, lower_idem.
  - unfold _is_terminal_status. rewrite !N.
    now rewrite strip_padded, strip_lower, lower_idem.
Qed.

(** X1, witness: ["  completed "] is terminal as ["Completed"] is. *)
Lemma status_normalisation_stable_witness :
  _is_terminal_status scalar_repr (JStr ("  " ++ PyStr.lower "Completed" ++ " "))
  = _is_terminal_status scalar_repr (JStr "Completed").
Proof.
  apply (status_normalisation_stable scalar_repr "  " "Completed" " " JNull);
    reflexivity.
Defined.

(** ** More on the pattern matcher *)

Lemma split_no_sep (sep : ascii) (s : string) :
  PyStr.has_char sep s = false -> PyStr.split sep s = [s].
Proof.
  induction s as [|c s IH]; simpl; [reflexivity|].
  intros H. apply orb_false_elim in H. destruct H as [-> H].
  now rewrite (IH H).
Qed.

Lemma substring_has_char (s : string) :
  forall n m c t, substring n m s = String c t -> PyStr.has_char c s = true.
Proof.
  induction s as [|a s IH]; intros n m c t H.
  - destruct n, m; discriminate.
  - destruct n as [|n].
    + destruct m as [|m]; [discriminate|]. simpl in H.
      injection H as -> _. simpl. now rewrite Ascii.eqb_refl.
    + simpl in H. simpl. rewrite (IH _ _ _ _ H). apply orb_true_r.
Qed.

Lemma endswith_has_char (s t : string) (c : ascii) :
  PyStr.endswith s (String c t) = true -> PyStr.has_char c s = true.
Proof.
  unfold PyStr.endswith. intros H. apply andb_prop in H. destruct H as [_ H].
  apply String.eqb_eq in H. exact (substring_has_char _ _ _ _ _ H).
Qed.

Lemma no_slash_relative (s : string) :
  PyStr.has_char "/" s = false -> PyStr.startswith s "/" = false.
Proof.
  destruct s as [|c s]; [reflexivity|]. rewrite startswith_char. simpl.
  intros H. now apply orb_false_elim in H.
Qed.

Lemma parts_single (pat : string) :
  PyStr.has_char "/" pat = false -> pat <> "" -> pat <> "." ->
  PurePosixPath.parts pat = [pat] /\ PurePosixPath.root pat = "".
Proof.
  intros Hs He Hd.
  assert (R : PurePosixPath.root pat = "")
    by now apply relative_root, no_slash_relative.
  split; [|exact R].
  unfold PurePosixPath.parts, PurePosixPath.tail. rewrite R, (split_no_sep _ _ Hs).
  simpl. unfold PurePosixPath.keep_segment.
  destruct pat as [|c pat]; [now elim He|]. cbn [PyStr.truthy andb].
  destruct (String.eqb (String c pat) ".") eqn:E; [|reflexivity].
  apply String.eqb_eq in E. contradiction.
Qed.

Lemma has_char_lstrip (a b : ascii) (s : string) :
  PyStr.has_char a s = false -> PyStr.has_char a (PyStr.lstrip_char b s) = false.
Proof.
  induction s as [|c s IH]; simpl; [reflexivity|].
  intros H. apply orb_false_elim in H. destruct H as [Hc H].
  destruct (Ascii.eqb c b); [now apply IH|]. simpl. now rewrite Hc, H.
Qed.

Lemma has_char_replaced (a b : ascii) (s : string) :
  a <> b -> PyStr.has_char a (PyStr.replace_char a b s) = false.
Proof.
  intros Hab. induction s as [|c s IH]; simpl; [reflexivity|].
  rewrite IH, orb_false_r.
  destruct (Ascii.eqb c a) eqn:E; [|exact E].
  apply Ascii.eqb_neq. congruence.
Qed.

Lemma replace_absent (a b : ascii) (s : string) :
  PyStr.has_char a s = false -> PyStr.replace_char a b s = s.
Proof.
  induction s as [|c s IH]; simpl; [reflexivity|].
  intros H. apply orb_false_elim in H. destruct H as [-> H]. now rewrite IH.
Qed.

Lemma lstrip_char_idem (a : ascii) (s : string) :
  PyStr.lstrip_char a (PyStr.lstrip_char a s) = PyStr.lstrip_char a s.
Proof.
  induction s as [|c s IH]; simpl; [reflexivity|].
  destruct (Ascii.eqb c a) eqn:E; [exact IH|]. simpl. now rewrite E.
Qed.

Lemma norm_entry_idem (s : string) : norm_entry (norm_entry s) = norm_entry s.
Proof.
  unfold norm_entry.
  rewrite (replace_absent "\" "/" (PyStr.lstrip_char "/" _)).
  - apply lstrip_char_idem.
  - apply has_char_lstrip, has_char_replaced. discriminate.
Qed.

(** X2: a pattern without a slash (other than the empty one, ["."] and
    ["**"]) is compared with the last segment of the entry name only,
    whatever directories come before it; an entry name without any segment
    does not match. *)
Theorem slashless_pattern_matches_file_name (cm : string -> ascii -> bool)
    (name p : string) :
  PyStr.has_char "/" (norm_entry p) = false ->
  norm_entry p <> "" -> norm_entry p <> "." -> norm_entry p <> "**" ->
  _match_zip_patterns cm name [p]
  = Ok match rev (PurePosixPath.parts (norm_entry name)) with
       | [] => false
       | last :: _ => Fnmatch.fnmatchcase cm last (norm_entry p)
       end.
Proof.
  intros Hs He Hd Hg. rewrite match_single.
  destruct (PyStr.truthy p) eqn:T.
  2:{ apply truthy_false_iff in T. subst p. now elim He. }
  unfold match_one.
  destruct (String.eqb (norm_entry p) "**") eqn:E1.
  { apply String.eqb_eq in E1. contradiction. }
  destruct (String.eqb (norm_entry p) "**/*") eqn:E2.
  { apply String.eqb_eq in E2. rewrite E2 in Hs. discriminate. }
  destruct (PyStr.endswith (norm_entry p) "/**") eqn:E3.
  { apply endswith_has_char in E3. congruence. }
  cbn [orb andb].
  destruct (parts_single _ Hs He Hd) as [P R].
  unfold PurePosixPath.pmatch. rewrite P, R. cbn [PyStr.truthy andb].
  destruct (PurePosixPath.parts (norm_entry name)) as [|x xs]; [reflexivity|].
  cbn [List.length Nat.ltb Nat.leb]. cbn [rev app].
  destruct (rev (x :: xs)) as [|l ls] eqn:Er.
  - apply (f_equal (@List.length _)) in Er. rewrite length_rev in Er. discriminate.
  - simpl in Er. rewrite Er. cbn [PurePosixPath.zip_all].
    destruct ls; now rewrite andb_true_r.
Qed.

(** X2, witness: ["*.csv"] against a file two directories down. *)
Lemma slashless_pattern_matches_file_name_witness :
  _match_zip_patterns plain_class "processed-csv/nested/b.csv" ["*.csv"]
  = Ok (Fnmatch.fnmatchcase plain_class "b.csv" "*.csv").
Proof.
  apply (slashless_pattern_matches_file_name plain_class
           "processed-csv/nested/b.csv" "*.csv");
    [reflexivity | discriminate | discriminate | discriminate].
Defined.

Lemma match_single_normalised (cm : string -> ascii -> bool) (name p : string) :
  norm_entry p <> "" ->
  _match_zip_patterns cm name [norm_entry p] = _match_zip_patterns cm name [p].
Proof.
  intros H. rewrite !match_single.
  assert (Tp : PyStr.truthy p = true).
  { destruct p; [now elim H | reflexivity]. }
  assert (Tn : PyStr.truthy (norm_entry p) = true).
  { destruct (norm_entry p); [now elim H | reflexivity]. }
  rewrite Tp, Tn. unfold match_one. now rewrite norm_entry_idem.
Qed.

(** X3: names and patterns are compared after the same normalisation
    (backslashes as slashes, leading slashes dropped): the answer, an
    exception included, is the same for an entry name and for its
    normalised form, and the same when a pattern of the list that does not
    normalise to the empty string is replaced by its normalised form. *)
Theorem matcher_normalises_names_and_patterns (cm : string -> ascii -> bool)
    (name p : string) (before after : list string) :
  norm_entry p <> "" ->
  _match_zip_patterns cm (norm_entry name) (before ++ p :: after)
  = _match_zip_patterns cm name (before ++ p :: after)
  /\ _match_zip_patterns cm name (before ++ norm_entry p :: after)
     = _match_zip_patterns cm name (before ++ p :: after).
Proof.
  intros H. split.
  - rewrite !match_zip_patterns_loop. now rewrite norm_entry_idem.
  - induction before as [|q before IH]; cbn [app].
    + rewrite (match_cons cm name (norm_entry p)), (match_cons cm name p).
      now rewrite match_single_normalised.
    + rewrite (match_cons cm name q (before ++ norm_entry p :: after)),
              (match_cons cm name q (before ++ p :: after)).
      now rewrite IH.
Qed.

(** X3, witness: a name and a pattern written with backslashes and a
    leading separator. *)
Lemma matcher_normalises_names_and_patterns_witness :
  _match_zip_patterns plain_class (norm_entry "\processed-csv\a.csv")
    (["x"] ++ "/processed-csv\**" :: [])
  = _match_zip_patterns plain_class "\processed-csv\a.csv"
      (["x"] ++ "/processed-csv\**" :: [])
  /\ _match_zip_patterns plain_class "\processed-csv\a.csv"
       (["x"] ++ norm_entry "/processed-csv\**" :: [])
     = _match_zip_patterns plain_class "\processed-csv\a.csv"
         (["x"] ++ "/processed-csv\**" :: []).
Proof.
  apply (matcher_normalises_names_and_patterns plain_class
           "\processed-csv\a.csv" "/processed-csv\**" ["x"] []).
  discriminate.
Defined.

(** ** More on the name check *)

Lemma split_nonempty (sep : ascii) (s : string) : PyStr.split sep s <> [].
Proof.
  destruct s as [|c s]; simpl; [discriminate|].
  destruct (Ascii.eqb c sep); [discriminate|].
  destruct (PyStr.split sep s); discriminate.
Qed.

(** What [split] leaves in a segment: no separator, and no character the
    whole string does not have. *)
Lemma split_segments (sep a : ascii) (s : string) :
  Forall (fun x => PyStr.has_char sep x = false
                   /\ (PyStr.has_char a s = false -> PyStr.has_char a x = false))
         (PyStr.split sep s).
Proof.
  induction s as [|c s IH]; simpl.
  - constructor; [split; reflexivity | constructor].
  - destruct (Ascii.eqb c sep) eqn:E.
    + constructor; [split; reflexivity|].
      eapply Forall_impl; [|exact IH]. intros x [H1 H2]. split; [exact H1|].
      intros H. apply orb_false_elim in H. now apply H2.
    + destruct (PyStr.split sep s) as [|x xs] eqn:Sp;
        [now elim (split_nonempty sep s)|].
      inversion IH as [|? ? [H1 H2] Hxs]; subst.
      constructor.
      * split; [simpl; now rewrite E, H1|].
        intros H. apply orb_false_elim in H. destruct H as [Hc H].
        simpl. now rewrite Hc, (H2 H).
      * eapply Forall_impl; [|exact Hxs]. intros y [K1 K2]. split; [exact K1|].
        intros H. apply orb_false_elim in H. now apply K2.
Qed.

Lemma split_app_sep (sep : ascii) (x rest : string) :
  PyStr.has_char sep x = false ->
  PyStr.split sep (x ++ String sep rest) = x :: PyStr.split sep rest.
Proof.
  induction x as [|c x IH]; simpl.
  - now rewrite Ascii.eqb_refl.
  - intros H. apply orb_false_elim in H. destruct H as [-> H].
    now rewrite (IH H).
Qed.

Lemma split_join (sep : ascii) (ps : list string) :
  ps <> [] -> Forall (fun x => PyStr.has_char sep x = false) ps ->
  PyStr.split sep (PyStr.join (String sep "") ps) = ps.
Proof.
  unfold PyStr.join. induction ps as [|x ps IH]; [congruence|].
  intros _ H. inversion H as [|? ? Hx Hps]; subst.
  destruct ps as [|y ps].
  - simpl. now apply split_no_sep.
  - change (String.concat (String sep "") (x :: y :: ps))
      with (x ++ String sep (String.concat (String sep "") (y :: ps)))%string.
    rewrite (split_app_sep _ _ _ Hx). f_equal. apply IH; [discriminate | exact Hps].
Qed.

Lemma filter_keeps_all {A : Type} (f : A -> bool) (l : list A) :
  Forall (fun x => f x = true) l -> filter f l = l.
Proof.
  induction 1 as [|x l Hx _ IH]; simpl; [reflexivity|]. now rewrite Hx, IH.
Qed.

Lemma filter_all_true {A : Type} (f : A -> bool) (l : list A) :
  Forall (fun x => f x = true) (filter f l).
Proof.
  induction l as [|x l IH]; simpl; [constructor|].
  destruct (f x) eqn:E; [now constructor | exact IH].
Qed.

Lemma Forall_in_filter {A : Type} (P : A -> Prop) (f : A -> bool) (l : list A) :
  Forall P l -> Forall P (filter f l).
Proof.
  induction 1 as [|x l Hx _ IH]; simpl; [constructor|].
  destruct (f x); [now constructor | exact IH].
Qed.

Lemma join_relative (ps : list string) :
  Forall (fun x => PurePosixPath.keep_segment x = true) ps ->
  Forall (fun x => PyStr.has_char "/" x = false) ps ->
  PyStr.startswith (PyStr.join "/" ps) "/" = false.
Proof.
  intros K N. destruct ps as [|x ps]; [reflexivity|].
  inversion K as [|? ? Kx _]; inversion N as [|? ? Nx _]; subst.
  destruct x as [|c x]; [discriminate|].
  simpl in Nx. apply orb_false_elim in Nx. destruct Nx as [Nc _].
  unfold PyStr.join.
  destruct ps as [|y ps]; cbn [String.concat append]; now rewrite startswith_char.
Qed.

(** Joining the kept segments of a relative path and parsing the result
    again gives the same segments. *)
Lemma parts_join (ps : list string) :
  Forall (fun x => PurePosixPath.keep_segment x = true) ps ->
  Forall (fun x => PyStr.has_char "/" x = false) ps ->
  PurePosixPath.parts (PyStr.join "/" ps) = ps.
Proof.
  intros K N. unfold PurePosixPath.parts.
  rewrite (relative_root _ (join_relative ps K N)).
  unfold PurePosixPath.tail.
  destruct ps as [|x ps]; [reflexivity|].
  rewrite split_join; [now apply filter_keeps_all | discriminate | exact N].
Qed.

(** X4: a sanitised name is made of the segments of the stored name: it
    parses to the same parts, is the join of its parts, is relative, and
    none of its segments is empty, ["."] or [".."] or holds a slash or a
    backslash. *)
Theorem safe_name_is_clean (name s : string) :
  _safe_zip_member_name name = Some s ->
  PurePosixPath.parts s = PurePosixPath.parts (PyStr.replace_char "\" "/" name)
  /\ s = PyStr.join "/" (PurePosixPath.parts s)
  /\ PyStr.startswith s "/" = false
  /\ Forall (fun seg => seg <> "" /\ seg <> "." /\ seg <> ".."
                        /\ PyStr.has_char "/" seg = false
                        /\ PyStr.has_char "\" seg = false)
            (PurePosixPath.parts s).
Proof.
  unfold _safe_zip_member_name. cbv zeta.
  set (n := PyStr.replace_char "\" "/" name).
  destruct (negb (PyStr.truthy n)); [discriminate|]. cbn [orb].
  destruct (PyStr.startswith n "/") eqn:R; [discriminate|]. cbn [orb].
  pose proof (replaced_no_backslash name) as Bk. fold n in Bk. rewrite Bk.
  destruct (PyStr.has_char ":" _); [discriminate|].
  destruct (existsb (String.eqb "..") (PurePosixPath.parts n)) eqn:D;
    [discriminate|].
  intros [= <-].
  assert (P : PurePosixPath.parts n
              = filter PurePosixPath.keep_segment (PyStr.split "/" n)).
  { unfold PurePosixPath.parts. now rewrite (relative_root n R). }
  assert (K : Forall (fun x => PurePosixPath.keep_segment x = true)
                     (PurePosixPath.parts n)).
  { rewrite P. apply filter_all_true. }
  assert (B : PyStr.has_char "\" n = false).
  { apply has_char_replaced. discriminate. }
  assert (N : Forall (fun x => PyStr.has_char "/" x = false
                               /\ PyStr.has_char "\" x = false)
                     (PurePosixPath.parts n)).
  { rewrite P. apply Forall_in_filter.
    eapply Forall_impl; [|apply (split_segments "/" "\" n)].
    intros x [H1 H2]. split; [exact H1 | now apply H2]. }
  assert (N1 : Forall (fun x => PyStr.has_char "/" x = false)
                      (PurePosixPath.parts n)).
  { eapply Forall_impl; [|exact N]. now intros x [H _]. }
  rewrite (parts_join _ K N1).
  repeat split.
  - now apply join_relative.
  - apply Forall_forall. intros seg Hin.
    pose proof (proj1 (Forall_forall _ _) K seg Hin) as Ks.
    pose proof (proj1 (Forall_forall _ _) N seg Hin) as [Ns Nb].
    unfold PurePosixPath.keep_segment in Ks. apply andb_prop in Ks.
    destruct Ks as [K1 K2].
    repeat split; try assumption.
    + intros ->. discriminate.
    + intros ->. discriminate.
    + intros ->.
      assert (E : existsb (String.eqb "..") (PurePosixPath.parts n) = true).
      { apply existsb_exists. exists "..". split; [exact Hin | reflexivity]. }
      congruence.
Qed.

(** X4, witness: a name written with backslashes and a leading [".\"]. *)
Lemma safe_name_is_clean_witness :
  PurePosixPath.parts "processed-csv/n/b.csv"
  = PurePosixPath.parts (PyStr.replace_char "\" "/" ".\processed-csv\n\b.csv").
Proof.
  apply (safe_name_is_clean ".\processed-csv\n\b.csv" "processed-csv/n/b.csv").
  reflexivity.
Defined.

(** X5: the colon test and the leading-separator test read the stored
    name before its ["."] segments are dropped: any name without a [".."]
    segment passes the name check once ["./"] is put in front of it, and
    its sanitised name is the join of its kept segments.  So ["./C:/x"] is
    sanitised to ["C:/x"], a name that does not pass the check itself. *)
Theorem dot_prefix_passes_name_check (name : string) :
  existsb (String.eqb "..") (PyStr.split "/" (PyStr.replace_char "\" "/" name))
  = false ->
  _safe_zip_member_name ("./" ++ name)
  = Some (PyStr.join "/" (PurePosixPath.tail (PyStr.replace_char "\" "/" name)))
  /\ _safe_zip_member_name "./C:/x" = Some "C:/x"
  /\ _safe_zip_member_name "C:/x" = None.
Proof.
  intros D. split; [|split; reflexivity].
  unfold _safe_zip_member_name. cbv zeta.
  change (PyStr.replace_char "\" "/" ("./" ++ name))
    with ("./" ++ PyStr.replace_char "\" "/" name)%string.
  set (n := PyStr.replace_char "\" "/" name) in *.
  change (negb (PyStr.truthy ("./" ++ n)) || PyStr.startswith ("./" ++ n) "/"
          || PyStr.startswith ("./" ++ n) "\")
    with false.
  cbv iota.
  change (PyStr.split "/" ("./" ++ n)) with ("." :: PyStr.split "/" n).
  cbn [hd PyStr.has_char Ascii.eqb Bool.eqb orb].
  assert (P : PurePosixPath.parts ("./" ++ n)
              = filter PurePosixPath.keep_segment (PyStr.split "/" n)).
  { unfold PurePosixPath.parts. rewrite (relative_root ("./" ++ n)) by reflexivity.
    reflexivity. }
  rewrite P.
  rewrite existsb_filter, D.
  2:{ intros x Hx. apply String.eqb_eq in Hx. now subst x. }
  reflexivity.
Qed.

(** X5, witness: an absolute name behind ["./"]. *)
Lemma dot_prefix_passes_name_check_witness :
  _safe_zip_member_name ("./" ++ "/etc/passwd") = Some "etc/passwd".
Proof.
  apply (dot_prefix_passes_name_check "/etc/passwd"). reflexivity.
Defined.


(** ** More on the extraction loop and the manifest *)

Section WriteFacts.

Variable cm : string -> ascii -> bool.
Variable resolve : LocalPath -> LocalPath.
Variable patterns : list string.
Variable root root_resolved : LocalPath.

Lemma member_writes (copy_ok : nat -> LocalPath -> bool) (i : nat)
    (info : ZipInfo) (st st' : ExtractState) (e : option Exn) :
  extract_member cm resolve copy_ok patterns root root_resolved i info st
  = (st', e) ->
  forall j dest, In (j, FsWrite dest) (fs_ops st') ->
    In (j, FsWrite dest) (fs_ops st)
    \/ (j = i
        /\ write_ok cm resolve patterns root root_resolved [info] 0 dest).
Proof.
  unfold extract_member. cbv zeta.
  destruct (_safe_zip_member_name (raw_name info)) as [s|] eqn:Safe.
  2: now intros [= <- <-]; auto.
  destruct (is_dir info) eqn:Dir.
  1: now intros [= <- <-]; auto.
  destruct (_match_zip_patterns cm s patterns) as [[|]|x] eqn:Hit.
  2,3: now intros [= <- <-]; auto.
  destruct (negb _ && negb _) eqn:G.
  - intros [= <- <-] j dest. simpl. rewrite in_app_iff. simpl.
    intros [H|[H|[]]]; [now left | discriminate].
  - apply guard_passed in G.
    assert (W : write_ok cm resolve patterns root root_resolved [info] 0
                  (joinpath root (PurePosixPath.parts s))).
    { split; [exact G|]. exists info, s. auto. }
    destruct (copy_ok i _); intros [= <- <-] j dest; simpl;
      rewrite !in_app_iff; simpl;
      (intros [[H|[H|[]]]|[H|[]]]; [now left | discriminate |]);
      injection H as <- <-; auto.
Qed.

Lemma loop_writes (copy_ok : nat -> LocalPath -> bool) (infos : list ZipInfo) :
  forall i st st' e,
    extract_loop cm resolve copy_ok patterns root root_resolved i infos st
    = (st', e) ->
    forall j dest, In (j, FsWrite dest) (fs_ops st') ->
      In (j, FsWrite dest) (fs_ops st)
      \/ (i <= j
          /\ write_ok cm resolve patterns root root_resolved infos (j - i) dest).
Proof.
  induction infos as [|info rest IH]; intros i st st' e H j dest Hin.
  - injection H as <- <-. now left.
  - cbn [extract_loop] in H.
    destruct (extract_member cm resolve copy_ok patterns root root_resolved
                i info st) as [st1 [x|]] eqn:E.
    + injection H as <- <-.
      destruct (member_writes _ _ _ _ _ _ E j dest Hin)
        as [|[-> (W & x0 & s & Hn & Rest)]]; [now left|].
      right. split; [lia|]. rewrite Nat.sub_diag. split; [exact W|].
      exists x0, s. auto.
    + destruct (IH _ _ _ _ H j dest Hin) as [H1|(Hj & W & x & s & Hn & Rest)].
      * destruct (member_writes _ _ _ _ _ _ E j dest H1)
          as [|[-> (W & x0 & s & Hn & Rest)]]; [now left|].
        right. split; [lia|]. rewrite Nat.sub_diag. split; [exact W|].
        exists x0, s. auto.
      * right. split; [lia|]. split; [exact W|]. exists x, s.
        split; [|exact Rest].
        replace (j - i) with (S (j - S i)) by lia. exact Hn.
Qed.

Lemma loop_app (copy_ok : nat -> LocalPath -> bool) (xs ys : list ZipInfo) :
  forall i st,
    extract_loop cm resolve copy_ok patterns root root_resolved i (xs ++ ys) st
    = match extract_loop cm resolve copy_ok patterns root root_resolved i xs st with
      | (st', None) =>
          extract_loop cm resolve copy_ok patterns root root_resolved
            (i + List.length xs) ys st'
      | r => r
      end.
Proof.
  induction xs as [|x xs IH]; intros i st; cbn [app extract_loop List.length].
  - now rewrite Nat.add_0_r.
  - destruct (extract_member _ _ _ _ _ _ _ _ _) as [st1 [e|]]; [reflexivity|].
    rewrite IH. now replace (S i + List.length xs) with (i + S (List.length xs)) by lia.
Qed.

Lemma member_sim (copy1 copy2 : nat -> LocalPath -> bool) (i1 i2 : nat)
    (info : ZipInfo) (st1 st2 : ExtractState) :
  (forall d, copy1 i1 d = copy2 i2 d) ->
  same_additions st1 st2
    (extract_member cm resolve copy1 patterns root root_resolved i1 info st1)
    (extract_member cm resolve copy2 patterns root root_resolved i2 info st2).
Proof.
  intros C. unfold extract_member, same_additions. cbv zeta.
  destruct (_safe_zip_member_name (raw_name info)) as [s|].
  2:{ split; [reflexivity|]. eexists [_], []. simpl. now rewrite !app_nil_r. }
  destruct (is_dir info).
  { split; [reflexivity|]. exists [], []. simpl. now rewrite !app_nil_r. }
  destruct (_match_zip_patterns cm s patterns) as [[|]|x].
  2,3: split; [reflexivity|]; exists [], []; simpl; now rewrite !app_nil_r.
  destruct (negb _ && negb _).
  { split; [reflexivity|]. eexists [_], []. simpl. now rewrite !app_nil_r. }
  rewrite C. destruct (copy2 i2 _); (split; [reflexivity|]).
  - eexists [], [_]. simpl. now rewrite !app_nil_r.
  - exists [], []. simpl. now rewrite !app_nil_r.
Qed.

Lemma loop_sim (copy1 copy2 : nat -> LocalPath -> bool) (infos : list ZipInfo) :
  forall i1 i2 st1 st2,
    (forall k d, copy1 (i1 + k) d = copy2 (i2 + k) d) ->
    same_additions st1 st2
      (extract_loop cm resolve copy1 patterns root root_resolved i1 infos st1)
      (extract_loop cm resolve copy2 patterns root root_resolved i2 infos st2).
Proof.
  induction infos as [|info rest IH]; intros i1 i2 st1 st2 C; cbn [extract_loop].
  - split; [reflexivity|]. exists [], []. simpl. now rewrite !app_nil_r.
  - assert (C0 : forall d, copy1 i1 d = copy2 i2 d).
    { intros d. specialize (C 0 d). now rewrite !Nat.add_0_r in C. }
    destruct (member_sim copy1 copy2 i1 i2 info st1 st2 C0)
      as (E & ws & fs & W1 & W2 & F1 & F2).
    destruct (extract_member cm resolve copy1 _ _ _ i1 info st1) as [a1 e1].
    destruct (extract_member cm resolve copy2 _ _ _ i2 info st2) as [a2 e2].
    cbn [fst snd] in *. subst e2.
    destruct e1 as [e|].
    + split; [reflexivity|]. exists ws, fs. auto.
    + assert (C1 : forall k d, copy1 (S i1 + k) d = copy2 (S i2 + k) d).
      { intros k d. specialize (C (S k) d).
        now rewrite <- !Nat.add_succ_comm in C. }
      destruct (IH (S i1) (S i2) a1 a2 C1) as (E' & ws' & fs' & V1 & V2 & G1 & G2).
      split; [exact E'|]. exists (ws ++ ws'), (fs ++ fs').
      rewrite V1, V2, G1, G2, W1, W2, F1, F2, !app_assoc. auto.
Qed.

Lemma loop_no_patterns (copy_ok : nat -> LocalPath -> bool)
    (infos : list ZipInfo) :
  forall i st,
    extract_loop cm resolve copy_ok [] root root_resolved i infos st
    = (mkExtractState
         (warnings st
          ++ map (fun info => zip_slip_warning (raw_name info) "unsafe_member_name")
                 (filter is_unsafe infos))
         (extracted_files st) (fs_ops st),
       None).
Proof.
  induction infos as [|info rest IH]; intros i st; cbn [extract_loop].
  - simpl. rewrite app_nil_r. now destruct st.
  - unfold extract_member. cbv zeta. cbn [filter]. unfold is_unsafe at 1.
    destruct (_safe_zip_member_name (raw_name info)) as [s|].
    + destruct (is_dir info); cbn [_match_zip_patterns]; apply IH.
    + rewrite IH. cbn [add_warning warnings extracted_files fs_ops map].
      now rewrite <- app_assoc.
Qed.

End WriteFacts.

(** X6: whatever a run ends with, a write is only ever attempted for a
    member that passed the name check, the directory test and the pattern
    filter, to the destination made of the output directory and the parts
    of its sanitised name, and that destination resolves to the output
    directory or to a path below it. *)
Theorem writes_stay_inside_output_dir
    (cm : string -> ascii -> bool) (resolve : LocalPath -> LocalPath)
    (mkdir_ok : LocalPath -> bool) (copy_ok : nat -> LocalPath -> bool)
    (infos : list ZipInfo) (patterns : list string) (output_dir : string)
    (i : nat) (dest : LocalPath) :
  In (i, FsWrite dest)
     (fs_ops (fst (extract_run cm resolve mkdir_ok copy_ok infos patterns
                     output_dir))) ->
  within_root (resolve (Path output_dir)) (resolve dest)
  /\ exists info s,
      nth_error infos i = Some info
      /\ _safe_zip_member_name (raw_name info) = Some s
      /\ is_dir info = false
      /\ _match_zip_patterns cm s patterns = Ok true
      /\ dest = joinpath (Path output_dir) (PurePosixPath.parts s).
Proof.
  unfold extract_run. destruct (mkdir_ok (Path output_dir)); [|intros []].
  destruct (extract_loop _ _ _ _ _ _ _ _ _) as [st e] eqn:E. cbn [fst].
  intros Hin.
  destruct (loop_writes _ _ _ _ _ _ _ _ _ _ _ E i dest Hin) as [[]|[_ W]].
  now rewrite Nat.sub_0_r in W.
Qed.

(** X6, witness: the write for the fourth member of the sample archive. *)
Lemma writes_stay_inside_output_dir_witness :
  within_root (plain_resolve (Path "/tmp/out"))
    (plain_resolve ["/"; "tmp"; "out"; "processed-csv"; "a.csv"]).
Proof.
  apply (writes_stay_inside_output_dir plain_class plain_resolve always_mkdir
           always_copy sample_archive sample_patterns "/tmp/out" 3
           ["/"; "tmp"; "out"; "processed-csv"; "a.csv"]).
  vm_compute. auto.
Defined.

(** X7: extracting an archive is extracting its members one after
    another: the result for a member list in two parts is the files and
    warnings of the first part followed by those of the second, and an
    exception in either part is the exception of the whole. *)
Theorem extraction_concatenates
    (cm : string -> ascii -> bool) (resolve : LocalPath -> LocalPath)
    (mkdir_ok : LocalPath -> bool) (copy_ok : nat -> LocalPath -> bool)
    (infos1 infos2 : list ZipInfo) (patterns : list string) (output_dir : string) :
  _extract_zip_members cm resolve mkdir_ok copy_ok (infos1 ++ infos2) patterns
    output_dir
  = match _extract_zip_members cm resolve mkdir_ok copy_ok infos1 patterns
            output_dir with
    | Ok (files1, ws1) =>
        match _extract_zip_members cm resolve mkdir_ok
                (fun j => copy_ok (List.length infos1 + j)) infos2 patterns
                output_dir with
        | Ok (files2, ws2) => Ok (files1 ++ files2, ws1 ++ ws2)
        | Raise e => Raise e
        end
    | Raise e => Raise e
    end.
Proof.
  unfold _extract_zip_members, extract_run.
  destruct (mkdir_ok (Path output_dir)); [|reflexivity].
  rewrite loop_app.
  destruct (extract_loop cm resolve copy_ok patterns (Path output_dir)
              (resolve (Path output_dir)) 0 infos1 empty_state) as [st1 [e|]];
    [reflexivity|].
  cbn [Nat.add].
  destruct (loop_sim cm resolve patterns (Path output_dir)
              (resolve (Path output_dir)) copy_ok
              (fun j => copy_ok (List.length infos1 + j)) infos2
              (List.length infos1) 0 st1 empty_state)
    as (E & ws & fs & W1 & W2 & F1 & F2).
  { intros k d. reflexivity. }
  destruct (extract_loop cm resolve copy_ok _ _ _ (List.length infos1) infos2 st1)
    as [a1 e1].
  destruct (extract_loop cm resolve (fun j => copy_ok (List.length infos1 + j))
              _ _ _ 0 infos2 empty_state) as [a2 e2].
  cbn [fst snd] in *. subst e2. destruct e1; [reflexivity|].
  rewrite W1, W2, F1, F2. reflexivity.
Qed.

(** X8: with an empty pattern list and an output directory that can be
    created, nothing is extracted and no file-system operation is done for
    any member, and the members with an unsafe name are still reported, in
    archive order. *)
Theorem no_patterns_nothing_extracted
    (cm : string -> ascii -> bool) (resolve : LocalPath -> LocalPath)
    (mkdir_ok : LocalPath -> bool) (copy_ok : nat -> LocalPath -> bool)
    (infos : list ZipInfo) (output_dir : string) :
  mkdir_ok (Path output_dir) = true ->
  _extract_zip_members cm resolve mkdir_ok copy_ok infos [] output_dir
  = Ok ([], map (fun info => zip_slip_warning (raw_name info) "unsafe_member_name")
                (filter is_unsafe infos))
  /\ fs_ops (fst (extract_run cm resolve mkdir_ok copy_ok infos [] output_dir)) = [].
Proof.
  intros Mk. unfold _extract_zip_members, extract_run. rewrite Mk.
  rewrite loop_no_patterns. split; reflexivity.
Qed.

(** X8, witness: the sample archive without patterns. *)
Lemma no_patterns_nothing_extracted_witness :
  _extract_zip_members plain_class plain_resolve always_mkdir always_copy
    sample_archive [] "/tmp/out"
  = Ok ([], [zip_slip_warning "processed-csv/../x.csv" "unsafe_member_name"]).
Proof.
  apply (no_patterns_nothing_extracted plain_class plain_resolve always_mkdir
           always_copy sample_archive "/tmp/out").
  reflexivity.
Defined.

Lemma manifest_filter (cm : string -> ascii -> bool) (patterns : list string)
    (infos : list ZipInfo) :
  (forall info, In info infos -> filename info <> "") ->
  (forall info, In info infos ->
     exists b, _match_zip_patterns cm (raw_name info) patterns = Ok b) ->
  manifest_loop cm patterns infos
  = Ok (map entry_of infos, filter (matched_by cm patterns) (map entry_of infos)).
Proof.
  induction infos as [|info rest IH]; intros Hn H; cbn [manifest_loop];
    [reflexivity|].
  destruct (H info (or_introl eq_refl)) as [b Hb].
  unfold is_dir_call.
  destruct (filename info) as [|c name] eqn:F;
    [now elim (Hn info (or_introl eq_refl))|].
  cbn [PyStr.truthy rbind e_name]. fold (entry_of info).
  cbn [map filter]. unfold matched_by at 1. cbn [e_name entry_of].
  rewrite Hb. cbn [rbind].
  rewrite IH by (intros x Hx; first [apply Hn | apply H]; now right).
  cbn [rbind fst snd]. destruct b; reflexivity.
Qed.

(** X9: when every pattern is the empty string or keeps a path segment
    once normalised, the manifest is built for any archive whose members
    all have a name: [entries] lists every member in archive order, and
    [matched_entries] is the sub-list, in the same order, of the entries
    whose name matches. *)
Theorem manifest_lists_every_member (cm : string -> ascii -> bool)
    (infos : list ZipInfo) (patterns : list string) :
  (forall q, In q patterns -> q = "" \/ PurePosixPath.parts (norm_entry q) <> []) ->
  (forall info, In info infos -> filename info <> "") ->
  _build_zip_manifest cm infos patterns
  = Ok (map entry_of infos, filter (matched_by cm patterns) (map entry_of infos)).
Proof.
  intros H Hn. apply manifest_filter; [exact Hn|]. intros info _.
  apply match_total. intros q Hq. apply pattern_answers. now apply H.
Qed.

(** X9, witness: the manifest of the sample archive. *)
Lemma manifest_lists_every_member_witness :
  _build_zip_manifest plain_class sample_archive sample_patterns
  = Ok (map entry_of sample_archive,
        filter (matched_by plain_class sample_patterns)
               (map entry_of sample_archive)).
Proof.
  apply (manifest_lists_every_member plain_class sample_archive sample_patterns).
  - intros q [<-|[]]. right. discriminate.
  - intros info H. simpl in H.
    repeat (destruct H as [<-|H]; [discriminate|]). destruct H.
Defined.

(** ** More on the pointer resolver *)

(** X10: whatever the payload, a URL or an expiry that the resolver
    returns is not blank: stripped of white space it is not empty. *)
Theorem pointer_fields_never_blank (py_repr : JVal -> string) (payload : Dict) :
  (forall u, zip_download_url (_extract_zip_pointer py_repr payload) = Some u ->
             PyStr.strip u <> "")
  /\ (forall e, zip_presigned_expires_at (_extract_zip_pointer py_repr payload)
                = Some e ->
                PyStr.strip e <> "").
Proof.
  assert (N : forall v s, nonblank_str v = Some s -> PyStr.strip s <> "").
  { intros v s H. now apply nonblank_str_some in H. }
  unfold _extract_zip_pointer, canonical_pointer, legacy_pointer.
  destruct (PyDict.get payload "outputs") as [| | | | |?|outputs];
    try destruct (nonblank_str (PyDict.get outputs "download_url")) as [dl|] eqn:C;
    try (cbn [zip_download_url zip_presigned_expires_at]; split;
         [intros u [= <-]; exact (N _ _ C) | intros e; apply N]);
    (destruct (PyDict.get payload "batchDownloads") as [| | | | |bds|?];
     try (split; intros ?; discriminate);
     destruct (truthy (legacy_entry py_repr bds));
     try (split; intros ?; discriminate);
     destruct (legacy_entry py_repr bds);
     try (split; intros ?; discriminate);
     cbn [zip_download_url zip_presigned_expires_at]; split; intros ?; apply N).
Qed.

Lemma lookup_app (d1 d2 : Dict) (k : string) :
  PyDict.lookup (d1 ++ d2) k
  = match PyDict.lookup d1 k with
    | Some v => Some v
    | None => PyDict.lookup d2 k
    end.
Proof.
  induction d1 as [|[k' v] d1 IH]; simpl; [reflexivity|].
  destruct (String.eqb k' k); [reflexivity | exact IH].
Qed.

Lemma lookup_optional_key (p : Dict) (k' k : string) :
  k' <> k -> PyDict.lookup (optional_key p k') k = None.
Proof.
  intros N. unfold optional_key. destruct (truthy _); [|reflexivity].
  simpl. destruct (String.eqb_spec k' k); [contradiction | reflexivity].
Qed.

Lemma lookup_present_key (p : Dict) (k' k : string) :
  k' <> k -> PyDict.lookup (present_key p k') k = None.
Proof.
  intros N. unfold present_key.
  destruct (PyDict.get p k'); simpl; try reflexivity;
    destruct (String.eqb_spec k' k); try contradiction; reflexivity.
Qed.

(** The two keys of a status result the resolver reads. *)
Lemma status_result_keys (batch_id : JVal) (payload : Dict) (ptr : Pointer) :
  PyDict.get (status_result batch_id payload ptr) "outputs" = JNull
  /\ PyDict.get (status_result batch_id payload ptr) "batchDownloads"
     = match summaries download_summary (PyDict.get payload "batchDownloads") with
       | [] => JNull
       | l => JList l
       end.
Proof.
  unfold status_result, PyDict.get, PyDict.get_default. cbv zeta.
  split.
  - rewrite !lookup_app. cbn [PyDict.lookup String.eqb Ascii.eqb Bool.eqb].
    destruct (summaries download_summary _); cbn [PyDict.lookup String.eqb Ascii.eqb Bool.eqb];
      rewrite lookup_optional_key, !lookup_present_key by discriminate;
      destruct (PyDict.lookup payload "summary") as [[| | | | | |]|]; reflexivity.
  - rewrite !lookup_app. cbn [PyDict.lookup String.eqb Ascii.eqb Bool.eqb].
    destruct (summaries download_summary _); cbn [PyDict.lookup String.eqb Ascii.eqb Bool.eqb];
      [|reflexivity].
    rewrite lookup_optional_key, !lookup_present_key by discriminate.
    destruct (PyDict.lookup payload "summary") as [[| | | | | |]|]; reflexivity.
Qed.

Section SummaryFacts.

Variable py_repr : JVal -> string.
Hypothesis repr_none : PyStr.lower (py_repr JNull) <> "zip".

Lemma zip_typed_summary (d : Dict) :
  zip_typed py_repr (JDict (summary_of d)) = zip_typed py_repr (JDict d).
Proof.
  unfold zip_typed, summary_of, PyDict.get, PyDict.get_default.
  cbn [PyDict.lookup String.eqb Ascii.eqb Bool.eqb].
  destruct (PyDict.lookup d "type") as [v|]; [reflexivity|].
  cbn [py_str PyStr.lower].
  destruct (String.eqb_spec (PyStr.lower (py_repr JNull)) "zip");
    [contradiction | reflexivity].
Qed.

Lemma zip_suffixed_summary (d : Dict) :
  zip_suffixed (JDict (summary_of d)) = zip_suffixed (JDict d).
Proof. reflexivity. Qed.

Lemma find_summaries (f : JVal -> bool) (bds : list JVal) :
  (forall d, f (JDict (summary_of d)) = f (JDict d)) ->
  (forall v, f v = true -> exists d, v = JDict d) ->
  find f (flat_map download_summary bds)
  = match find f bds with
    | Some (JDict d) => Some (JDict (summary_of d))
    | _ => None
    end.
Proof.
  intros Same Dict. induction bds as [|v bds IH]; [reflexivity|].
  cbn [flat_map find].
  destruct (f v) eqn:F.
  - destruct (Dict v F) as [d ->]. cbn [download_summary app find].
    fold (summary_of d). now rewrite Same, F.
  - destruct v; cbn [download_summary app]; try exact IH.
    cbn [find]. fold (summary_of fields). now rewrite Same, F.
Qed.

Lemma legacy_entry_summaries (bds : list JVal) :
  legacy_entry py_repr (flat_map download_summary bds)
  = match legacy_entry py_repr bds with
    | JDict d => JDict (summary_of d)
    | _ => JNull
    end.
Proof.
  unfold legacy_entry.
  rewrite (find_summaries (zip_typed py_repr)), (find_summaries zip_suffixed).
  - destruct (find (zip_typed py_repr) bds) as [v|] eqn:T.
    + destruct (find_some _ _ T) as [_ Tv].
      destruct (zip_typed_dict py_repr v Tv) as (d & -> & Tr).
      cbv zeta. rewrite Tr. reflexivity.
    + cbv zeta. change (truthy JNull) with false. cbn [negb].
      destruct (find zip_suffixed bds) as [v|] eqn:S; [|reflexivity].
      destruct (find_some _ _ S) as [_ Sv].
      destruct (zip_suffixed_dict v Sv) as (d & -> & Tr). reflexivity.
  - exact zip_suffixed_summary.
  - intros v H. destruct (zip_suffixed_dict v H) as (d & -> & _). now exists d.
  - exact zip_typed_summary.
  - intros v H. destruct (zip_typed_dict py_repr v H) as (d & -> & _). now exists d.
Qed.

Lemma legacy_entry_shape (bds : list JVal) :
  legacy_entry py_repr bds = JNull
  \/ exists d, legacy_entry py_repr bds = JDict d /\ truthy (JDict d) = true.
Proof.
  unfold legacy_entry.
  destruct (find (zip_typed py_repr) bds) as [v|] eqn:T.
  - destruct (find_some _ _ T) as [_ Tv].
    destruct (zip_typed_dict py_repr v Tv) as (d & -> & Tr).
    right. exists d. cbv zeta. rewrite Tr. auto.
  - cbv zeta. change (truthy JNull) with false. cbn [negb].
    destruct (find zip_suffixed bds) as [v|] eqn:S; [|now left].
    destruct (find_some _ _ S) as [_ Sv].
    destruct (zip_suffixed_dict v Sv) as (d & -> & Tr). right. exists d. auto.
Qed.

Lemma status_result_legacy (batch_id : JVal) (payload : Dict) (ptr : Pointer) :
  _extract_zip_pointer py_repr (status_result batch_id payload ptr)
  = legacy_pointer py_repr payload.
Proof.
  destruct (status_result_keys batch_id payload ptr) as [O B].
  unfold _extract_zip_pointer, canonical_pointer. rewrite O.
  unfold legacy_pointer. rewrite B.
  destruct (PyDict.get payload "batchDownloads") as [| | | | |bds|?];
    try reflexivity.
  cbn [summaries].
  pose proof (legacy_entry_summaries bds) as L.
  destruct (legacy_entry_shape bds) as [E|(d & E & Tr)]; rewrite E in *.
  - destruct (flat_map download_summary bds); [reflexivity|]. now rewrite L.
  - rewrite Tr.
    destruct (flat_map download_summary bds) eqn:F.
    + vm_compute in L. discriminate.
    + rewrite L. reflexivity.
Qed.

End SummaryFacts.

(** X11: with [str(None)] not spelling ["zip"], resolving the pointer
    again from the result dictionary of [check_batch_status] gives the
    legacy pointer of the payload that dictionary was built from; so when
    the resolver found no URL in the payload, the second resolution the
    workflow makes on the status result returns the same pointer, again
    without a URL. *)
Theorem resolving_again_finds_nothing_new (py_repr : JVal -> string)
    (batch_id : JVal) (payload : Dict) :
  PyStr.lower (py_repr JNull) <> "zip" ->
  (forall ptr,
      _extract_zip_pointer py_repr (status_result batch_id payload ptr)
      = legacy_pointer py_repr payload)
  /\ (zip_download_url (_extract_zip_pointer py_repr payload) = None ->
      _extract_zip_pointer py_repr
        (status_result batch_id payload (_extract_zip_pointer py_repr payload))
      = _extract_zip_pointer py_repr payload).
Proof.
  intros R. split; [intros ptr; now apply status_result_legacy|].
  intros U. rewrite (status_result_legacy py_repr R).
  unfold _extract_zip_pointer in *.
  destruct (canonical_pointer payload) as [p|] eqn:C; [|reflexivity].
  unfold canonical_pointer in C.
  destruct (PyDict.get payload "outputs"); try discriminate.
  destruct (nonblank_str _); [|discriminate].
  injection C as <-. discriminate.
Qed.

(** X11, witness: the status result built from the sample legacy
    payload. *)
Lemma resolving_again_finds_nothing_new_witness :
  _extract_zip_pointer scalar_repr
    (status_result (JStr "b-1") legacy_payload (mkPointer None None))
  = legacy_pointer scalar_repr legacy_payload.
Proof.
  refine (proj1 (resolving_again_finds_nothing_new scalar_repr (JStr "b-1")
                   legacy_payload _) _).
  vm_compute. discriminate.
Defined.

(** ** More on the status query, the polling loop and the workflow *)

(** X12: with no key configured (no override or an empty one, and no
    key or an empty one in the environment), [check_batch_status] and
    [_download_processed_files_impl] return the same failure, with
    [success] false and [error] ["Missing API key"], and send nothing:
    the counters of status queries and of download requests stay as they
    were. *)
Theorem no_key_nothing_sent (h : Host) (o : option string) :
  key_available h o = false ->
  exists err,
    PyDict.get err "success" = JBool false
    /\ PyDict.get err "error" = JStr "Missing API key"
    /\ (forall batch_id w,
           check_batch_status h batch_id o w
           = (Done err, mkWorld (n_status w) (n_clock w) (n_get w)
                                (trace w ++ [EvStatusCall])))
    /\ (forall urls dir w,
           _download_processed_files_impl h urls dir o w = (Done err, w)).
Proof.
  unfold key_available. intros K.
  assert (E : exists err, _get_api_key h o = inl err
                          /\ PyDict.get err "success" = JBool false
                          /\ PyDict.get err "error" = JStr "Missing API key").
  { unfold _get_api_key.
    destruct (_get_api_key_optional h o) as [k|]; [rewrite K|];
      eexists; repeat split. }
  destruct E as (err & E & S & Er). exists err.
  split; [exact S|]. split; [exact Er|]. split.
  - intros batch_id w. unfold check_batch_status, bind, emit, ret. now rewrite E.
  - intros urls dir w. unfold _download_processed_files_impl. now rewrite E.
Qed.

(** X12, witness: the sample host, which has no key in its environment,
    called with an empty override. *)
Lemma no_key_nothing_sent_witness :
  exists err,
    PyDict.get err "success" = JBool false
    /\ PyDict.get err "error" = JStr "Missing API key"
    /\ (forall batch_id w,
           check_batch_status sample_host batch_id (Some "") w
           = (Done err, mkWorld (n_status w) (n_clock w) (n_get w)
                                (trace w ++ [EvStatusCall])))
    /\ (forall urls dir w,
           _download_processed_files_impl sample_host urls dir (Some "") w
           = (Done err, w)).
Proof.
  apply (no_key_nothing_sent sample_host (Some "")). reflexivity.
Defined.

Section PollFacts.

Variable h : Host.
Variable a : WorkflowArgs.

Lemma status_counts (o : option string) (w : World) :
  count is_status_call (status_events h o w) = 1
  /\ count is_sleep (status_events h o w) = 0.
Proof. unfold status_events. destruct (payload_available h o w); split; reflexivity. Qed.

Lemma status_raises_kind (o : option string) (w : World) (e : Exn) :
  status_raises h o w = Some e -> e = AttributeError \/ e = InvalidURL.
Proof.
  unfold status_raises, reply_raises.
  destruct (_get_api_key h o); [discriminate|].
  destruct (h_status_http h (n_status w)) as [|msg| |code text [[]|]];
    try discriminate; try (intros [= <-]; auto);
    destruct (_ && _); try discriminate; intros [= <-]; auto.
Qed.

Lemma status_returns (o : option string) (w : World) :
  (forall n, reply_raises (h_status_http h n) = None) ->
  status_raises h o w = None.
Proof.
  intros H. unfold status_raises. destruct (_get_api_key h o); [reflexivity|].
  apply H.
Qed.

Lemma poll_shape (fuel : nat) (batch_id : JVal) (deadline : Z) :
  forall w out w',
    poll h a fuel batch_id deadline w = (out, w') ->
    exists evs,
      trace w' = trace w ++ evs
      /\ match out with
         | Done _ => count is_sleep evs + 1 = count is_status_call evs
         | OutOfFuel => count is_sleep evs = fuel /\ count is_status_call evs = fuel
         | Raised e => count is_sleep evs + 1 = count is_status_call evs
                       /\ (e = AttributeError \/ e = InvalidURL)
         end.
Proof.
  induction fuel as [|fuel IH]; intros w out w' P.
  { injection P as <- <-. exists []. simpl. rewrite app_nil_r. auto. }
  cbn [poll] in P. unfold bind at 1 in P.
  destruct (status_exact h batch_id (api_key_override a) w) as (E & Out).
  destruct (status_counts (api_key_override a) w) as [C1 C0].
  destruct (status_raises h (api_key_override a) w) as [e|] eqn:SR.
  { destruct Out as [Er _].
    destruct (check_batch_status h batch_id (api_key_override a) w) as [o1 w1].
    cbn [fst snd] in E, Er. subst o1. injection P as <- <-.
    eexists. split; [exact E|]. split; [lia|].
    exact (status_raises_kind _ _ _ SR). }
  destruct Out as (r & Er & _).
  destruct (check_batch_status h batch_id (api_key_override a) w) as [o1 w1].
  cbn [fst snd] in E, Er. subst o1.
  destruct (negb (truthy (PyDict.get r "success"))).
  { injection P as <- <-. eexists. split; [exact E | lia]. }
  destruct (_is_terminal_status _ _).
  { injection P as <- <-. eexists. split; [exact E | lia]. }
  unfold bind at 1, monotonic at 1 in P.
  destruct (deadline <=? h_clock h (n_clock w1))%Z.
  { injection P as <- <-. eexists. cbn [trace].
    split; [rewrite E, <- app_assoc; reflexivity|].
    rewrite !count_app, C1, C0. reflexivity. }
  unfold bind at 1, emit at 1 in P. cbn [n_status n_clock n_get trace] in P.
  destruct (IH _ _ _ P) as (evs & E3 & S3). cbn [trace] in E3.
  exists (status_events h (api_key_override a) w
          ++ [EvClock (h_clock h (n_clock w1)); EvSleep] ++ evs).
  split.
  { rewrite E3, E, <- !app_assoc. reflexivity. }
  rewrite !count_app, C1, C0.
  change (count is_sleep [EvClock (h_clock h (n_clock w1)); EvSleep]) with 1.
  change (count is_status_call [EvClock (h_clock h (n_clock w1)); EvSleep]) with 0.
  destruct out as [x|e|]; [lia | destruct S3 as [S3 K]; split; [lia | exact K] | lia].
Qed.

Lemma poll_ends (batch_id : JVal) (deadline : Z) (k : nat) :
  (forall n, reply_raises (h_status_http h n) = None) ->
  forall fuel w,
    (deadline <= h_clock h (n_clock w + k))%Z -> k < fuel ->
    exists exit w' evs,
      poll h a fuel batch_id deadline w = (Done exit, w')
      /\ trace w' = trace w ++ evs
      /\ count is_status_call evs <= k + 1.
Proof.
  intros NoRaise.
  induction k as [|k IH]; intros fuel w D L;
    (destruct fuel as [|fuel]; [lia|]);
    cbn [poll]; unfold bind at 1;
    pose proof (status_exact h batch_id (api_key_override a) w) as SE;
    rewrite (status_returns _ _ NoRaise) in SE;
    destruct SE as (E & r & Er & _);
    destruct (status_counts (api_key_override a) w) as [C1 _];
    pose proof (status_keeps_clock h batch_id (api_key_override a) w) as Ck;
    destruct (check_batch_status h batch_id (api_key_override a) w) as [out w1];
    cbn [fst snd] in E, Er, Ck; subst out;
    (destruct (negb (truthy (PyDict.get r "success")));
     [do 3 eexists; split; [reflexivity|]; split; [exact E | lia]|]);
    (destruct (_is_terminal_status _ _);
     [do 3 eexists; split; [reflexivity|]; split; [exact E | lia]|]);
    unfold bind at 1, monotonic at 1;
    destruct (deadline <=? h_clock h (n_clock w1))%Z eqn:T;
    try (do 3 eexists; split; [reflexivity|]; cbn [trace];
         split; [rewrite E, <- app_assoc; reflexivity|];
         rewrite count_app, C1; unfold count; simpl; lia).
  - apply Z.leb_gt in T. rewrite Ck, Nat.add_0_r in *. lia.
  - unfold bind at 1, emit at 1. cbn [n_status n_clock n_get trace].
    match goal with |- context [poll h a fuel batch_id deadline ?w3] =>
      destruct (IH fuel w3) as (exit & w' & evs & P & E3 & B)
    end.
    + cbn [n_clock]. rewrite Ck.
      now replace (S (n_clock w) + k) with (n_clock w + S k) by lia.
    + lia.
    + rewrite P. do 3 eexists. split; [reflexivity|].
      cbn [trace] in E3. split.
      * rewrite E3, E, <- !app_assoc. reflexivity.
      * rewrite !count_app, C1. unfold count in *. simpl. lia.
Qed.

End PollFacts.

(** X13: the polling loop ends, as long as no status query raises (the
    client accepts the URL, and a 200 or 201 answer that parses as JSON is
    an object): when the clock reading [k] readings from now is at or past
    the deadline and the loop may make more than [k] turns, it is left
    with a result after at most [k + 1] status queries. *)
Theorem polling_ends_by_deadline (h : Host) (a : WorkflowArgs) (batch_id : JVal)
    (deadline : Z) (k fuel : nat) (w : World) :
  (forall n, reply_raises (h_status_http h n) = None) ->
  (deadline <= h_clock h (n_clock w + k))%Z -> k < fuel ->
  exists exit w' evs,
    poll h a fuel batch_id deadline w = (Done exit, w')
    /\ trace w' = trace w ++ evs
    /\ count is_status_call evs <= k + 1.
Proof. intros NoRaise. now apply poll_ends. Qed.

(** X13, witness: a batch that stays in ["processing"], a clock that
    advances by ten ticks per reading, and a deadline of 25 ticks. *)
Lemma polling_ends_by_deadline_witness :
  exists exit w' evs,
    poll sample_host (sample_args ModeExtract) 4 (JStr "b-1") 25 world0
    = (Done exit, w')
    /\ trace w' = trace world0 ++ evs
    /\ count is_status_call evs <= 3 + 1.
Proof.
  apply (polling_ends_by_deadline sample_host (sample_args ModeExtract) (JStr "b-1")
           25 3 4 world0).
  - intros n. reflexivity.
  - vm_compute. discriminate.
  - lia.
Defined.

(** X14: the loop sleeps exactly once between two status queries, and
    neither before the first nor after the last: in a run that has ended,
    with a result or with an exception, the status queries are one more
    than the sleeps; a run that is still going after [fuel] turns has made
    [fuel] queries and [fuel] sleeps; and an exception that leaves the
    loop is one that left a status query: [AttributeError] (a JSON body
    that is not an object) or [httpx.InvalidURL]. *)
Theorem polling_sleeps_between_queries (h : Host) (a : WorkflowArgs)
    (fuel : nat) (batch_id : JVal) (deadline : Z) (w : World) :
  exists evs,
    trace (snd (poll h a fuel batch_id deadline w)) = trace w ++ evs
    /\ match fst (poll h a fuel batch_id deadline w) with
       | Done _ => count is_sleep evs + 1 = count is_status_call evs
       | OutOfFuel => count is_sleep evs = fuel /\ count is_status_call evs = fuel
       | Raised e => count is_sleep evs + 1 = count is_status_call evs
                     /\ (e = AttributeError \/ e = InvalidURL)
       end.
Proof.
  destruct (poll h a fuel batch_id deadline w) as [out w'] eqn:P.
  exact (poll_shape h a fuel batch_id deadline w out w' P).
Qed.
Lemma kept_set (b e : JVal) (r : Dict) (k : string) (v : JVal) :
  settable k -> Kept b e r -> Kept b e (PyDict.set r k v).
Proof.
  intros S [K1 K2 K3 [K4 K5] [K6 K7]].
  assert (N : forall k', In k' ["success"; "error"; "zipDownloadUrl"; "zip_download_url";
                                "batch_id"; "batchId"; "zip_presigned_expires_at";
                                "zipPresignedExpiresAt"] -> k <> k').
  { intros k' H ->. unfold settable in S. simpl in S, H.
    repeat match goal with
           | H : _ \/ _ |- _ => destruct H
           | H : False |- _ => destruct H
           end; subst; discriminate. }
  split; [| | |split|split]; rewrite ?get_set_other; auto; apply N; simpl; auto 10.
Qed.

Lemma kept_extend (b e : JVal) (r : Dict) (ws : list JVal) :
  Kept b e r -> Kept b e (extend_warnings r ws).
Proof.
  intros K. unfold extend_warnings.
  destruct (PyDict.get r "warnings"); try exact K.
  apply kept_set; [simpl; unfold settable; simpl; auto | exact K].
Qed.

Lemma kept_urls (b e : JVal) (r : Dict) (u : JVal) :
  Kept b e r ->
  Kept b e (PyDict.set (PyDict.set r "zip_download_url" u) "zipDownloadUrl" u).
Proof.
  intros [K1 K2 K3 [K4 K5] [K6 K7]].
  split; [| | |split|split]; rewrite ?get_set_same, ?get_set_other by discriminate;
    rewrite ?get_set_same, ?get_set_other by discriminate; auto.
Qed.

Section ResultFacts.

Variable h : Host.
Variable a : WorkflowArgs.

Lemma zip_stage_kept (b e batch_id url : JVal) (dir : string) (result : Dict)
    (w w' : World) (r zr : Dict) :
  zip_stage h a batch_id url dir result w = (Done (r, zr), w') ->
  Kept b e result -> Kept b e r.
Proof.
  unfold zip_stage. unfold bind at 1.
  destruct (_zip_op_with_one_refresh h a (result_mode a) url (Some dir) w)
    as [[z1| |] w1]; try discriminate.
  destruct (_ && _).
  2:{ intros [= <- <- <-]. auto. }
  unfold bind at 1.
  destruct (check_batch_status h batch_id (api_key_override a) w1)
    as [[refreshed| |] w2]; try discriminate.
  destruct (truthy (PyDict.get refreshed "success")).
  2:{ intros [= <- <- <-]. auto. }
  destruct (truthy (py_or _ _)).
  2:{ intros [= <- <- <-]. auto. }
  unfold bind at 1.
  destruct (_zip_op_with_one_refresh h a (result_mode a) _ (Some dir) w2)
    as [[z2| |] w3]; try discriminate.
  intros [= <- <- <-] K. now apply kept_urls.
Qed.

End ResultFacts.
Lemma bind_done {A B : Type} (c : M A) (k : A -> M B) (w w' : World) (r : B) :
  bind c k w = (Done r, w') ->
  exists x w1, c w = (Done x, w1) /\ k x w1 = (Done r, w').
Proof.
  unfold bind. destruct (c w) as [[x| |] w1]; try discriminate. eauto.
Qed.

Section ResultFacts2.

Variable h : Host.
Variable a : WorkflowArgs.

Lemma after_poll_cases (batch_id : JVal) (deadline : Z) (last_status : Dict)
    (w w' : World) (result : Dict) :
  after_poll h a batch_id deadline last_status w = (Done result, w') ->
  exists r0 msg details,
    Kept batch_id (workflow_zip_expiry h last_status) r0
    /\ if timed_out h deadline last_status w
       then msg = "Workflow timed out"
            /\ result = PyDict.set (PyDict.set (PyDict.set r0 "success" (JBool false))
                                      "error" (JStr msg)) "details" details
       else match result_mode a with
            | ModeUrls => result = r0
            | _ =>
                if truthy (workflow_zip_url h last_status)
                then result = r0
                else msg = "Missing zip_download_url"
                     /\ result = PyDict.set
                                   (PyDict.set (PyDict.set r0 "success" (JBool false))
                                      "error" (JStr msg)) "details" details
            end.
Proof.
  unfold after_poll, timed_out.
  intros P.
  apply bind_done in P. destruct P as (ptr & w1 & P1 & P).
  assert (E1 : ptr = (workflow_zip_url h last_status, workflow_zip_expiry h last_status)
               /\ n_clock w1 = n_clock w).
  { unfold workflow_zip_url, workflow_zip_expiry.
    destruct (truthy (PyDict.get last_status "zip_download_url"));
      cbn [negb] in P1; unfold bind, emit, ret in P1;
      injection P1 as <- <-; auto. }
  destruct E1 as [-> Ck]. clear P1. cbn [fst snd] in P.
  apply bind_done in P. destruct P as (dir & w2 & P2 & P).
  assert (w2 = w1) as ->.
  { unfold lift in P2. destruct (_resolve_output_dir _ _ _); congruence. }
  clear P2.
  apply bind_done in P. destruct P as (now & w3 & P3 & P).
  unfold monotonic in P3. injection P3 as <- <-. rewrite Ck in P.
  match type of P with context [PyDict.set ?b "summary" _] => set (base := b) in P end.
  match type of P with context [if include_summary a then ?x else ?y] =>
    set (r0 := if include_summary a then x else y) in P end.
  assert (K : Kept batch_id (workflow_zip_expiry h last_status) r0).
  { assert (Kb : Kept batch_id (workflow_zip_expiry h last_status) base).
    { split; repeat split; reflexivity. }
    subst r0. destruct (include_summary a); [|exact Kb].
    destruct (PyDict.get last_status "summary"); try exact Kb;
      (apply kept_set; [unfold settable; simpl; auto | exact Kb]). }
  clearbody r0. clear base.
  destruct ((deadline <=? h_clock h (n_clock w))%Z && _).
  { injection P as <- _. exists r0. eexists. eexists. split; [exact K|]. split; reflexivity. }
  assert (S1 : forall k, In k ["summary"; "zip_manifest"; "warnings"; "extracted_files";
                                "extracted_count"; "processed_csv"; "details"] ->
                    settable k) by (intros k Hk; exact Hk).
  destruct (result_mode a).
  - injection P as <- _. exists r0, "", JNull. auto.
  - destruct (truthy (workflow_zip_url h last_status)); cbn [negb] in P.
    + apply bind_done in P. destruct P as ([r zr] & w4 & P4 & P).
      pose proof (zip_stage_kept h a _ _ _ _ _ _ _ _ _ _ P4 K) as K4.
      injection P as <- _. cbn [fst snd].
      eexists. exists "", JNull. split; [|reflexivity].
      repeat first [apply kept_extend | apply kept_set; [apply S1; simpl; auto 10|]
                   | exact K4
                   | match goal with |- Kept _ _ (if ?c then _ else _) => destruct c end
                   | match goal with |- Kept _ _ (match ?c with _ => _ end) => destruct c end].
    + injection P as <- _. exists r0. eexists. eexists. split; [exact K|].
      split; reflexivity.
  - destruct (truthy (workflow_zip_url h last_status)); cbn [negb] in P.
    + apply bind_done in P. destruct P as ([r zr] & w4 & P4 & P).
      pose proof (zip_stage_kept h a _ _ _ _ _ _ _ _ _ _ P4 K) as K4.
      injection P as <- _. cbn [fst snd].
      eexists. exists "", JNull. split; [|reflexivity].
      repeat first [apply kept_extend | apply kept_set; [apply S1; simpl; auto 10|]
                   | exact K4
                   | match goal with |- Kept _ _ (if ?c then _ else _) => destruct c end
                   | match goal with |- Kept _ _ (match ?c with _ => _ end) => destruct c end].
    + injection P as <- _. exists r0. eexists. eexists. split; [exact K|].
      split; reflexivity.
Qed.

End ResultFacts2.

Lemma failed_keeps (b e : JVal) (r0 : Dict) (msg : string) (details : JVal) :
  Kept b e r0 ->
  let r := PyDict.set (PyDict.set (PyDict.set r0 "success" (JBool false))
                         "error" (JStr msg)) "details" details in
  PyDict.get r "success" = JBool false
  /\ PyDict.get r "error" = JStr msg
  /\ PyDict.get r "zipDownloadUrl" = PyDict.get r "zip_download_url"
  /\ (PyDict.get r "batch_id" = b /\ PyDict.get r "batchId" = b)
  /\ (PyDict.get r "zip_presigned_expires_at" = e
      /\ PyDict.get r "zipPresignedExpiresAt" = e).
Proof.
  intros [K1 K2 K3 [K4 K5] [K6 K7]]. cbv zeta.
  repeat split;
    repeat first [rewrite get_set_same | rewrite get_set_other by discriminate];
    auto.
Qed.

(** X16: after the polling loop the result's [success] is false in two
    cases only, the time-out (error ["Workflow timed out"]) and, in the
    manifest and extract modes, a missing ZIP URL
    (error ["Missing zip_download_url"]); in every other result that is
    returned [success] is true and there is no [error], whatever the ZIP operation and its
    retry came back with. *)
Theorem zip_failure_keeps_success (h : Host) (a : WorkflowArgs)
    (batch_id : JVal) (deadline : Z) (last_status : Dict) (w w' : World)
    (result : Dict) :
  after_poll h a batch_id deadline last_status w = (Done result, w') ->
  PyDict.get result "success"
  = JBool (negb (timed_out h deadline last_status w)
           && match result_mode a with
              | ModeUrls => true
              | _ => truthy (workflow_zip_url h last_status)
              end)
  /\ PyDict.get result "error"
     = if timed_out h deadline last_status w then JStr "Workflow timed out"
       else match result_mode a with
            | ModeUrls => JNull
            | _ => if truthy (workflow_zip_url h last_status) then JNull
                   else JStr "Missing zip_download_url"
            end.
Proof.
  intros P. destruct (after_poll_cases h a _ _ _ _ _ _ P) as (r0 & msg & d & K & C).
  destruct (timed_out h deadline last_status w); cbn [negb andb].
  { destruct C as [-> ->]. destruct (failed_keeps _ _ _ "Workflow timed out" d K) as (S & E & _).
    auto. }
  destruct (result_mode a);
    [subst result; destruct K; auto | |];
    (destruct (truthy (workflow_zip_url h last_status));
     [subst result; destruct K; auto|];
     destruct C as [-> ->];
     destruct (failed_keeps _ _ _ "Missing zip_download_url" d K) as (S & E & _); auto).
Qed.

(** X16, witness: a manifest run against a storage that answers 403
    every time still returns [success] true. *)
Lemma zip_failure_keeps_success_witness :
  PyDict.get
    (match fst (after_poll (host_with_status "Complete") (sample_args ModeManifest)
                  (JStr "b-1") 25
                  (status_result (JStr "b-1") (sample_status_body "Complete")
                     (_extract_zip_pointer scalar_repr (sample_status_body "Complete")))
                  world0) with
     | Done r => r
     | _ => []
     end) "success"
  = JBool true.
Proof.
  refine (proj1 (zip_failure_keeps_success (host_with_status "Complete")
                   (sample_args ModeManifest) (JStr "b-1") 25
                   (status_result (JStr "b-1") (sample_status_body "Complete")
                      (_extract_zip_pointer scalar_repr (sample_status_body "Complete")))
                   world0
                   (snd (after_poll (host_with_status "Complete")
                           (sample_args ModeManifest) (JStr "b-1") 25
                           (status_result (JStr "b-1") (sample_status_body "Complete")
                              (_extract_zip_pointer scalar_repr
                                 (sample_status_body "Complete")))
                           world0))
                   _ _)).
  vm_compute. reflexivity.
Defined.

(** X17: in every result returned after the polling loop the camel-case
    aliases agree with the snake-case fields: [zipDownloadUrl] with
    [zip_download_url] also after a pointer refresh, [batchId] and
    [batch_id] are the batch identifier, and both expiry fields keep the
    expiry known before the ZIP stage: a refresh does not update them. *)
Theorem result_aliases_agree (h : Host) (a : WorkflowArgs)
    (batch_id : JVal) (deadline : Z) (last_status : Dict) (w w' : World)
    (result : Dict) :
  after_poll h a batch_id deadline last_status w = (Done result, w') ->
  PyDict.get result "zipDownloadUrl" = PyDict.get result "zip_download_url"
  /\ (PyDict.get result "batch_id" = batch_id
      /\ PyDict.get result "batchId" = batch_id)
  /\ (PyDict.get result "zip_presigned_expires_at"
      = workflow_zip_expiry h last_status
      /\ PyDict.get result "zipPresignedExpiresAt"
         = workflow_zip_expiry h last_status).
Proof.
  intros P. destruct (after_poll_cases h a _ _ _ _ _ _ P) as (r0 & msg & d & K & C).
  assert (F : forall m, result = PyDict.set
                                   (PyDict.set (PyDict.set r0 "success" (JBool false))
                                      "error" (JStr m)) "details" d ->
              PyDict.get result "zipDownloadUrl" = PyDict.get result "zip_download_url"
              /\ (PyDict.get result "batch_id" = batch_id
                  /\ PyDict.get result "batchId" = batch_id)
              /\ (PyDict.get result "zip_presigned_expires_at"
                  = workflow_zip_expiry h last_status
                  /\ PyDict.get result "zipPresignedExpiresAt"
                     = workflow_zip_expiry h last_status)).
  { intros m ->. now destruct (failed_keeps _ _ _ m d K) as (_ & _ & R). }
  assert (G : result = r0 ->
              PyDict.get result "zipDownloadUrl" = PyDict.get result "zip_download_url"
              /\ (PyDict.get result "batch_id" = batch_id
                  /\ PyDict.get result "batchId" = batch_id)
              /\ (PyDict.get result "zip_presigned_expires_at"
                  = workflow_zip_expiry h last_status
                  /\ PyDict.get result "zipPresignedExpiresAt"
                     = workflow_zip_expiry h last_status)).
  { intros ->. destruct K. auto. }
  destruct (timed_out h deadline last_status w); [destruct C as [_ C]; eauto|].
  destruct (result_mode a); [auto | |];
    (destruct (truthy (workflow_zip_url h last_status));
     [auto | destruct C as [_ C]; eauto]).
Qed.

(** X17, witness: the [batchId] of the manifest run above. *)
Lemma result_aliases_agree_witness :
  PyDict.get
    (match fst (after_poll (host_with_status "Complete") (sample_args ModeManifest)
                  (JStr "b-1") 25
                  (status_result (JStr "b-1") (sample_status_body "Complete")
                     (_extract_zip_pointer scalar_repr (sample_status_body "Complete")))
                  world0) with
     | Done r => r
     | _ => []
     end) "batchId"
  = JStr "b-1".
Proof.
  refine (proj2 (proj1 (proj2 (result_aliases_agree (host_with_status "Complete")
                   (sample_args ModeManifest) (JStr "b-1") 25
                   (status_result (JStr "b-1") (sample_status_body "Complete")
                      (_extract_zip_pointer scalar_repr (sample_status_body "Complete")))
                   world0
                   (snd (after_poll (host_with_status "Complete")
                           (sample_args ModeManifest) (JStr "b-1") 25
                           (status_result (JStr "b-1") (sample_status_body "Complete")
                              (_extract_zip_pointer scalar_repr
                                 (sample_status_body "Complete")))
                           world0))
                   _ _)))).
  vm_compute. reflexivity.
Defined.

Section NoDownload.

Variable h : Host.
Variable a : WorkflowArgs.

Lemma nd_status (batch_id : JVal) (o : option string) :
  emits no_download (check_batch_status h batch_id o).
Proof.
  intros w. destruct (status_exact h batch_id o w) as (E & _).
  eexists. split; [exact E|]. unfold status_events.
  destruct (payload_available h o w); repeat constructor.
Qed.

Lemma nd_emit (e : Event) : no_download e -> emits no_download (emit e).
Proof. intros H. apply produces_emit. now constructor. Qed.

Lemma nd_monotonic : emits no_download (monotonic h).
Proof. apply produces_monotonic. intros t. repeat constructor. Qed.

Lemma nd_poll (fuel : nat) (batch_id : JVal) (deadline : Z) :
  emits no_download (poll h a fuel batch_id deadline).
Proof.
  induction fuel as [|fuel IH]; cbn [poll].
  - apply produces_out_of_fuel. constructor.
  - apply emits_bind; [apply nd_status|]. intros status_resp.
    destruct (negb _); [apply emits_ret|].
    destruct (_is_terminal_status _ _); [apply emits_ret|].
    apply emits_bind; [apply nd_monotonic|]. intros now.
    destruct (deadline <=? now)%Z; [apply emits_ret|].
    apply emits_bind; [now apply nd_emit | intros _; exact IH].
Qed.

Lemma nd_after_poll (batch_id : JVal) (deadline : Z) (last_status : Dict) :
  result_mode a = ModeUrls ->
  emits no_download (after_poll h a batch_id deadline last_status).
Proof.
  intros Mode. unfold after_poll. rewrite Mode.
  apply emits_bind.
  { destruct (negb _); [|apply emits_ret].
    apply emits_bind; [now apply nd_emit | intros _; apply emits_ret]. }
  intros ptr. apply emits_bind; [apply produces_lift; constructor|]. intros dir.
  apply emits_bind; [apply nd_monotonic|]. intros now. cbv zeta.
  destruct (_ && _); apply emits_ret.
Qed.

Lemma nd_workflow (fuel : nat) :
  result_mode a = ModeUrls ->
  emits no_download (process_rent_roll_workflow h a fuel).
Proof.
  intros Mode. unfold process_rent_roll_workflow. cbv zeta.
  destruct (negb (PyStr.truthy _)); [apply emits_ret|].
  destruct (negb (truthy (PyDict.get _ "success"))); [apply emits_ret|].
  destruct (negb (truthy (PyDict.get _ "batchId"))); [apply emits_ret|].
  apply emits_bind; [apply nd_monotonic|]. intros start.
  apply emits_bind; [apply nd_poll|]. intros [status_resp|last_status];
    [apply emits_ret | now apply nd_after_poll].
Qed.

End NoDownload.

(** X15: in the urls mode no run of the workflow calls the ZIP fetcher or
    sends a request on the download channel. *)
Theorem urls_mode_downloads_nothing (h : Host) (a : WorkflowArgs) (fuel : nat)
    (w : World) :
  result_mode a = ModeUrls ->
  exists evs,
    trace (snd (process_rent_roll_workflow h a fuel w)) = trace w ++ evs
    /\ Forall no_download evs.
Proof. intros Mode. exact (nd_workflow h a fuel Mode w). Qed.

(** X15, witness: a urls-mode run on the sample host. *)
Lemma urls_mode_downloads_nothing_witness :
  exists evs,
    trace (snd (process_rent_roll_workflow (host_with_status "Complete")
                  (sample_args ModeUrls) 5 world0))
    = trace world0 ++ evs
    /\ Forall no_download evs.
Proof.
  apply (urls_mode_downloads_nothing (host_with_status "Complete")
           (sample_args ModeUrls) 5 world0).
  reflexivity.
Defined.

(** ** The file-download tool *)

Section ToolFacts.

Variable h : Host.

Lemma download_one_done (key : string) (i : nat) (url : string) (w : World) :
  tool_catches_all h ->
  exists r w',
    download_one h key i url w = (Done r, w')
    /\ n_get w + 1 <= n_get w' <= n_get w + 2.
Proof.
  intros [NoInv SaveOs].
  unfold download_one, bind, ret, raise, http_get. cbn [fst snd n_get].
  destruct (h_transport h (n_get w) _) as [code text ar| | | |] eqn:T1; cbn [n_get];
    try (do 2 eexists; split; [reflexivity | cbn [n_get]; lia]);
    try (now elim (NoInv _ _ T1)).
  destruct ((code =? 401)%Z && _is_presigned_s3_url url); cbn [n_get].
  - destruct (h_transport h (S (n_get w)) _) as [c2 t2 a2| | | |] eqn:T2;
      try (do 2 eexists; split; [reflexivity | cbn [n_get]; lia]);
      try (now elim (NoInv _ _ T2)).
    destruct (negb (c2 =? 200)%Z);
      [|destruct (h_save_download h i url _) as [path|e] eqn:Sv;
        [|rewrite (SaveOs _ _ _ _ Sv)]];
      do 2 eexists; (split; [reflexivity | cbn [n_get]; lia]).
  - destruct (negb (code =? 200)%Z);
      [|destruct (h_save_download h i url _) as [path|e] eqn:Sv;
        [|rewrite (SaveOs _ _ _ _ Sv)]];
      do 2 eexists; (split; [reflexivity | cbn [n_get]; lia]).
Qed.

Lemma download_loop_done (key : string) (urls : list string) :
  tool_catches_all h ->
  forall i w,
    exists files errs w',
      download_loop h key i urls w = (Done (files, errs), w')
      /\ List.length files + List.length errs = List.length urls
      /\ n_get w + List.length urls <= n_get w' <= n_get w + 2 * List.length urls.
Proof.
  intros Catches.
  induction urls as [|url rest IH]; intros i w; cbn [download_loop].
  - exists [], [], w. split; [reflexivity|]. simpl. lia.
  - unfold bind at 1.
    destruct (download_one_done key i url w Catches) as (r & w1 & E1 & B1).
    rewrite E1.
    unfold bind at 1.
    destruct (IH (S i) w1) as (files & errs & w2 & E2 & L & B2). rewrite E2.
    destruct r as [path|err]; cbn [ret fst snd].
    + exists (path :: files), errs, w2. split; [reflexivity|]. simpl. lia.
    + exists files, (err :: errs), w2. split; [reflexivity|]. simpl. lia.
Qed.

Lemma key_available_inr (o : option string) :
  key_available h o = true -> exists key, _get_api_key h o = inr key.
Proof.
  unfold key_available, _get_api_key.
  destruct (_get_api_key_optional h o) as [k|]; [|discriminate].
  intros ->. now exists k.
Qed.

End ToolFacts.

(** X18: with a key configured, a list of URLs that is not empty and an
    output directory that can be created, and as long as nothing is raised
    that the loop does not catch (the client accepts every URL, and a
    file that cannot be saved fails with an [OSError]), the file-download
    tool returns a result in which every URL ends as exactly one
    downloaded file or one error: the two lists add up to the number of
    URLs, [downloadedCount] is the number of files, [success] says whether
    there is at least one, [errors] is present exactly when there is an
    error; and the tool sends between one and two requests per URL. *)
Theorem every_url_is_accounted_for (h : Host) (urls : list string)
    (dir : string) (o : option string) (w : World) :
  key_available h o = true -> urls <> [] -> h_mkdir_ok h (Path dir) = true ->
  tool_catches_all h ->
  exists files errs result w',
    _download_processed_files_impl h urls dir o w = (Done result, w')
    /\ List.length files + List.length errs = List.length urls
    /\ PyDict.get result "downloadedFiles" = JList (map JStr files)
    /\ PyDict.get result "downloadedCount" = JInt (Z.of_nat (List.length files))
    /\ PyDict.get result "success" = JBool (0 <? List.length files)%nat
    /\ PyDict.get result "errors"
       = match errs with [] => JNull | _ => JList (map JStr errs) end
    /\ n_get w + List.length urls <= n_get w' <= n_get w + 2 * List.length urls.
Proof.
  intros K N Mk Catches. destruct (key_available_inr h o K) as [key E].
  unfold _download_processed_files_impl. rewrite E, Mk. cbn [negb].
  destruct urls as [|u us]; [now elim N|].
  unfold bind at 1.
  destruct (download_loop_done h key (u :: us) Catches 0 w)
    as (files & errs & w' & E2 & L & B).
  rewrite E2. cbn [ret fst snd].
  exists files, errs. eexists. exists w'. split; [reflexivity|].
  split; [exact L|]. rewrite length_map.
  repeat split; try reflexivity; try lia.
  destruct errs; destruct (1 <? List.length (u :: us))%nat; reflexivity.
Qed.

(** X18, witness: a pre-signed and a proxied URL against a storage that
    serves both. *)
Lemma every_url_is_accounted_for_witness :
  exists files errs result w',
    _download_processed_files_impl archive_host [presigned_url; proxied_url]
      "/tmp/dl" (Some "secret") world0
    = (Done result, w')
    /\ List.length files + List.length errs = 2
    /\ PyDict.get result "downloadedFiles" = JList (map JStr files)
    /\ PyDict.get result "downloadedCount" = JInt (Z.of_nat (List.length files))
    /\ PyDict.get result "success" = JBool (0 <? List.length files)%nat
    /\ PyDict.get result "errors"
       = match errs with [] => JNull | _ => JList (map JStr errs) end
    /\ n_get world0 + 2 <= n_get w' <= n_get world0 + 2 * 2.
Proof.
  apply (every_url_is_accounted_for archive_host [presigned_url; proxied_url]
           "/tmp/dl" (Some "secret") world0).
  - reflexivity.
  - discriminate.
  - reflexivity.
  - split.
    + intros n req. discriminate.
    + intros i url resp e. discriminate.
Defined.

(** ** Base URL and content types *)

Lemma rstrip_char_tail (a : ascii) (s : string) :
  exists t, s = (rstrip_char a s ++ t)%string /\ PyStr.lstrip_char a t = "".
Proof.
  induction s as [|c s (t & E & T)]; [now exists ""|].
  cbn [rstrip_char].
  destruct (rstrip_char a s) as [|d r].
  - destruct (Ascii.eqb c a) eqn:C.
    + exists (String c s). split; [reflexivity|]. simpl. rewrite C.
      simpl in E. now rewrite E.
    + exists t. split; [|exact T]. simpl. f_equal. exact E.
  - exists t. split; [|exact T]. cbn [append]. f_equal. exact E.
Qed.

Lemma endswith_last (r : string) (c a : ascii) :
  PyStr.endswith (r ++ String c "") (String a "") = Ascii.eqb c a.
Proof.
  unfold PyStr.endswith. rewrite length_app. cbn [String.length].
  replace (String.length r + 1 - 1) with (String.length r) by lia.
  pose proof (substring_app_r r (String c "")) as E. cbn [String.length] in E.
  rewrite E.
  replace (1 <=? String.length r + 1)%nat with true
    by (symmetry; apply Nat.leb_le; lia).
  cbn [andb String.eqb]. now destruct (Ascii.eqb c a).
Qed.

Lemma rstrip_char_last (a : ascii) (s : string) :
  rstrip_char a s = ""
  \/ exists r c, rstrip_char a s = (r ++ String c "")%string /\ Ascii.eqb c a = false.
Proof.
  induction s as [|c s IH]; [now left|].
  cbn [rstrip_char].
  destruct (rstrip_char a s) as [|d r'] eqn:E.
  - destruct (Ascii.eqb c a) eqn:C; [now left|].
    right. exists "", c. auto.
  - right. destruct IH as [|(r & x & Er & Hx)]; [discriminate|].
    exists (String c r), x. split; [|exact Hx]. cbn [append]. now rewrite Er.
Qed.

(** X20: the base URL never ends with a slash: it is the configured
    value of [RADIX_API_URL] (the default when the variable is unset)
    without its trailing slashes and nothing else removed; a variable set
    to the empty string gives the empty base URL, not the default. *)
Theorem base_url_has_no_trailing_slash (env_api_url : option string) :
  PyStr.endswith (_get_base_url env_api_url) "/" = false
  /\ (exists slashes,
         match env_api_url with
         | Some v => v
         | None => DEFAULT_BASE_URL
         end = (_get_base_url env_api_url ++ slashes)%string
         /\ PyStr.lstrip_char "/" slashes = "")
  /\ _get_base_url None = DEFAULT_BASE_URL
  /\ _get_base_url (Some "") = "".
Proof.
  split; [|split; [|split; reflexivity]].
  - unfold _get_base_url.
    destruct (rstrip_char_last "/" match env_api_url with
                                   | Some v => v
                                   | None => DEFAULT_BASE_URL
                                   end) as [->|(r & c & -> & C)];
      [reflexivity|].
    now rewrite endswith_last.
  - apply rstrip_char_tail.
Qed.

Lemma content_type_supported (extension : string) :
  In (PyStr.lower extension) SUPPORTED_EXTENSIONS
  <-> _get_content_type extension <> "application/octet-stream".
Proof.
  unfold _get_content_type, SUPPORTED_EXTENSIONS, MIME_TYPES.
  remember (PyStr.lower extension) as x eqn:Ex. clear Ex. cbn [table_get In].
  repeat match goal with
         | |- context [String.eqb ?k x] =>
             destruct (String.eqb_spec k x) as [<-|?]
         end;
    try (split; [intros _; discriminate | intros _; auto 10]).
  split; [|congruence].
  intros H. repeat destruct H as [H|H]; try contradiction; congruence.
Qed.

(** X19: the table of MIME types and the set of supported extensions have
    the same keys: an extension gets a MIME type of its own, and not the
    fallback [application/octet-stream], exactly when its lower-case form
    is a supported extension; and the letter case of the extension does
    not matter. *)
Theorem supported_extensions_have_mime_types (extension : string) :
  (In (PyStr.lower extension) SUPPORTED_EXTENSIONS
   <-> _get_content_type extension <> "application/octet-stream")
  /\ _get_content_type (PyStr.lower extension) = _get_content_type extension.
Proof.
  split; [apply content_type_supported|].
  unfold _get_content_type. now rewrite lower_idem.
Qed.

(** ** The upload tool *)

Lemma validate_files_none (u : UploadHost) (file_paths : list string) :
  validate_files u file_paths = None -> Forall (file_accepted u) file_paths.
Proof.
  induction file_paths as [|fp rest IH]; cbn [validate_files]; [constructor|].
  cbv zeta.
  destruct (up_exists u (Path fp)) eqn:E; [|discriminate]. cbn [negb].
  destruct (up_is_file u (Path fp)) eqn:F; [|discriminate]. cbn [negb].
  destruct (existsb _ SUPPORTED_EXTENSIONS) eqn:S; [|discriminate]. cbn [negb].
  destruct (MAX_FILE_SIZE_BYTES <? up_size u (Path fp))%N eqn:Z; [discriminate|].
  intros H. constructor; [|now apply IH].
  repeat split; auto.
  - apply existsb_exists in S. destruct S as (x & Hx & Ex).
    apply String.eqb_eq in Ex. now subst x.
  - apply N.ltb_ge in Z. exact Z.
Qed.

Lemma file_part_mime (u : UploadHost) (fp : string) :
  file_accepted u fp -> part_mime (file_part fp) <> "application/octet-stream".
Proof.
  intros (_ & _ & S & _). unfold file_part. cbn [part_mime].
  now apply content_type_supported.
Qed.

Lemma validate_files_accepts (u : UploadHost) (file_paths : list string) :
  Forall (file_accepted u) file_paths -> validate_files u file_paths = None.
Proof.
  induction 1 as [|fp rest (E & F & S & Z) _ IH]; cbn [validate_files];
    [reflexivity|].
  cbv zeta. rewrite E, F. cbn [negb].
  assert (S' : existsb (String.eqb (PyStr.lower (path_suffix (Path fp))))
                       SUPPORTED_EXTENSIONS = true).
  { apply existsb_exists. eexists. split; [exact S | apply String.eqb_refl]. }
  rewrite S'. cbn [negb].
  apply N.ltb_ge in Z. now rewrite Z.
Qed.

(** X21: the upload tool sends a request only when a key is configured,
    there are between one and twenty files, and every file exists, is a
    regular file, has a supported extension and is at most 2 MiB large;
    the request then goes to the upload endpoint under the base URL with
    the bearer header, carries the files in the order given, each with a
    MIME type other than the fallback, and a notification list of at most
    two entries that starts with the email.  Conversely, when all of that
    holds and every file can be opened, the request is sent and the tool
    ends with what it makes of the reply. *)
Theorem upload_sends_only_validated_files (h : Host) (u : UploadHost)
    (file_paths : list string) (notification_email : string)
    (webhook_url api_key_override : option string) :
  (forall req,
      snd (upload_rent_rolls h u file_paths notification_email webhook_url
             api_key_override) = Some req ->
      (exists key, _get_api_key h api_key_override = inr key
                   /\ up_headers req = bearer key)
      /\ 1 <= List.length file_paths <= MAX_FILES_PER_BATCH
      /\ Forall (file_accepted u) file_paths
      /\ up_files req = map file_part file_paths
      /\ Forall (fun part => part_mime part <> "application/octet-stream")
                (up_files req)
      /\ up_url req
         = (_get_base_url (up_env_api_url u) ++ "/api/external/v1/upload")%string
      /\ hd_error (up_notification req) = Some ("email", notification_email)
      /\ List.length (up_notification req) <= 2)
  /\ (key_available h api_key_override = true ->
      1 <= List.length file_paths <= MAX_FILES_PER_BATCH ->
      Forall (file_accepted u) file_paths ->
      Forall (fun fp => up_open_ok u (Path fp) = true) file_paths ->
      exists req,
        upload_rent_rolls h u file_paths notification_email webhook_url
          api_key_override
        = (upload_result (_get_base_url (up_env_api_url u))
             (List.length file_paths) (up_post u req),
           Some req)).
Proof.
  unfold upload_rent_rolls. split.
  - intros req.
    destruct (_get_api_key h api_key_override) as [err|key]; [discriminate|].
    cbv zeta.
    destruct file_paths as [|fp rest] eqn:Fp; [discriminate|]. rewrite <- Fp.
    destruct (MAX_FILES_PER_BATCH <? List.length file_paths)%nat eqn:Max;
      [discriminate|].
    destruct (validate_files u file_paths) as [err|] eqn:V; [discriminate|].
    destruct (negb (forallb _ file_paths)); [discriminate|].
    cbn [snd]. intros [= <-]. cbn [up_headers up_files up_url up_notification].
    apply Nat.ltb_ge in Max. apply validate_files_none in V.
    split; [now exists key|]. split; [subst file_paths; simpl in *; lia|].
    split; [exact V|]. split; [reflexivity|]. split.
    + apply Forall_forall. intros part Hin. apply in_map_iff in Hin.
      destruct Hin as (x & <- & Hx). apply (file_part_mime u).
      exact (proj1 (Forall_forall _ _) V x Hx).
    + split; [reflexivity|]. split; [reflexivity|].
      destruct webhook_url as [url|]; [destruct (PyStr.truthy url)|]; simpl; lia.
  - intros K [L1 L2] V O.
    unfold key_available, _get_api_key in *.
    destruct (_get_api_key_optional h api_key_override) as [k|]; [|discriminate].
    rewrite K. cbv zeta.
    destruct file_paths as [|fp rest] eqn:Fp; [simpl in L1; lia|]. rewrite <- Fp in *.
    apply Nat.ltb_ge in L2. rewrite L2.
    rewrite (validate_files_accepts u file_paths V).
    assert (F : forallb (fun fp => up_open_ok u (Path fp)) file_paths = true).
    { apply forallb_forall. intros x Hx. exact (proj1 (Forall_forall _ _) O x Hx). }
    rewrite F. cbn [negb]. eexists. reflexivity.
Qed.

(** X21, witness: one spreadsheet with an upper-case extension. *)
Lemma upload_sends_only_validated_files_witness :
  exists req,
    upload_rent_rolls sample_host sample_upload_host ["/data/Rent Roll.XLSX"]
      "ops@example.com" None (Some "secret")
    = (upload_result (_get_base_url (up_env_api_url sample_upload_host)) 1
         (up_post sample_upload_host req),
       Some req).
Proof.
  refine (proj2 (upload_sends_only_validated_files sample_host sample_upload_host
                   ["/data/Rent Roll.XLSX"] "ops@example.com" None (Some "secret"))
            eq_refl _ _ _).
  - unfold MAX_FILES_PER_BATCH. simpl. lia.
  - constructor; [|constructor]. vm_compute. repeat split; auto 10. discriminate.
  - constructor; [reflexivity | constructor].
Defined.

(** ** CSV previews and the output directory *)

Lemma take_rows_bound (count : Z) (rows : list (option Dict)) :
  forall i rs,
    take_rows count i rows = Some rs ->
    (Z.of_nat (List.length rs) <= Z.max 0 (count - i))%Z.
Proof.
  induction rows as [|[row|] rest IH]; intros i rs; cbn [take_rows].
  - intros [= <-]. cbn [List.length]. lia.
  - destruct (count <=? i)%Z eqn:C.
    + intros [= <-]. cbn [List.length]. lia.
    + destruct (take_rows count (i + 1) rest) as [rs'|] eqn:T; [|discriminate].
      intros [= <-]. specialize (IH _ _ T). apply Z.leb_gt in C.
      cbn [List.length]. lia.
  - discriminate.
Qed.

Lemma preview_entry_rows (c : CsvHost) (fp : LocalPath) (size : N)
    (count max_inline : Z) :
  PyDict.get (preview_entry c fp size count max_inline) "entry_name"
  = JStr (path_name fp)
  /\ (exists rows,
         PyDict.get (preview_entry c fp size count max_inline) "preview_rows"
         = JList rows
         /\ (Z.of_nat (List.length rows) <= Z.max 0 count)%Z)
  /\ (PyDict.get (preview_entry c fp size count max_inline) "inline_csv" <> JNull ->
      (Z.of_N size <= max_inline)%Z).
Proof.
  unfold preview_entry. split; [reflexivity|]. split.
  - destruct (csv_reader c fp) as [[header rows]|];
      [destruct (take_rows count 0 rows) as [rs|] eqn:T|].
    + exists (map JDict rs). split; [reflexivity|]. rewrite length_map.
      pose proof (take_rows_bound _ _ _ _ T) as B. rewrite Z.sub_0_r in B. exact B.
    + exists []. split; [reflexivity|]. cbn [List.length]. lia.
    + exists []. split; [reflexivity|]. cbn [List.length]. lia.
  - destruct (Z.of_N size <=? max_inline)%Z eqn:L.
    + intros _. now apply Z.leb_le.
    + intros H. exfalso. apply H.
      destruct (csv_reader c fp) as [[header rows]|];
        [destruct (take_rows count 0 rows)|]; reflexivity.
Qed.

(** X22: every preview comes from an extracted file whose suffix is
    [.csv] in any letter case, whose path contains [processed-csv] and
    whose size can be read; its [entry_name] is the file's name, it holds
    at most [preview_row_count] rows (none when that count is not
    positive), and it carries [inline_csv] only when the file is at most
    [max_inline_bytes] large. *)
Theorem previews_only_for_processed_csv (c : CsvHost)
    (extracted_files : list string) (preview_row_count max_inline_bytes : Z)
    (entry : Dict) :
  In entry (_read_csv_previews c extracted_files preview_row_count max_inline_bytes) ->
  exists fpath size,
    In fpath extracted_files
    /\ is_processed_csv fpath = true
    /\ csv_stat c (Path fpath) = Some size
    /\ PyDict.get entry "entry_name" = JStr (path_name (Path fpath))
    /\ (exists rows,
           PyDict.get entry "preview_rows" = JList rows
           /\ (Z.of_nat (List.length rows) <= Z.max 0 preview_row_count)%Z)
    /\ (PyDict.get entry "inline_csv" <> JNull ->
        (Z.of_N size <= max_inline_bytes)%Z).
Proof.
  unfold _read_csv_previews. intros H. apply in_flat_map in H.
  destruct H as (fpath & Hin & H). exists fpath.
  unfold preview_of, is_processed_csv in *.
  destruct (String.eqb _ ".csv"); [|destruct H]. cbn [negb andb] in *.
  destruct (PyStr.contains _ _); [|destruct H]. cbn [negb] in H.
  destruct (csv_stat c (Path fpath)) as [size|]; [|destruct H].
  destruct H as [<-|[]]. exists size.
  split; [exact Hin|]. split; [reflexivity|]. split; [reflexivity|].
  apply preview_entry_rows.
Qed.

(** X22, witness: a CSV file under [processed-csv] next to a text file,
    with a preview of two rows. *)
Lemma previews_only_for_processed_csv_witness :
  exists fpath size,
    In fpath ["/tmp/out/processed-csv/a.CSV"; "/tmp/out/notes/readme.txt"]
    /\ is_processed_csv fpath = true
    /\ csv_stat sample_csv_host (Path fpath) = Some size
    /\ PyDict.get (preview_entry sample_csv_host (Path "/tmp/out/processed-csv/a.CSV")
                     40 2 250000) "entry_name"
       = JStr (path_name (Path fpath))
    /\ (exists rows,
           PyDict.get (preview_entry sample_csv_host
                         (Path "/tmp/out/processed-csv/a.CSV") 40 2 250000)
             "preview_rows" = JList rows
           /\ (Z.of_nat (List.length rows) <= Z.max 0 2)%Z)
    /\ (PyDict.get (preview_entry sample_csv_host
                      (Path "/tmp/out/processed-csv/a.CSV") 40 2 250000)
          "inline_csv" <> JNull ->
        (Z.of_N size <= 250000)%Z).
Proof.
  apply (previews_only_for_processed_csv sample_csv_host
           ["/tmp/out/processed-csv/a.CSV"; "/tmp/out/notes/readme.txt"] 2 250000
           (preview_entry sample_csv_host (Path "/tmp/out/processed-csv/a.CSV")
              40 2 250000)).
  vm_compute. auto.
Defined.

Lemma path_str_anchored (p : LocalPath) :
  is_anchored p = true -> PyStr.startswith (path_str p) "/" = true.
Proof.
  destruct p as [|x rest]; [discriminate|]. cbn [is_anchored path_str].
  intros H. rewrite H. destruct x as [|c x]; [discriminate|].
  rewrite startswith_char in H. cbn [append]. now rewrite startswith_char.
Qed.

(** X23: when [mkdtemp] gives absolute paths, the directory
    [_resolve_output_dir] returns is absolute; the warnings are empty
    unless it fell back to the temporary directory; and under the temp
    strategy the requested directory is ignored: the result is the
    temporary directory, without warnings. *)
Theorem output_dir_used_is_absolute (h : Host) (output_dir : option string)
    (strategy : DirStrategy) (dir : string) (ws : list JVal) :
  (forall tmp, h_mkdtemp h = Ok tmp -> PyStr.startswith tmp "/" = true) ->
  _resolve_output_dir h output_dir strategy = Ok (dir, ws) ->
  PyStr.startswith dir "/" = true
  /\ (ws <> [] -> h_mkdtemp h = Ok dir)
  /\ (strategy = StrategyTemp -> h_mkdtemp h = Ok dir /\ ws = []).
Proof.
  intros T. unfold _resolve_output_dir.
  assert (F : forall ws0,
             (let! tmp := h_mkdtemp h in Ok (tmp, ws0)) = Ok (dir, ws) ->
             PyStr.startswith dir "/" = true /\ h_mkdtemp h = Ok dir /\ ws = ws0).
  { intros ws0. destruct (h_mkdtemp h) as [tmp|e] eqn:E; [|discriminate].
    cbn [rbind]. intros [= <- <-]. auto. }
  destruct strategy.
  - intros H. destruct (F _ H) as (A & B & C). subst ws. auto.
  - destruct output_dir as [d|].
    2:{ intros H. destruct (F _ H) as (A & B & C). subst ws. repeat split; auto; discriminate. }
    destruct (PyStr.truthy d).
    2:{ intros H. destruct (F _ H) as (A & B & C). subst ws. repeat split; auto; discriminate. }
    destruct (is_anchored (Path d)) eqn:An; cbn [negb].
    2:{ intros H. destruct (F _ H) as (A & B & C). repeat split; auto; discriminate. }
    destruct (h_mkdir_ok h (Path d)).
    + intros [= <- <-]. split; [now apply path_str_anchored|].
      split; [congruence | discriminate].
    + intros H. destruct (F _ H) as (A & B & C). repeat split; auto; discriminate.
Qed.

(** X23, witness: a requested absolute directory on the sample host. *)
Lemma output_dir_used_is_absolute_witness :
  PyStr.startswith "/srv/out" "/" = true.
Proof.
  refine (proj1 (output_dir_used_is_absolute sample_host (Some "/srv/out/")
                   StrategyUseOutputDir "/srv/out" [] _ eq_refl)).
  intros tmp [= <-]. reflexivity.
Defined.

(** ** Literal patterns and the manifest tool *)

Lemma tokens_literal (pat : string) :
  forall fuel b,
    literal pat = true -> String.length pat <= fuel ->
    Fnmatch.tokens fuel b pat
    = map Fnmatch.TLit (list_ascii_of_string pat).
Proof.
  induction pat as [|c pat IH]; intros fuel b L F.
  - destruct fuel; reflexivity.
  - destruct fuel as [|fuel]; [simpl in F; lia|].
    cbn [literal] in L. apply andb_prop in L. destruct L as [L Lp].
    apply andb_prop in L. destruct L as [L L3].
    apply andb_prop in L. destruct L as [L1 L2].
    apply negb_true_iff in L1, L2, L3.
    cbn [Fnmatch.tokens list_ascii_of_string map]. rewrite L1, L2, L3.
    f_equal. apply IH; [exact Lp | simpl in F; lia].
Qed.

Lemma run_literal (cm : string -> ascii -> bool) (pat : string) :
  forall s,
    Fnmatch.run cm (map Fnmatch.TLit (list_ascii_of_string pat)) s
    = String.eqb s pat.
Proof.
  induction pat as [|c pat IH]; intros s; cbn [list_ascii_of_string map Fnmatch.run].
  - destruct s; reflexivity.
  - destruct s as [|d s]; [reflexivity|]. cbn [String.eqb].
    rewrite IH. destruct (Ascii.eqb d c); reflexivity.
Qed.

Lemma fnmatch_literal (cm : string -> ascii -> bool) (s pat : string) :
  literal pat = true -> Fnmatch.fnmatchcase cm s pat = String.eqb s pat.
Proof.
  intros L. unfold Fnmatch.fnmatchcase, Fnmatch.translate.
  rewrite (tokens_literal pat _ _ L (le_n _)). apply run_literal.
Qed.

(** X24: a pattern without a slash and without any of the characters
    [*], [?] and [[] (other than the empty one and ["."]) names a file: an
    entry matches exactly when its last segment is the pattern, whatever
    directories come before it. *)
Theorem literal_pattern_names_the_file (cm : string -> ascii -> bool)
    (name p : string) :
  PyStr.has_char "/" (norm_entry p) = false ->
  norm_entry p <> "" -> norm_entry p <> "." ->
  literal (norm_entry p) = true ->
  _match_zip_patterns cm name [p]
  = Ok match rev (PurePosixPath.parts (norm_entry name)) with
       | [] => false
       | last :: _ => String.eqb last (norm_entry p)
       end.
Proof.
  intros Hs He Hd L. rewrite match_single.
  destruct (PyStr.truthy p) eqn:T.
  2:{ apply truthy_false_iff in T. subst p. now elim He. }
  unfold match_one.
  destruct (String.eqb (norm_entry p) "**") eqn:E1.
  { apply String.eqb_eq in E1. rewrite E1 in L. discriminate. }
  destruct (String.eqb (norm_entry p) "**/*") eqn:E2.
  { apply String.eqb_eq in E2. rewrite E2 in Hs. discriminate. }
  destruct (PyStr.endswith (norm_entry p) "/**") eqn:E3.
  { apply endswith_has_char in E3. congruence. }
  cbn [orb andb].
  destruct (parts_single _ Hs He Hd) as [P R].
  unfold PurePosixPath.pmatch. rewrite P, R. cbn [PyStr.truthy andb].
  destruct (PurePosixPath.parts (norm_entry name)) as [|x xs]; [reflexivity|].
  cbn [List.length Nat.ltb Nat.leb]. cbn [rev app].
  destruct (rev (x :: xs)) as [|l ls] eqn:Er.
  - apply (f_equal (@List.length _)) in Er. rewrite length_rev in Er. discriminate.
  - simpl in Er. rewrite Er. cbn [PurePosixPath.zip_all].
    rewrite (fnmatch_literal cm l _ L). destruct ls; now rewrite andb_true_r.
Qed.

(** X24, witness: a file name two directories down. *)
Lemma literal_pattern_names_the_file_witness :
  _match_zip_patterns plain_class "notes/old/readme.txt" ["readme.txt"] = Ok true.
Proof.
  apply (literal_pattern_names_the_file plain_class "notes/old/readme.txt"
           "readme.txt");
    [reflexivity | discriminate | discriminate | reflexivity].
Defined.

Section ManifestTool.

Variable h : Host.


End ManifestTool.




